(** * story_parser: the response validator of the sports-stories generator

    A shallow embedding of [story_parser.py] (cleaning of the model's raw
    text, JSON decoding, schema validation, persistence) together with the
    parts of the Python runtime the module calls: [str.strip], [str.find],
    [str.rfind], slicing, the two [re.sub] calls, [json.loads] with its
    default options, [dict] with insertion order, [print], [os.makedirs]
    and the file write.

    Conventions.
    - A Python [str] is a list of Unicode code points ([N]).
    - A raised exception is a value of type [exn]; a function that may raise
      returns [result].
    - Console output and file-system actions are recorded, in order, as a
      list of [event]s; a function that performs them returns [io].
    - What the module reads from its surroundings (the clock, the directory
      of the module file, the answers of the file system) is a record
      [env] passed to the functions that read it.

    The embedding goes on with what uses the validated story:
    [html_renderer.py] (the theme, the slide templates, the document
    template, the file write) and [main.py] (the menu, the run of the
    pipeline for one team, the loop over the teams with its handlers).
    Stages 1 to 3 of the pipeline reach the network; what they print,
    return or raise is read from the surroundings.  Of these stages
    [_extract_match_data] of [sports_fetcher.py], [prompt_builder.py]
    and the part of [claude_client.py] around the request are embedded
    on their own.  Where the runtime computes what a list of code points
    cannot tell ([str] of a number, [str.lower], [int] of a text,
    arithmetic on a [float]), the function is a variable of the section.

    Left out: the position carried by a [JSONDecodeError], the value of a
    [float] (its literal is kept instead), the interpreter's recursion limit
    and its limit on the digits of an [int] literal, and a console that
    cannot encode what [print] is given. *)

From Stdlib Require Import String Ascii List ZArith NArith Lia Bool.
Import ListNotations.

Set Implicit Arguments.

(* ===================================================================== *)
(** ** Python strings *)
(* ===================================================================== *)

Definition char := N.
Definition str := list char.

(** A literal of the source, written as a Rocq string. *)
Definition lit (s : string) : str := map N_of_ascii (list_ascii_of_string s).

Definition chr (a : ascii) : char := N_of_ascii a.

Definition NL : char := 10%N.
Definition QUOTE : char := 34%N.
Definition BACKSLASH : char := 92%N.
Definition LBRACE : char := chr "{".
Definition RBRACE : char := chr "}".

Definition char_eqb (a b : char) : bool := N.eqb a b.

Fixpoint str_eqb (a b : str) : bool :=
  match a, b with
  | [], [] => true
  | x :: a', y :: b' => char_eqb x y && str_eqb a' b'
  | _, _ => false
  end.

(** [str.isspace] on one code point; it is also what [\s] matches in a
    [str] pattern. *)
Definition isspace (c : char) : bool :=
  ((9 <=? c) && (c <=? 13) || (28 <=? c) && (c <=? 32)
   || (c =? 133) || (c =? 160) || (c =? 5760)
   || (8192 <=? c) && (c <=? 8202)
   || (c =? 8232) || (c =? 8233) || (c =? 8239) || (c =? 8287)
   || (c =? 12288))%N.

Fixpoint lstrip (s : str) : str :=
  match s with
  | c :: r => if isspace c then lstrip r else s
  | [] => []
  end.

Definition rstrip (s : str) : str := rev (lstrip (rev s)).

(** [s.strip()] *)
Definition strip (s : str) : str := rstrip (lstrip s).

(** [s.startswith(p)] *)
Fixpoint startswith (p s : str) : bool :=
  match p, s with
  | [], _ => true
  | x :: p', y :: s' => char_eqb x y && startswith p' s'
  | _ :: _, [] => false
  end.

(** [s.find(c)] for a one-character needle: index of the first occurrence,
    or -1. *)
Fixpoint find (c : char) (s : str) : Z :=
  match s with
  | [] => (-1)%Z
  | x :: r =>
      if char_eqb x c then 0%Z
      else let i := find c r in if (i <? 0)%Z then (-1)%Z else (i + 1)%Z
  end.

(** [s.rfind(c)]: index of the last occurrence, or -1. *)
Fixpoint rfind (c : char) (s : str) : Z :=
  match s with
  | [] => (-1)%Z
  | x :: r =>
      let i := rfind c r in
      if (0 <=? i)%Z then (i + 1)%Z
      else if char_eqb x c then 0%Z else (-1)%Z
  end.

(** [s[lo:hi]] with Python's treatment of negative and out-of-range
    bounds. *)
Definition clamp (len i : Z) : Z :=
  let i := if (i <? 0)%Z then (i + len)%Z else i in
  Z.max 0 (Z.min len i).

Definition slice (s : str) (lo hi : Z) : str :=
  let len := Z.of_nat (length s) in
  let a := Z.to_nat (clamp len lo) in
  let b := Z.to_nat (clamp len hi) in
  skipn a (firstn b s).

(** [s[:n]] *)
Definition prefix (n : nat) (s : str) : str := firstn n s.

(** [s in t] for strings: substring test. *)
Fixpoint contains (p s : str) : bool :=
  startswith p s || match s with [] => false | _ :: r => contains p r end.

(* ===================================================================== *)
(** ** The two regular expressions of [_clean_response] *)
(* ===================================================================== *)

(** [re.sub(pattern, '', s)] for a pattern that never matches the empty
    string.  [m t] is the length of the match of the pattern anchored at
    the start of [t] ([None]: no match there).  The scan goes left to
    right; a match is dropped and the scan resumes right after it. [skip]
    counts the characters of the current match still to drop. *)
Fixpoint re_sub_delete (m : str -> option nat) (skip : nat) (s : str) : str :=
  match s with
  | [] => []
  | c :: r =>
      match skip with
      | S k => re_sub_delete m k r
      | O =>
          match m s with
          | Some (S k) => re_sub_delete m k r
          | _ => c :: re_sub_delete m 0 r
          end
      end
  end.

Definition backticks : str := lit "```".

(** Greedy [\s*]: the number of whitespace characters at the start. *)
Fixpoint ws_run (s : str) : nat :=
  match s with
  | c :: r => if isspace c then S (ws_run r) else 0
  | [] => 0
  end.

(** [r'```(?:json)?\s*'] anchored at the start of [s].  Nothing follows the
    two greedy parts, so no backtracking happens. *)
Definition fence_open (s : str) : option nat :=
  if startswith backticks s then
    let r := skipn 3 s in
    let k := if startswith (lit "json") r then 4 else 0 in
    Some (3 + k + ws_run (skipn k r))
  else None.

(** [$] under [re.MULTILINE]: at the end of the text or just before a
    newline. *)
Definition at_dollar (s : str) : bool :=
  match s with
  | [] => true
  | c :: _ => char_eqb c NL
  end.

(** [\s*$]: the greedy [\s*] takes one more whitespace character when the
    rest of the pattern still matches after it, and otherwise stops where
    [$] holds. *)
Fixpoint ws_then_dollar (s : str) : option nat :=
  match s with
  | [] => Some 0
  | c :: r =>
      let here := if at_dollar s then Some 0 else None in
      if isspace c then
        match ws_then_dollar r with
        | Some n => Some (S n)
        | None => here
        end
      else here
  end.

(** [r'```\s*$'] with [re.MULTILINE], anchored at the start of [s]. *)
Definition fence_close (s : str) : option nat :=
  if startswith backticks s then
    match ws_then_dollar (skipn 3 s) with
    | Some n => Some (3 + n)
    | None => None
    end
  else None.

(* ===================================================================== *)
(** ** JSON values and Python's operations on them *)
(* ===================================================================== *)

(** What [json.loads] returns: [None], [bool], [int], [float], [str],
    [list], [dict].  A [float] is kept as the text of its literal. *)
#[warnings="-register-all"]
Inductive json : Type :=
| JNone
| JBool (b : bool)
| JInt (z : Z)
| JFloat (lexeme : str)
| JStr (s : str)
| JList (l : list json)
| JDict (d : list (str * json)).

(** A [dict] keeps its keys in insertion order, each key once. *)
Definition dict := list (str * json).

Fixpoint dict_get (k : str) (d : dict) : option json :=
  match d with
  | [] => None
  | (k', v) :: d' => if str_eqb k' k then Some v else dict_get k d'
  end.

(** [k in d] *)
Definition dict_has (k : str) (d : dict) : bool :=
  match dict_get k d with Some _ => true | None => false end.

(** [d[k] = v]: a key already present keeps its position. *)
Fixpoint dict_set (k : str) (v : json) (d : dict) : dict :=
  match d with
  | [] => [(k, v)]
  | (k', v') :: d' =>
      if str_eqb k' k then (k', v) :: d' else (k', v') :: dict_set k v d'
  end.

(** [dict(pairs)] *)
Definition dict_of_pairs (pairs : list (str * json)) : dict :=
  fold_left (fun d kv => dict_set (fst kv) (snd kv) d) pairs [].

(** [list(d.keys())] *)
Definition keys (d : dict) : list str := map fst d.

(** [type(x).__name__] *)
Definition type_name (x : json) : str :=
  match x with
  | JNone => lit "NoneType"
  | JBool _ => lit "bool"
  | JInt _ => lit "int"
  | JFloat _ => lit "float"
  | JStr _ => lit "str"
  | JList _ => lit "list"
  | JDict _ => lit "dict"
  end.

(* ===================================================================== *)
(** ** Exceptions, results, effects *)
(* ===================================================================== *)

(** The messages of [json.JSONDecodeError] (the position is left out). *)
Inductive decode_error : Type :=
| UnexpectedBOM
| ExpectingValue
| ExtraData
| ExpectingPropertyName
| ExpectingColon
| ExpectingComma
| UnterminatedString
| InvalidControlCharacter
| InvalidEscape
| InvalidUnicodeEscape
| OutOfFuel.

(** The exceptions that can leave the module.  The first six are the
    [ValueError]s the module raises itself, one constructor per message,
    carrying what the message interpolates. *)
Inductive exn : Type :=
| NoJsonFound (excerpt : str)
| MalformedJson (e : decode_error) (excerpt : str)
| MissingField (field : str) (present : list str)
| WrongType (expected actual : str)
| UnknownSlideType (pos : nat) (ty : json) (expected : list str)
| MissingSlideField (pos : nat) (ty : str) (field : str) (present : list str)
| TypeError
| AttributeError
| KeyError
| OSError
| UnicodeEncodeError.

Inductive result (A : Type) : Type :=
| Ok (a : A)
| Raise (e : exn).
Arguments Raise {A} e.

Definition rbind {A B} (r : result A) (k : A -> result B) : result B :=
  match r with
  | Ok a => k a
  | Raise e => Raise e
  end.

(** What [print] writes, and what the file system is asked to do. *)
Inductive message : Type :=
| SlideCountWarning (slide_count : nat)
| SchemaValidated (slide_count : nat) (types : list json)
| StorySaved (output_path : str).

Inductive event : Type :=
| Print (msg : message)
| Makedirs (path : str)
| OpenFile (path : str)
| DumpJson (path : str) (content : json).

(** A computation with effects: the events performed, oldest first, and
    the outcome. *)
Definition io (A : Type) : Type := list event * result A.

Definition ret {A} (a : A) : io A := ([], Ok a).
Definition raise {A} (e : exn) : io A := ([], Raise e).
Definition emit (ev : event) : io unit := ([ev], Ok tt).
Definition lift {A} (r : result A) : io A := ([], r).

Definition bind {A B} (m : io A) (k : A -> io B) : io B :=
  match m with
  | (evs, Ok a) => let (evs', r) := k a in (evs ++ evs', r)
  | (evs, Raise e) => (evs, Raise e)
  end.

Declare Scope io_scope.
Delimit Scope io_scope with io.
Notation "x <- m ;; k" := (bind m (fun x => k))
  (at level 61, m at next level, right associativity) : io_scope.
Notation "m ;; k" := (bind m (fun _ => k))
  (at level 61, right associativity) : io_scope.

Definition events {A} (m : io A) : list event := fst m.
Definition outcome {A} (m : io A) : result A := snd m.

(* ===================================================================== *)
(** ** [json.loads] *)
(* ===================================================================== *)

(** The decoder follows CPython's scanner ([scan_once], [scanstring],
    [_parse_object], [_parse_array], [_match_number]) with the default
    options ([strict=True], no hooks).  Where CPython moves an index through
    the text, the functions here return the rest of the text.  The
    recursion goes down on a fuel that [loads] sets to the length of the
    text plus one, which is always enough ([loads_fuel] below). *)

Inductive decoded (A : Type) : Type :=
| Decoded (a : A)
| DecodeError (e : decode_error).
Arguments DecodeError {A} e.

Definition is_json_ws (c : char) : bool :=
  ((c =? 32) || (c =? 9) || (c =? 10) || (c =? 13))%N.

Fixpoint skip_ws (s : str) : str :=
  match s with
  | c :: r => if is_json_ws c then skip_ws r else s
  | [] => []
  end.

Definition is_digit (c : char) : bool := ((48 <=? c) && (c <=? 57))%N.

Definition hex_digit (c : char) : option N :=
  if is_digit c then Some (c - 48)%N
  else if ((97 <=? c) && (c <=? 102))%N then Some (c - 87)%N
  else if ((65 <=? c) && (c <=? 70))%N then Some (c - 55)%N
  else None.

Definition hex4 (a b c d : char) : option N :=
  match hex_digit a, hex_digit b, hex_digit c, hex_digit d with
  | Some x, Some y, Some z, Some w => Some (((x * 16 + y) * 16 + z) * 16 + w)%N
  | _, _, _, _ => None
  end.

Definition is_high_surrogate (u : N) : bool := ((55296 <=? u) && (u <=? 56319))%N.
Definition is_low_surrogate (u : N) : bool := ((56320 <=? u) && (u <=? 57343))%N.
Definition join_surrogates (hi lo : N) : N :=
  (65536 + (N.lor (N.shiftl (hi - 55296) 10) (lo - 56320)))%N.

(** The one-character escapes of a JSON string. *)
Definition unescape (c : char) : option char :=
  if char_eqb c QUOTE then Some QUOTE
  else if char_eqb c BACKSLASH then Some BACKSLASH
  else if char_eqb c (chr "/") then Some (chr "/")
  else if char_eqb c (chr "b") then Some 8%N
  else if char_eqb c (chr "f") then Some 12%N
  else if char_eqb c (chr "n") then Some 10%N
  else if char_eqb c (chr "r") then Some 13%N
  else if char_eqb c (chr "t") then Some 9%N
  else None.

Definition push (c : char) (r : decoded (str * str)) : decoded (str * str) :=
  match r with
  | Decoded (x, rest) => Decoded (c :: x, rest)
  | DecodeError e => DecodeError e
  end.

(** [scanstring]: [s] starts right after the opening quote; the result is
    the decoded string and the text after the closing quote. *)
Fixpoint scanstring (s : str) : decoded (str * str) :=
  match s with
  | [] => DecodeError UnterminatedString
  | c :: r =>
      if char_eqb c QUOTE then Decoded ([], r)
      else if char_eqb c BACKSLASH then
        match r with
        | [] => DecodeError UnterminatedString
        | e :: r1 =>
            if char_eqb e (chr "u") then
              match r1 with
              | h1 :: h2 :: h3 :: h4 :: ((_ :: _) as r5) =>
                  match hex4 h1 h2 h3 h4 with
                  | None => DecodeError InvalidUnicodeEscape
                  | Some u =>
                      let single := push u (scanstring r5) in
                      if is_high_surrogate u then
                        match r5 with
                        | b :: x :: g1 :: g2 :: g3 :: g4 :: ((_ :: _) as r11) =>
                            if char_eqb b BACKSLASH && char_eqb x (chr "u") then
                              match hex4 g1 g2 g3 g4 with
                              | None => DecodeError InvalidUnicodeEscape
                              | Some u2 =>
                                  if is_low_surrogate u2
                                  then push (join_surrogates u u2) (scanstring r11)
                                  else single
                              end
                            else single
                        | _ => single
                        end
                      else single
                  end
              | _ => DecodeError InvalidUnicodeEscape
              end
            else
              match unescape e with
              | Some c' => push c' (scanstring r1)
              | None => DecodeError InvalidEscape
              end
        end
      else if (c <? 32)%N then DecodeError InvalidControlCharacter
      else push c (scanstring r)
  end.

(** [_match_number]: the regular expression NUMBER_RE of the scanner,
    anchored at the start of [s]: an integer part (optional minus sign, then
    a single 0 or a nonzero digit followed by digits), an optional fraction
    (a dot and at least one digit), an optional exponent (e or E, an
    optional sign, at least one digit). *)
Fixpoint digits_run (s : str) : nat :=
  match s with
  | c :: r => if is_digit c then S (digits_run r) else 0
  | [] => 0
  end.

(** Length of the digits of the integer part, if it matches. *)
Definition int_digits (s : str) : option nat :=
  match s with
  | c :: r =>
      if char_eqb c (chr "0") then Some 1
      else if is_digit c then Some (S (digits_run r))
      else None
  | [] => None
  end.

(** Length of the integer part. *)
Definition int_part (s : str) : option nat :=
  match s with
  | c :: r =>
      if char_eqb c (chr "-") then option_map S (int_digits r)
      else int_digits s
  | [] => None
  end.

(** Length of the optional fraction. *)
Definition frac_part (s : str) : nat :=
  match s with
  | c :: r =>
      if char_eqb c (chr ".") then
        match digits_run r with
        | 0 => 0
        | S n => S (S n)
        end
      else 0
  | [] => 0
  end.

(** Length of the optional exponent. *)
Definition exp_part (s : str) : nat :=
  match s with
  | c :: r =>
      if char_eqb c (chr "e") || char_eqb c (chr "E") then
        let sign :=
          match r with
          | g :: _ => if char_eqb g (chr "-") || char_eqb g (chr "+") then 1 else 0
          | [] => 0
          end in
        match digits_run (skipn sign r) with
        | 0 => 0
        | S n => S (sign + S n)
        end
      else 0
  | [] => 0
  end.

(** [int(text)] for a text matched by [int_part]. *)
Definition int_of_digits (s : str) : Z :=
  fold_left (fun acc c => (acc * 10 + Z.of_N (c - 48))%Z) s 0%Z.

Definition int_of_text (s : str) : Z :=
  match s with
  | c :: r => if char_eqb c (chr "-") then (- int_of_digits r)%Z else int_of_digits s
  | [] => 0%Z
  end.

Definition match_number (s : str) : decoded (json * str) :=
  match int_part s with
  | None => DecodeError ExpectingValue
  | Some i =>
      let f := frac_part (skipn i s) in
      let e := exp_part (skipn (i + f) s) in
      match f + e with
      | 0 => Decoded (JInt (int_of_text (firstn i s)), skipn i s)
      | _ => Decoded (JFloat (firstn (i + f + e) s), skipn (i + f + e) s)
      end
  end.

Definition dbind {A B} (r : decoded A) (k : A -> decoded B) : decoded B :=
  match r with
  | Decoded a => k a
  | DecodeError e => DecodeError e
  end.

Section Containers.

(** [scan_once] for the terms inside a container. *)
Variable scan : str -> decoded (json * str).

(** The loop of [_parse_array]; [s] stands at the start of a term, [acc]
    holds the terms read so far. *)
Fixpoint array_items (fuel : nat) (acc : list json) (s : str)
  : decoded (json * str) :=
  match fuel with
  | 0 => DecodeError OutOfFuel
  | S fuel' =>
      dbind (scan s) (fun '(v, r) =>
        match skip_ws r with
        | c :: r' =>
            if char_eqb c (chr "]") then Decoded (JList (acc ++ [v]), r')
            else if char_eqb c (chr ",")
                 then array_items fuel' (acc ++ [v]) (skip_ws r')
                 else DecodeError ExpectingComma
        | [] => DecodeError ExpectingComma
        end)
  end.

(** [_parse_array]; [s] starts right after the opening bracket. *)
Definition parse_array (fuel : nat) (s : str) : decoded (json * str) :=
  match skip_ws s with
  | c :: r =>
      if char_eqb c (chr "]") then Decoded (JList [], r)
      else array_items fuel [] (skip_ws s)
  | [] => array_items fuel [] []
  end.

(** The loop of [_parse_object]; [s] stands where a key must start,
    [pairs] holds the members read so far. *)
Fixpoint object_items (fuel : nat) (pairs : list (str * json)) (s : str)
  : decoded (json * str) :=
  match fuel with
  | 0 => DecodeError OutOfFuel
  | S fuel' =>
      match s with
      | q :: s1 =>
          if char_eqb q QUOTE then
            dbind (scanstring s1) (fun '(key, r) =>
              match skip_ws r with
              | c :: r1 =>
                  if char_eqb c (chr ":") then
                    dbind (scan (skip_ws r1)) (fun '(val, r2) =>
                      match skip_ws r2 with
                      | c' :: r3 =>
                          if char_eqb c' RBRACE
                          then Decoded (JDict (dict_of_pairs (pairs ++ [(key, val)])), r3)
                          else if char_eqb c' (chr ",")
                               then object_items fuel' (pairs ++ [(key, val)]) (skip_ws r3)
                               else DecodeError ExpectingComma
                      | [] => DecodeError ExpectingComma
                      end)
                  else DecodeError ExpectingColon
              | [] => DecodeError ExpectingColon
              end)
          else DecodeError ExpectingPropertyName
      | [] => DecodeError ExpectingPropertyName
      end
  end.

(** [_parse_object]; [s] starts right after the opening brace. *)
Definition parse_object (fuel : nat) (s : str) : decoded (json * str) :=
  match skip_ws s with
  | c :: r =>
      if char_eqb c RBRACE then Decoded (JDict [], r)
      else object_items fuel [] (skip_ws s)
  | [] => object_items fuel [] []
  end.

End Containers.

(** [scan_once]: one JSON term at the start of [s]. *)
Fixpoint scan_once (fuel : nat) (s : str) : decoded (json * str) :=
  match fuel with
  | 0 => DecodeError OutOfFuel
  | S fuel' =>
      match s with
      | [] => DecodeError ExpectingValue
      | c :: r =>
          if char_eqb c QUOTE then
            dbind (scanstring r) (fun '(x, r') => Decoded (JStr x, r'))
          else if char_eqb c LBRACE then parse_object (scan_once fuel') fuel' r
          else if char_eqb c (chr "[") then parse_array (scan_once fuel') fuel' r
          else if startswith (lit "null") s then Decoded (JNone, skipn 4 s)
          else if startswith (lit "true") s then Decoded (JBool true, skipn 4 s)
          else if startswith (lit "false") s then Decoded (JBool false, skipn 5 s)
          else if startswith (lit "NaN") s then Decoded (JFloat (lit "NaN"), skipn 3 s)
          else if startswith (lit "Infinity") s
               then Decoded (JFloat (lit "Infinity"), skipn 8 s)
          else if startswith (lit "-Infinity") s
               then Decoded (JFloat (lit "-Infinity"), skipn 9 s)
          else match_number s
      end
  end.

(** [json.loads(s)]: leading whitespace, one term, trailing whitespace, end
    of text. *)
Definition loads (s : str) : decoded json :=
  if startswith [65279%N] s then DecodeError UnexpectedBOM
  else
    dbind (scan_once (S (length s)) (skip_ws s)) (fun '(v, r) =>
      match skip_ws r with
      | [] => Decoded v
      | _ :: _ => DecodeError ExtraData
      end).

(* ===================================================================== *)
(** ** Python's dynamic operations used by the module *)
(* ===================================================================== *)

(** [field in x] *)
Definition py_in (field : str) (x : json) : result bool :=
  match x with
  | JDict d => Ok (dict_has field d)
  | JList l =>
      Ok (existsb (fun v => match v with JStr s => str_eqb s field | _ => false end) l)
  | JStr s => Ok (contains field s)
  | _ => Raise TypeError
  end.

(** [list(x.keys())] *)
Definition py_keys (x : json) : result (list str) :=
  match x with
  | JDict d => Ok (keys d)
  | _ => Raise AttributeError
  end.

(** [x[key]] for a string key *)
Definition py_getitem (x : json) (key : str) : result json :=
  match x with
  | JDict d =>
      match dict_get key d with
      | Some v => Ok v
      | None => Raise KeyError
      end
  | _ => Raise TypeError
  end.

(** [x.get(key)] *)
Definition py_get (x : json) (key : str) : result json :=
  match x with
  | JDict d =>
      match dict_get key d with
      | Some v => Ok v
      | None => Ok JNone
      end
  | _ => Raise AttributeError
  end.

(** [isinstance(x, list)] *)
Definition is_list (x : json) : bool :=
  match x with JList _ => true | _ => false end.

(** [len(x)] for a value already known to be a list *)
Definition py_len (x : json) : result nat :=
  match x with
  | JList l => Ok (length l)
  | JStr s => Ok (length s)
  | JDict d => Ok (length d)
  | _ => Raise TypeError
  end.

(** Iterating over a value already known to be a list *)
Definition py_iter (x : json) : result (list json) :=
  match x with
  | JList l => Ok l
  | _ => Raise TypeError
  end.

(* ===================================================================== *)
(** ** story_parser.py *)
(* ===================================================================== *)

Local Open Scope io_scope.

(** [_clean_response], up to the search for the braces: the text after the
    trim and the two substitutions. *)
Definition fences_removed (raw : str) : str :=
  let cleaned := strip raw in
  let cleaned := re_sub_delete fence_open 0 cleaned in
  re_sub_delete fence_close 0 cleaned.

(** [_clean_response] *)
Definition _clean_response (raw : str) : result str :=
  let cleaned := fences_removed raw in
  let brace_start := find LBRACE cleaned in
  let brace_end := rfind RBRACE cleaned in
  if (brace_start =? -1)%Z || (brace_end =? -1)%Z then
    Raise (NoJsonFound (prefix 200 raw))
  else
    let cleaned := slice cleaned brace_start (brace_end + 1) in
    Ok (strip cleaned).

(** [_parse_json] *)
Definition _parse_json (cleaned : str) : result json :=
  match loads cleaned with
  | Decoded v => Ok v
  | DecodeError e => Raise (MalformedJson e (prefix 300 cleaned))
  end.

Definition required_top_level : list str :=
  [lit "team"; lit "match"; lit "date"; lit "result"; lit "slides"].

Definition required_fields : list (str * list str) :=
  [ (lit "headline", [lit "type"; lit "text"; lit "subtext"]);
    (lit "stat", [lit "type"; lit "stat_label"; lit "stat_value"; lit "narrative"]);
    (lit "cta", [lit "type"; lit "text"; lit "subtext"]) ].

(** [required_fields[slide_type]], [None] when [slide_type not in
    required_fields] *)
Fixpoint lookup_fields (slide_type : str) (table : list (str * list str))
  : option (list str) :=
  match table with
  | [] => None
  | (k, fields) :: table' =>
      if str_eqb k slide_type then Some fields else lookup_fields slide_type table'
  end.

(** The first loop of [_validate_schema]. *)
Fixpoint check_top_level (fields : list str) (story : json) : result unit :=
  match fields with
  | [] => Ok tt
  | field :: fields' =>
      rbind (py_in field story) (fun present =>
        if negb present then
          rbind (py_keys story) (fun ks => Raise (MissingField field ks))
        else check_top_level fields' story)
  end.

(** The inner loop over the fields required of one slide. *)
Fixpoint check_slide_fields (pos : nat) (slide_type : str) (fields : list str)
  (slide : json) : result unit :=
  match fields with
  | [] => Ok tt
  | field :: fields' =>
      rbind (py_in field slide) (fun present =>
        if negb present then
          rbind (py_keys slide) (fun ks =>
            Raise (MissingSlideField pos slide_type field ks))
        else check_slide_fields pos slide_type fields' slide)
  end.

(** [slide_type not in required_fields], then the fields of that type:
    the body of the loop over the slides, for the slide at index [i]. *)
Definition check_slide (i : nat) (slide : json) : result unit :=
  rbind (py_get slide (lit "type")) (fun slide_type =>
    match slide_type with
    | JList _ | JDict _ => Raise TypeError
    | JStr t =>
        match lookup_fields t required_fields with
        | None =>
            Raise (UnknownSlideType (i + 1) slide_type (map fst required_fields))
        | Some fields => check_slide_fields (i + 1) t fields slide
        end
    | _ => Raise (UnknownSlideType (i + 1) slide_type (map fst required_fields))
    end).

(** [for i, slide in enumerate(story["slides"])] from index [i] on. *)
Fixpoint check_slides (i : nat) (slides : list json) : result unit :=
  match slides with
  | [] => Ok tt
  | slide :: slides' =>
      rbind (check_slide i slide) (fun _ => check_slides (S i) slides')
  end.

(** [[s['type'] for s in story['slides']]] *)
Fixpoint slide_types (slides : list json) : result (list json) :=
  match slides with
  | [] => Ok []
  | s :: slides' =>
      rbind (py_getitem s (lit "type")) (fun t =>
        rbind (slide_types slides') (fun ts => Ok (t :: ts)))
  end.

(** [_validate_schema] *)
Definition _validate_schema (story : json) : io unit :=
  lift (check_top_level required_top_level story) ;;
  slides <- lift (py_getitem story (lit "slides")) ;;
  (if negb (is_list slides)
   then raise (WrongType (lit "list") (type_name slides))
   else ret tt) ;;
  slide_count <- lift (py_len slides) ;;
  (if negb (slide_count =? 4)
   then emit (Print (SlideCountWarning slide_count))
   else ret tt) ;;
  items <- lift (py_iter slides) ;;
  lift (check_slides 0 items) ;;
  types <- lift (slide_types items) ;;
  emit (Print (SchemaValidated slide_count types)).

(** What [_write_json] reads from its surroundings: the directory of the
    module file, the clock (already formatted with [%Y%m%d_%H%M%S]), and
    whether the file system lets [os.makedirs], [open] and the writes of
    [json.dump] go through. *)
Record env : Type := {
  module_dir : str;
  timestamp : str;
  makedirs_ok : bool;
  open_ok : bool;
  dump_ok : bool
}.

(** A file opened with [encoding="utf-8"] refuses the code points of the
    surrogate range, which [json.dump] with [ensure_ascii=False] passes on
    as they are. *)
Definition is_surrogate (c : char) : bool := ((55296 <=? c) && (c <=? 57343))%N.

Fixpoint has_surrogate (v : json) : bool :=
  match v with
  | JStr s => existsb is_surrogate s
  | JList l => existsb has_surrogate l
  | JDict d =>
      existsb (fun kv => existsb is_surrogate (fst kv) || has_surrogate (snd kv)) d
  | _ => false
  end.

(** [os.path.join(a, b)] on POSIX *)
Definition path_join (a b : str) : str :=
  if startswith (lit "/") b then b
  else if match a with [] => true | _ => false end then b
  else if char_eqb (last a 0%N) (chr "/") then a ++ b
  else a ++ lit "/" ++ b.

(** [_write_json] *)
Definition _write_json (e : env) (story : json) (team_key : str) : io str :=
  let output_dir := path_join (module_dir e) (lit "output") in
  (if makedirs_ok e then emit (Makedirs output_dir) else raise OSError) ;;
  let filename := team_key ++ lit "_story_" ++ timestamp e ++ lit ".json" in
  let output_path := path_join output_dir filename in
  (if open_ok e then emit (OpenFile output_path) else raise OSError) ;;
  (if has_surrogate story then raise UnicodeEncodeError
   else if dump_ok e then emit (DumpJson output_path story) else raise OSError) ;;
  ret output_path.

(** [parse_and_save] *)
Definition parse_and_save (e : env) (raw_response : str) (team_key : str)
  : io json :=
  cleaned <- lift (_clean_response raw_response) ;;
  story <- lift (_parse_json cleaned) ;;
  _validate_schema story ;;
  output_path <- _write_json e story team_key ;;
  emit (Print (StorySaved output_path)) ;;
  ret story.

(** The validation performed by [parse_and_save]: its steps 1 to 3. *)
Definition validate (raw_response : str) : io json :=
  cleaned <- lift (_clean_response raw_response) ;;
  story <- lift (_parse_json cleaned) ;;
  _validate_schema story ;;
  ret story.

(* ===================================================================== *)
(** ** Vocabulary of the statements *)
(* ===================================================================== *)

(** A text of the examples: the apostrophe stands for the double quote. *)
Definition jlit (s : string) : str :=
  map (fun c => if char_eqb c 39%N then QUOTE else c) (lit s).

Definition is_brace (c : char) : bool := char_eqb c LBRACE || char_eqb c RBRACE.

(** A text without [{] and [}]. *)
Definition brace_free (s : str) : Prop := Forall (fun c => is_brace c = false) s.

(** The first of [fields], in their order, that is not a key of [d]. *)
Definition first_missing (fields : list str) (d : dict) : option str :=
  List.find (fun f => negb (dict_has f d)) fields.

Definition has_all (fields : list str) (d : dict) : bool :=
  forallb (fun f => dict_has f d) fields.

(** The table of the data model: the fields each slide type requires. *)
Definition fields_of_type (t : str) : option (list str) :=
  if str_eqb t (lit "headline") then Some [lit "text"; lit "subtext"]
  else if str_eqb t (lit "stat")
       then Some [lit "stat_label"; lit "stat_value"; lit "narrative"]
  else if str_eqb t (lit "cta") then Some [lit "text"; lit "subtext"]
  else None.

(** A slide of a known type that carries every field of its type. *)
Definition valid_slide (slide : json) : bool :=
  match slide with
  | JDict sd =>
      match dict_get (lit "type") sd with
      | Some (JStr t) =>
          match fields_of_type t with
          | Some fields => has_all fields sd
          | None => false
          end
      | _ => false
      end
  | _ => false
  end.

Definition is_print (ev : event) : bool :=
  match ev with Print _ => true | _ => false end.

(** Two exceptions of the same kind. *)
Definition same_kind (a b : exn) : bool :=
  match a, b with
  | NoJsonFound _, NoJsonFound _
  | MalformedJson _ _, MalformedJson _ _
  | MissingField _ _, MissingField _ _
  | WrongType _ _, WrongType _ _
  | UnknownSlideType _ _ _, UnknownSlideType _ _ _
  | MissingSlideField _ _ _ _, MissingSlideField _ _ _ _
  | TypeError, TypeError
  | AttributeError, AttributeError
  | KeyError, KeyError
  | OSError, OSError
  | UnicodeEncodeError, UnicodeEncodeError => true
  | _, _ => false
  end.

(** What [parse_and_save] does after the validation. *)
Definition persist (e : env) (team_key : str) (story : json) : io json :=
  output_path <- _write_json e story team_key ;;
  emit (Print (StorySaved output_path)) ;;
  ret story.

(** The directory and the file [_write_json] asks for. *)
Definition output_dir (e : env) : str := path_join (module_dir e) (lit "output").

Definition output_file (e : env) (team_key : str) : str :=
  path_join (output_dir e)
    (team_key ++ lit "_story_" ++ timestamp e ++ lit ".json").

(** What the data model says of the four top-level text fields: non-empty
    strings, [result] one of WIN, LOSS, DRAW. *)
Definition nonempty_string (v : option json) : bool :=
  match v with
  | Some (JStr (_ :: _)) => true
  | _ => false
  end.

Definition is_result (v : option json) : bool :=
  match v with
  | Some (JStr r) =>
      str_eqb r (lit "WIN") || str_eqb r (lit "LOSS") || str_eqb r (lit "DRAW")
  | _ => false
  end.

Definition top_level_well_typed (d : dict) : bool :=
  nonempty_string (dict_get (lit "team") d)
  && nonempty_string (dict_get (lit "match") d)
  && nonempty_string (dict_get (lit "date") d)
  && is_result (dict_get (lit "result") d).

(** A text that runs from an opening brace to a closing brace. *)
Definition object_text (j : str) : bool :=
  match j with
  | c :: r => char_eqb c LBRACE && char_eqb (last r 0%N) RBRACE
  | [] => false
  end.

(** A decoded value with the shape of a Story: an object with the five
    top-level keys whose [slides] is a list of valid slides. *)
Definition story_shaped (story : json) : bool :=
  match story with
  | JDict d =>
      has_all required_top_level d &&
      match dict_get (lit "slides") d with
      | Some (JList l) => forallb valid_slide l
      | _ => false
      end
  | _ => false
  end.

(** What the two patterns of the cleaning have in common: a match starts
    with three backticks, lies inside the text, and holds no brace. *)
Definition fence_matcher (m : str -> option nat) : Prop :=
  forall s n, m s = Some n ->
    startswith backticks s = true /\ n <= length s /\ brace_free (firstn n s).

(** A character that can continue a number literal. *)
Definition num_char (c : char) : bool :=
  is_digit c || char_eqb c (chr ".") || char_eqb c (chr "e") || char_eqb c (chr "E")
  || char_eqb c (chr "+") || char_eqb c (chr "-").

(** A text before which a number literal ends. *)
Definition stops (t : str) : Prop :=
  match t with
  | [] => True
  | c :: _ => num_char c = false
  end.

(** What follows the escape of a high surrogate: the escape of a low
    surrogate with one character more after it, a malformed escape, or
    anything else. *)
Inductive lookahead : Type :=
| NoPair
| BadEscape
| Pair (u2 : N).

Definition low_lookahead (r5 : str) : lookahead :=
  match r5 with
  | b :: x :: g1 :: g2 :: g3 :: g4 :: _ :: _ =>
      if char_eqb b BACKSLASH && char_eqb x (chr "u") then
        match hex4 g1 g2 g3 g4 with
        | None => BadEscape
        | Some u2 => if is_low_surrogate u2 then Pair u2 else NoPair
        end
      else NoPair
  | _ => NoPair
  end.

(** A text that does not start with JSON whitespace. *)
Definition no_ws_head (z : str) : Prop :=
  match z with
  | [] => True
  | c :: _ => is_json_ws c = false
  end.

(** A scanner that reads nothing beyond the term it returns, but for the
    one character that ends a number literal: the term is read from a
    prefix [c] of the text, and is read again from [c] followed by any text
    before which a number literal ends. *)
Definition local_scan (scan : str -> decoded (json * str)) : Prop :=
  forall s v r, scan s = Decoded (v, r) ->
    exists c, s = c ++ r /\ c <> [] /\
      forall t, stops t -> scan (c ++ t) = Decoded (v, t).

(** A number literal starts with a digit, or with a minus sign and a
    digit. *)
Definition number_headed (c : str) : Prop :=
  exists c0 z, c = c0 :: z /\
    (is_digit c0 = true \/
     (c0 = chr "-" /\ exists d z', z = d :: z' /\ is_digit d = true)).

(** [scan'] agrees with [scan] wherever [scan] does not run out of fuel. *)
Definition mono_scan (scan scan' : str -> decoded (json * str)) : Prop :=
  forall s res, scan s = res -> res <> DecodeError OutOfFuel -> scan' s = res.

(** A scanner that, on a text shorter than [bound], does not run out of
    fuel and leaves a rest shorter than the text. *)
Definition good_scan (scan : str -> decoded (json * str)) (bound : nat) : Prop :=
  forall s, length s < bound ->
    scan s <> DecodeError OutOfFuel /\
    forall v r, scan s = Decoded (v, r) -> length r < length s.

(* ===================================================================== *)
(** ** html_renderer.py *)
(* ===================================================================== *)

(** [sep.join(parts)] *)
Fixpoint join (sep : str) (parts : list str) : str :=
  match parts with
  | [] => []
  | [p] => p
  | p :: parts' => p ++ sep ++ join sep parts'
  end.

(** [x.get(key, default)] for a key that is any value: a list or a dict
    cannot be looked up, and only a string can be among the string keys
    of the dict. *)
Definition py_get_default (x key default : json) : result json :=
  match x with
  | JDict d =>
      match key with
      | JList _ | JDict _ => Raise TypeError
      | JStr k =>
          match dict_get k d with
          | Some v => Ok v
          | None => Ok default
          end
      | _ => Ok default
      end
  | _ => Raise AttributeError
  end.

(** [x[key] = v] for a string key *)
Definition py_setitem (x : json) (key : str) (v : json) : result json :=
  match x with
  | JDict d => Ok (JDict (dict_set key v d))
  | _ => Raise TypeError
  end.

(** [v == s] for a string literal [s] *)
Definition py_eq_str (v : json) (s : str) : bool :=
  match v with
  | JStr t => str_eqb t s
  | _ => false
  end.

(** Iterating over any value: the items of a list, the keys of a dict,
    the characters of a string; nothing else can be iterated. *)
Definition py_iterate (x : json) : result (list json) :=
  match x with
  | JList l => Ok l
  | JDict d => Ok (map JStr (keys d))
  | JStr s => Ok (map (fun c => JStr [c]) s)
  | _ => Raise TypeError
  end.

Section Renderer.

(** [str(v)] for a value that is not a string ([None], a number, a
    boolean, a list, a dict).  Its text is left open. *)
Variable str_other : json -> str.

(** What an f-string writes for [{v}]: a string as it is, without any
    escaping. *)
Definition py_str (v : json) : str :=
  match v with
  | JStr s => s
  | _ => str_other v
  end.

(** An f-string: literal text and expressions in braces.  The
    expressions are evaluated from left to right; the first one that
    raises ends the evaluation. *)
Inductive piece : Type :=
| Text (s : str)
| Hole (v : result json).

Fixpoint fstring (pieces : list piece) : result str :=
  match pieces with
  | [] => Ok []
  | Text s :: pieces' => rbind (fstring pieces') (fun r => Ok (s ++ r))
  | Hole v :: pieces' =>
      rbind v (fun x => rbind (fstring pieces') (fun r => Ok (py_str x ++ r)))
  end.

Definition palettes : json :=
  JDict
    [ (lit "lakers",
       JDict [ (lit "bg", JStr (lit "#1a0533"));
               (lit "accent", JStr (lit "#FDB927"));
               (lit "accent2", JStr (lit "#552583"));
               (lit "text", JStr (lit "#FFFFFF"));
               (lit "subtext", JStr (lit "#E0D0F0"));
               (lit "card_bg", JStr (lit "#2d0f52")) ]);
      (lit "manutd",
       JDict [ (lit "bg", JStr (lit "#1a0505"));
               (lit "accent", JStr (lit "#DA291C"));
               (lit "accent2", JStr (lit "#FBE122"));
               (lit "text", JStr (lit "#FFFFFF"));
               (lit "subtext", JStr (lit "#F0D0D0"));
               (lit "card_bg", JStr (lit "#2d0a0a")) ]) ].

Definition fallback_palette : json :=
  JDict [ (lit "bg", JStr (lit "#0f0f0f"));
          (lit "accent", JStr (lit "#00ff88"));
          (lit "accent2", JStr (lit "#005533"));
          (lit "text", JStr (lit "#FFFFFF"));
          (lit "subtext", JStr (lit "#CCCCCC"));
          (lit "card_bg", JStr (lit "#1a1a1a")) ].

Definition result_colours : json :=
  JDict [ (lit "WIN", JStr (lit "#00C851"));
          (lit "LOSS", JStr (lit "#ff4444"));
          (lit "DRAW", JStr (lit "#ffbb33")) ].

(** [_get_theme] *)
Definition _get_theme (team_key : str) (res : json) : result json :=
  rbind (py_get_default palettes (JStr team_key) fallback_palette) (fun base =>
  rbind (py_get_default result_colours res (JStr (lit "#888888"))) (fun colour =>
  py_setitem base (lit "result_tag") colour)).

(** [_render_headline] *)
Definition _render_headline (slide theme res : json) : result str :=
  fstring
    [ Text (join [NL]
          [ [];
            jlit "    <div class='slide headline-slide' style='";
            lit "        background: linear-gradient(160deg, " ]);
      Hole (py_getitem theme (lit "card_bg"));
      Text (lit " 0%, ");
      Hole (py_getitem theme (lit "accent2"));
      Text (join [NL]
          [ lit " 100%);";
            lit "        border-top: 4px solid " ]);
      Hole (py_getitem theme (lit "accent"));
      Text (join [NL]
          [ lit ";";
            jlit "    '>";
            jlit "        <div class='result-badge' style='background: " ]);
      Hole (py_getitem theme (lit "result_tag"));
      Text (join [NL]
          [ jlit "'>";
            lit "            " ]);
      Hole (Ok res);
      Text (join [NL]
          [ [];
            lit "        </div>";
            jlit "        <h1 class='headline-text' style='color: " ]);
      Hole (py_getitem theme (lit "accent"));
      Text (join [NL]
          [ jlit "'>";
            lit "            " ]);
      Hole (py_getitem slide (lit "text"));
      Text (join [NL]
          [ [];
            lit "        </h1>";
            jlit "        <p class='subtext' style='color: " ]);
      Hole (py_getitem theme (lit "subtext"));
      Text (join [NL]
          [ jlit "'>";
            lit "            " ]);
      Hole (py_getitem slide (lit "subtext"));
      Text (join [NL]
          [ [];
            lit "        </p>";
            jlit "        <div class='slide-type-label'>STORY</div>";
            lit "    </div>" ]) ].

(** [_render_stat] *)
Definition _render_stat (slide theme : json) : result str :=
  fstring
    [ Text (join [NL]
          [ [];
            jlit "    <div class='slide stat-slide' style='";
            lit "        background: " ]);
      Hole (py_getitem theme (lit "card_bg"));
      Text (join [NL]
          [ lit ";";
            lit "        border-left: 4px solid " ]);
      Hole (py_getitem theme (lit "accent"));
      Text (join [NL]
          [ lit ";";
            jlit "    '>";
            jlit "        <p class='stat-label' style='color: " ]);
      Hole (py_getitem theme (lit "accent"));
      Text (join [NL]
          [ jlit "'>";
            lit "            " ]);
      Hole (py_getitem slide (lit "stat_label"));
      Text (join [NL]
          [ [];
            lit "        </p>";
            jlit "        <h2 class='stat-value' style='color: " ]);
      Hole (py_getitem theme (lit "text"));
      Text (join [NL]
          [ jlit "'>";
            lit "            " ]);
      Hole (py_getitem slide (lit "stat_value"));
      Text (join [NL]
          [ [];
            lit "        </h2>";
            jlit "        <p class='narrative' style='color: " ]);
      Hole (py_getitem theme (lit "subtext"));
      Text (join [NL]
          [ jlit "'>";
            lit "            " ]);
      Hole (py_getitem slide (lit "narrative"));
      Text (join [NL]
          [ [];
            lit "        </p>";
            lit "    </div>" ]) ].

(** [_render_cta] *)
Definition _render_cta (slide theme : json) : result str :=
  fstring
    [ Text (join [NL]
          [ [];
            jlit "    <div class='slide cta-slide' style='";
            lit "        background: linear-gradient(160deg, " ]);
      Hole (py_getitem theme (lit "accent2"));
      Text (lit " 0%, ");
      Hole (py_getitem theme (lit "card_bg"));
      Text (join [NL]
          [ lit " 100%);";
            lit "        border-top: 4px solid " ]);
      Hole (py_getitem theme (lit "accent"));
      Text (join [NL]
          [ lit ";";
            jlit "    '>";
            jlit "        <h2 class='cta-text' style='color: " ]);
      Hole (py_getitem theme (lit "text"));
      Text (join [NL]
          [ jlit "'>";
            lit "            " ]);
      Hole (py_getitem slide (lit "text"));
      Text (join [NL]
          [ [];
            lit "        </h2>";
            jlit "        <p class='cta-subtext' style='color: " ]);
      Hole (py_getitem theme (lit "subtext"));
      Text (join [NL]
          [ jlit "'>";
            lit "            " ]);
      Hole (py_getitem slide (lit "subtext"));
      Text (join [NL]
          [ [];
            lit "        </p>";
            jlit "        <div class='cta-button' style='";
            lit "            background: " ]);
      Hole (py_getitem theme (lit "accent"));
      Text (join [NL]
          [ lit ";";
            lit "            color: " ]);
      Hole (py_getitem theme (lit "bg"));
      Text (join [NL]
          [ lit ";";
            jlit "        '>";
            lit "            Follow Now";
            lit "        </div>";
            lit "    </div>" ]) ].

(** [_render_slide] *)
Definition _render_slide (slide theme res : json) : result str :=
  rbind (py_get slide (lit "type")) (fun slide_type =>
    if py_eq_str slide_type (lit "headline") then _render_headline slide theme res
    else if py_eq_str slide_type (lit "stat") then _render_stat slide theme
    else if py_eq_str slide_type (lit "cta") then _render_cta slide theme
    else
      fstring
        [ Text (jlit "<div class='slide'><p>Unknown slide type: ");
          Hole (Ok slide_type);
          Text (lit "</p></div>") ]).

(** [_build_document]; [today] is the clock formatted with [%d %b %Y]. *)
Definition _build_document (today : str) (story : json) (slides_html : str)
  (theme : json) : result str :=
  fstring
    [ Text (join [NL]
          [ lit "<!DOCTYPE html>";
            jlit "<html lang='en'>";
            lit "<head>";
            jlit "    <meta charset='UTF-8'>";
            jlit "    <meta name='viewport' content='width=device-width, initial-scale=1.0'>";
            lit "    <title>" ]);
      Hole (py_getitem story (lit "team"));
      Text (join [NL]
          [ lit " " ++ [8212%N] ++ lit " Match Story</title>";
            lit "    <style>";
            lit "        /* Page reset and base */";
            lit "        * { margin: 0; padding: 0; box-sizing: border-box; }";
            [];
            lit "        body {";
            lit "            background: " ]);
      Hole (py_getitem theme (lit "bg"));
      Text (join [NL]
          [ lit ";";
            lit "            font-family: -apple-system, BlinkMacSystemFont, 'Segoe UI',";
            lit "                         'Helvetica Neue', Arial, sans-serif;";
            lit "            min-height: 100vh;";
            lit "            display: flex;";
            lit "            flex-direction: column;";
            lit "            align-items: center;";
            lit "            padding: 40px 20px;";
            lit "        }";
            [];
            lit "        /* Header bar above the cards */";
            lit "        .story-header {";
            lit "            width: 100%;";
            lit "            max-width: 390px;";
            lit "            margin-bottom: 24px;";
            lit "            text-align: center;";
            lit "        }";
            [];
            lit "        .story-header .team-name {";
            lit "            color: " ]);
      Hole (py_getitem theme (lit "accent"));
      Text (join [NL]
          [ lit ";";
            lit "            font-size: 13px;";
            lit "            font-weight: 700;";
            lit "            letter-spacing: 3px;";
            lit "            text-transform: uppercase;";
            lit "        }";
            [];
            lit "        .story-header .match-info {";
            lit "            color: " ]);
      Hole (py_getitem theme (lit "subtext"));
      Text (join [NL]
          [ lit ";";
            lit "            font-size: 12px;";
            lit "            margin-top: 4px;";
            lit "        }";
            [];
            lit "        /* Each slide card " ++ [8212%N] ++ lit " Story aspect ratio is roughly 9:16.";
            lit "           390px wide " ++ [215%N] ++ lit " 693px tall mirrors a real phone Stories screen. */";
            lit "        .slide {";
            lit "            width: 390px;";
            lit "            min-height: 240px;";
            lit "            border-radius: 16px;";
            lit "            padding: 36px 32px;";
            lit "            margin-bottom: 16px;";
            lit "            position: relative;";
            lit "            display: flex;";
            lit "            flex-direction: column;";
            lit "            justify-content: center;";
            lit "            overflow: hidden;";
            lit "        }";
            [];
            lit "        /* Headline slide */";
            lit "        .headline-text {";
            lit "            font-size: 42px;";
            lit "            font-weight: 900;";
            lit "            line-height: 1.05;";
            lit "            letter-spacing: -1px;";
            lit "            margin-bottom: 16px;";
            lit "            text-transform: uppercase;";
            lit "        }";
            [];
            lit "        .subtext {";
            lit "            font-size: 16px;";
            lit "            line-height: 1.5;";
            lit "            font-weight: 400;";
            lit "        }";
            [];
            lit "        .result-badge {";
            lit "            display: inline-block;";
            lit "            padding: 4px 12px;";
            lit "            border-radius: 20px;";
            lit "            font-size: 11px;";
            lit "            font-weight: 800;";
            lit "            letter-spacing: 2px;";
            lit "            text-transform: uppercase;";
            lit "            color: #000;";
            lit "            margin-bottom: 20px;";
            lit "            align-self: flex-start;";
            lit "        }";
            [];
            lit "        .slide-type-label {";
            lit "            position: absolute;";
            lit "            top: 16px;";
            lit "            right: 20px;";
            lit "            font-size: 10px;";
            lit "            font-weight: 700;";
            lit "            letter-spacing: 3px;";
            lit "            color: rgba(255,255,255,0.25);";
            lit "        }";
            [];
            lit "        /* Stat slide */";
            lit "        .stat-label {";
            lit "            font-size: 11px;";
            lit "            font-weight: 800;";
            lit "            letter-spacing: 3px;";
            lit "            text-transform: uppercase;";
            lit "            margin-bottom: 12px;";
            lit "        }";
            [];
            lit "        .stat-value {";
            lit "            font-size: 56px;";
            lit "            font-weight: 900;";
            lit "            letter-spacing: -2px;";
            lit "            line-height: 1;";
            lit "            margin-bottom: 20px;";
            lit "        }";
            [];
            lit "        .narrative {";
            lit "            font-size: 15px;";
            lit "            line-height: 1.6;";
            lit "            font-weight: 400;";
            lit "        }";
            [];
            lit "        /* CTA slide */";
            lit "        .cta-text {";
            lit "            font-size: 28px;";
            lit "            font-weight: 900;";
            lit "            line-height: 1.2;";
            lit "            margin-bottom: 12px;";
            lit "            color: " ]);
      Hole (py_getitem theme (lit "text"));
      Text (join [NL]
          [ lit ";";
            lit "        }";
            [];
            lit "        .cta-subtext {";
            lit "            font-size: 15px;";
            lit "            line-height: 1.5;";
            lit "            margin-bottom: 28px;";
            lit "        }";
            [];
            lit "        .cta-button {";
            lit "            display: inline-block;";
            lit "            padding: 12px 28px;";
            lit "            border-radius: 30px;";
            lit "            font-size: 13px;";
            lit "            font-weight: 800;";
            lit "            letter-spacing: 1px;";
            lit "            text-transform: uppercase;";
            lit "            align-self: flex-start;";
            lit "            cursor: pointer;";
            lit "        }";
            [];
            lit "        /* Footer */";
            lit "        .story-footer {";
            lit "            width: 100%;";
            lit "            max-width: 390px;";
            lit "            text-align: center;";
            lit "            margin-top: 16px;";
            lit "            color: rgba(255,255,255,0.2);";
            lit "            font-size: 11px;";
            lit "            letter-spacing: 1px;";
            lit "        }";
            lit "    </style>";
            lit "</head>";
            lit "<body>";
            [];
            jlit "    <div class='story-header'>";
            jlit "        <div class='team-name'>" ]);
      Hole (py_getitem story (lit "team"));
      Text (join [NL]
          [ lit "</div>";
            jlit "        <div class='match-info'>" ]);
      Hole (py_getitem story (lit "match"));
      Text (lit " &nbsp;" ++ [183%N] ++ lit "&nbsp; ");
      Hole (py_getitem story (lit "date"));
      Text (join [NL]
          [ lit "</div>";
            lit "    </div>";
            [];
            lit "    " ]);
      Hole (Ok (JStr slides_html));
      Text (join [NL]
          [ [];
            [];
            jlit "    <div class='story-footer'>";
            lit "        Generated by Sports Stories Generator &nbsp;" ++ [183%N] ++ lit "&nbsp;";
            lit "        " ]);
      Hole (Ok (JStr today));
      Text (join [NL]
          [ [];
            lit "    </div>";
            [];
            lit "</body>";
            lit "</html>" ]) ].

(** The generator handed to [join] in [render_html]: for each slide,
    [_render_slide(slide, theme, story["result"])]. *)
Fixpoint render_slides (story theme : json) (slides : list json)
  : result (list str) :=
  match slides with
  | [] => Ok []
  | slide :: slides' =>
      rbind (py_getitem story (lit "result")) (fun res =>
      rbind (_render_slide slide theme res) (fun html =>
      rbind (render_slides story theme slides') (fun htmls => Ok (html :: htmls))))
  end.

(** [render_html] up to the file write: its steps 1 to 3, which build the
    text of the page. *)
Definition render_page (today : str) (story : json) (team_key : str)
  : result str :=
  rbind (py_getitem story (lit "result")) (fun res =>
  rbind (_get_theme team_key res) (fun theme =>
  rbind (py_getitem story (lit "slides")) (fun slides =>
  rbind (py_iterate slides) (fun items =>
  rbind (render_slides story theme items) (fun htmls =>
  let slides_html := join [NL] htmls in
  _build_document today story slides_html theme))))).

End Renderer.

(** What [_write_html] and [_build_document] read from their
    surroundings: the directory of the module file, the clock (formatted
    with [%d %b %Y] for the footer and with [%Y%m%d_%H%M%S] for the file
    name), and whether the file system lets [os.makedirs], [open] and the
    write go through. *)
Record page_env : Type := {
  page_dir : str;
  page_today : str;
  page_timestamp : str;
  page_makedirs_ok : bool;
  page_open_ok : bool;
  page_write_ok : bool
}.

(** What the renderer asks of the file system, and its one [print]. *)
Inductive page_event : Type :=
| PageMakedirs (path : str)
| PageOpen (path : str)
| PageWrite (path : str) (html : str)
| PageSaved (output_path : str).

Definition page_io (A : Type) : Type := list page_event * result A.

(** [_write_html].  Nothing catches what the file operations raise; a
    page with a surrogate code point is refused by the file, as in
    [_write_json]. *)
Definition _write_html (e : page_env) (html team_key : str) : page_io str :=
  let output_dir := path_join (page_dir e) (lit "output") in
  if negb (page_makedirs_ok e) then ([], Raise OSError)
  else
    let filename := team_key ++ lit "_story_" ++ page_timestamp e ++ lit ".html" in
    let output_path := path_join output_dir filename in
    if negb (page_open_ok e) then ([PageMakedirs output_dir], Raise OSError)
    else if existsb is_surrogate html then
      ([PageMakedirs output_dir; PageOpen output_path], Raise UnicodeEncodeError)
    else if negb (page_write_ok e) then
      ([PageMakedirs output_dir; PageOpen output_path], Raise OSError)
    else
      ([PageMakedirs output_dir; PageOpen output_path; PageWrite output_path html],
       Ok output_path).

(** [render_html] *)
Definition render_html (str_other : json -> str) (e : page_env) (story : json)
  (team_key : str) : page_io str :=
  match render_page str_other (page_today e) story team_key with
  | Raise x => ([], Raise x)
  | Ok html =>
      match _write_html e html team_key with
      | (evs, Ok output_path) => (evs ++ [PageSaved output_path], Ok output_path)
      | (evs, Raise x) => (evs, Raise x)
      end
  end.

(* ===================================================================== *)
(** ** main.py *)
(* ===================================================================== *)

(** An entry of [TEAMS]. *)
Record team : Type := {
  key : str;
  display : str;
  sport : str
}.

Definition TEAMS : list (str * team) :=
  [ (lit "1", {| key := lit "manutd";
                 display := lit "Manchester United";
                 sport := 9917%N :: lit " Football (Premier League)" |});
    (lit "2", {| key := lit "lakers";
                 display := lit "LA Lakers";
                 sport := 127936%N :: lit " Basketball (NBA)" |});
    (lit "3", {| key := lit "both";
                 display := lit "Both teams";
                 sport := lit "Run full pipeline for both" |}) ].

(** The exceptions met by [main]: those of story_parser and
    html_renderer, those raised in stages 1 to 3 of the pipeline, of
    which only the class matters to [main], and three of the runtime. *)
Inductive upstream_class : Type :=
| ConnectionFailure
| ValueFailure
| OtherFailure
| NotAnException.

Inductive failure : Type :=
| Raised (x : exn)
| Upstream (c : upstream_class)
| StopIteration
| EOFError
| SystemExit (code : nat).

Inductive answer (A : Type) : Type :=
| Returned (a : A)
| Failed (f : failure).
Arguments Failed {A} f.

(** [isinstance(e, ConnectionError)]: the [OSError] of a file operation
    is taken not to be one. *)
Definition is_ConnectionError (f : failure) : bool :=
  match f with
  | Upstream ConnectionFailure => true
  | _ => false
  end.

(** [isinstance(e, ValueError)]: [UnicodeEncodeError] is a subclass. *)
Definition is_ValueError (f : failure) : bool :=
  match f with
  | Upstream ValueFailure => true
  | Raised (NoJsonFound _) | Raised (MalformedJson _ _) | Raised (MissingField _ _)
  | Raised (WrongType _ _) | Raised (UnknownSlideType _ _ _)
  | Raised (MissingSlideField _ _ _ _) | Raised UnicodeEncodeError => true
  | _ => false
  end.

(** [isinstance(e, Exception)] *)
Definition is_Exception (f : failure) : bool :=
  match f with
  | SystemExit _ | Upstream NotAnException => false
  | _ => true
  end.

(** The dictionary [run_pipeline] returns. *)
Record summary : Type := {
  summary_team : str;
  summary_match : json;
  summary_result : json;
  summary_html_path : str
}.

(** What [main.py] prints.  A run of consecutive [print]s of one layout
    is one notice; it carries what the prints interpolate. *)
Inductive notice : Type :=
| Banner
| MenuHeader
| MenuEntry (number : str) (t : team)
| InvalidChoice (choice : str) (valid_choices : list str)
| PipelineHeader (team_display : str)
| FetchFailed (f : failure)
| DataError (f : failure)
| UnexpectedError (team_key : str) (f : failure)
| NoStories
| SummaryHeader
| SummaryEntry (r : summary)
| SummaryFooter
| Opened (html_path : str).

Inductive question : Type :=
| ChoiceQuestion (valid_choices : list str)
| PreviewQuestion.

(** What a run of [main] does, in order. *)
Inductive action : Type :=
| Say (n : notice)
| Ask (q : question)
| Fetching (line : str)
| Parser (ev : event)
| Renderer (ev : page_event)
| Browser (url : str).

(** What a run of the pipeline for one team reads from its surroundings:
    what stages 1 to 3 ([fetch_last_match], [build_prompt],
    [generate_story], which reach the network) print and return or raise,
    what story_parser and html_renderer read, and [os.path.abspath].
    [main] runs the pipeline at most once for a team key. *)
Record world : Type := {
  stages_1_to_3 : str -> list str * answer str;
  parser_env : str -> env;
  renderer_env : str -> page_env;
  str_of : json -> str;
  abspath : str -> str
}.

(** [next(t["display"] for t in TEAMS.values() if t["key"] == team_key)] *)
Fixpoint display_of (team_key : str) (teams : list (str * team)) : answer str :=
  match teams with
  | [] => Failed StopIteration
  | (_, t) :: teams' =>
      if str_eqb (key t) team_key then Returned (display t)
      else display_of team_key teams'
  end.

Definition of_result {A} (r : result A) : answer A :=
  match r with
  | Ok a => Returned a
  | Raise x => Failed (Raised x)
  end.

(** [run_pipeline] *)
Definition run_pipeline (w : world) (team_key : str) : list action * answer summary :=
  match display_of team_key TEAMS with
  | Failed f => ([], Failed f)
  | Returned team_display =>
      let header := [Say (PipelineHeader team_display)] in
      let (lines, raw) := stages_1_to_3 w team_key in
      let fetched := header ++ map Fetching lines in
      match raw with
      | Failed f => (fetched, Failed f)
      | Returned raw_response =>
          let (evs, story) := parse_and_save (parser_env w team_key) raw_response team_key in
          let parsed := fetched ++ map Parser evs in
          match story with
          | Raise x => (parsed, Failed (Raised x))
          | Ok story =>
              let (pevs, html_path) :=
                render_html (str_of w) (renderer_env w team_key) story team_key in
              let rendered := parsed ++ map Renderer pevs in
              match html_path with
              | Raise x => (rendered, Failed (Raised x))
              | Ok html_path =>
                  (rendered,
                   of_result
                     (rbind (py_getitem story (lit "match")) (fun m =>
                      rbind (py_getitem story (lit "result")) (fun r =>
                      Ok {| summary_team := team_display;
                            summary_match := m;
                            summary_result := r;
                            summary_html_path := html_path |}))))
              end
          end
      end
  end.

(** [list(TEAMS.keys())] *)
Definition valid_choices : list str := map fst TEAMS.

(** [choice in valid_choices] *)
Definition is_valid_choice (choice : str) : bool :=
  existsb (str_eqb choice) valid_choices.

(** [get_user_choice], reading the lines of the standard input: each
    [input] takes the next line and raises [EOFError] when there is
    none.  The lines read are dropped from the input. *)
Fixpoint get_user_choice (input : list str)
  : list action * answer str * list str :=
  match input with
  | [] => ([Ask (ChoiceQuestion valid_choices)], Failed EOFError, [])
  | line :: input' =>
      let choice := strip line in
      if is_valid_choice choice
      then ([Ask (ChoiceQuestion valid_choices)], Returned choice, input')
      else
        let '(acts, r, rest) := get_user_choice input' in
        (Ask (ChoiceQuestion valid_choices)
           :: Say (InvalidChoice choice valid_choices) :: acts, r, rest)
  end.

(** [TEAMS[choice]] *)
Fixpoint team_of (choice : str) (teams : list (str * team)) : result team :=
  match teams with
  | [] => Raise KeyError
  | (number, t) :: teams' =>
      if str_eqb number choice then Ok t else team_of choice teams'
  end.

(** The body of the loop of [main] over the team keys: one try statement
    with its three handlers. *)
Definition attempt (w : world) (team_key : str) (results : list summary)
  : list action * answer (list summary) :=
  match run_pipeline w team_key with
  | (acts, Returned r) => (acts, Returned (results ++ [r]))
  | (acts, Failed f) =>
      if is_ConnectionError f then (acts ++ [Say (FetchFailed f)], Returned results)
      else if is_ValueError f then (acts ++ [Say (DataError f)], Returned results)
      else if is_Exception f then
        (acts ++ [Say (UnexpectedError team_key f)], Returned results)
      else (acts, Failed f)
  end.

(** [for team_key in team_keys] *)
Fixpoint run_teams (w : world) (team_keys : list str) (results : list summary)
  : list action * answer (list summary) :=
  match team_keys with
  | [] => ([], Returned results)
  | team_key :: team_keys' =>
      match attempt w team_key results with
      | (acts, Returned results') =>
          let (acts', r) := run_teams w team_keys' results' in (acts ++ acts', r)
      | (acts, Failed f) => (acts, Failed f)
      end
  end.

(** [print_menu] *)
Definition print_menu : list action :=
  Say MenuHeader :: map (fun nt => Say (MenuEntry (fst nt) (snd nt))) TEAMS.

(** [print_summary] *)
Definition print_summary (results : list summary) : list action :=
  Say SummaryHeader :: map (fun r => Say (SummaryEntry r)) results ++ [Say SummaryFooter].

(** [open_preview == "y"] after [.strip().lower()]: the only strings
    that [lower] turns into [y] are [y] and [Y]. *)
Definition says_yes (line : str) : bool :=
  let s := strip line in str_eqb s (lit "y") || str_eqb s (lit "Y").

(** The end of [main]: each page is opened in the browser. *)
Definition open_previews (w : world) (results : list summary) : list action :=
  flat_map (fun r =>
    [Browser (lit "file://" ++ abspath w (summary_html_path r));
     Say (Opened (summary_html_path r))]) results.

(** [main], reading the lines of the standard input. *)
Definition main (w : world) (input : list str) : list action * answer unit :=
  let start := Say Banner :: print_menu in
  let '(asked, choice, input) := get_user_choice input in
  match choice with
  | Failed f => (start ++ asked, Failed f)
  | Returned choice =>
      match team_of choice TEAMS with
      | Raise x => (start ++ asked, Failed (Raised x))
      | Ok selected =>
          let team_keys :=
            if str_eqb (key selected) (lit "both")
            then [lit "manutd"; lit "lakers"]
            else [key selected] in
          match run_teams w team_keys [] with
          | (acts, Failed f) => (start ++ asked ++ acts, Failed f)
          | (acts, Returned results) =>
              match results with
              | [] => (start ++ asked ++ acts ++ [Say NoStories], Failed (SystemExit 1))
              | _ :: _ =>
                  let shown := start ++ asked ++ acts ++ print_summary results
                               ++ [Ask PreviewQuestion] in
                  match input with
                  | [] => (shown, Failed EOFError)
                  | line :: _ =>
                      if says_yes line
                      then (shown ++ open_previews w results, Returned tt)
                      else (shown, Returned tt)
                  end
              end
          end
      end
  end.

(* ===================================================================== *)
(** ** prompt_builder.py *)
(* ===================================================================== *)

Section PromptBuilder.

(** Left open: [str(v)] for a value that is not a string, whether a
    [float] is different from zero, and [abs(a - b)] when one of the two
    numbers is a [float]. *)
Variable str_other : json -> str.
Variable float_nonzero : str -> bool.
Variable float_abs_diff : json -> json -> json.

(** The truth value of a value, as [if], [and] and [or] take it. *)
Definition py_truthy (v : json) : bool :=
  match v with
  | JNone => false
  | JBool b => b
  | JInt z => negb (z =? 0)%Z
  | JFloat x => float_nonzero x
  | JStr s => match s with [] => false | _ => true end
  | JList l => match l with [] => false | _ => true end
  | JDict d => match d with [] => false | _ => true end
  end.

(** [x or y] *)
Definition py_or (x y : json) : json := if py_truthy x then x else y.

(** The value of an [int] or a [bool] as an integer. *)
Definition int_value (v : json) : option Z :=
  match v with
  | JInt z => Some z
  | JBool b => Some (if b then 1 else 0)%Z
  | _ => None
  end.

Definition is_number (v : json) : bool :=
  match v with
  | JBool _ | JInt _ | JFloat _ => true
  | _ => false
  end.

(** [abs(a - b)]: the subtraction is defined on numbers only. *)
Definition py_abs_diff (a b : json) : result json :=
  match int_value a, int_value b with
  | Some x, Some y => Ok (JInt (Z.abs (x - y)))
  | _, _ =>
      if is_number a && is_number b then Ok (float_abs_diff a b)
      else Raise TypeError
  end.

Definition persona : str :=
  lit "You are an expert sports content writer specialising in " ++
  lit "Instagram and Snapchat Stories for a B2B sports media platform. " ++
  lit "Your writing is bold, punchy, and visual-first. You write for " ++
  lit "fans who are scrolling fast " ++ [8212%N] ++ lit " every word must earn its place. " ++
  lit "You never use clich" ++ [233%N] ++ lit "s like 'at the end of the day' or 'gave 110 " ++
  lit "percent'.".

Definition tone_win : str :=
  lit "Tone: Celebratory and bold. This is a moment to hype the " ++
  lit "fanbase. Use strong, active language. Make the reader feel the " ++
  lit "win.".

Definition tone_loss : str :=
  lit "Tone: Honest and forward-looking. Acknowledge the result " ++
  lit "directly " ++ [8212%N] ++ lit " don't sugarcoat it " ++ [8212%N] ++ lit " but end on a note of resilience " ++
  lit "or next-game motivation. Fans respect honesty.".

Definition tone_draw : str :=
  lit "Tone: Measured but engaging. A draw has drama in it " ++ [8212%N] ++ lit " find it. " ++
  lit "Focus on a standout moment or stat that makes the story worth " ++
  lit "telling.".

(** The sport-specific detail line of [build_prompt]. *)
Definition extra_detail_of (match_ sport our_score opp_score : json) : result str :=
  rbind (if py_eq_str sport (lit "football")
         then rbind (py_get match_ (lit "goal_details_home")) (fun g => Ok (py_truthy g))
         else Ok false) (fun with_goals =>
  if with_goals then
    rbind (py_getitem match_ (lit "goal_details_home")) (fun h =>
    let home_goals := py_or h (JStr (lit "none")) in
    rbind (py_getitem match_ (lit "goal_details_away")) (fun a =>
    let away_goals := py_or a (JStr (lit "none")) in
    fstring str_other
      [ Text (lit "Home goal details: ");
        Hole (Ok home_goals);
        Text (lit ". Away goal details: ");
        Hole (Ok away_goals);
        Text (lit ".") ]))
  else if py_eq_str sport (lit "basketball") then
    rbind (py_abs_diff our_score opp_score) (fun margin =>
    fstring str_other
      [ Text (lit "Margin of victory/defeat: ");
        Hole (Ok margin);
        Text (lit " points.") ])
  else Ok []).

(** [build_prompt] *)
Definition build_prompt (match_ : json) : result str :=
  rbind (py_getitem match_ (lit "sport")) (fun sport =>
  rbind (py_getitem match_ (lit "team_name")) (fun team =>
  rbind (py_getitem match_ (lit "opponent")) (fun opponent =>
  rbind (py_getitem match_ (lit "result")) (fun res =>
  rbind (py_getitem match_ (lit "our_score")) (fun our_score =>
  rbind (py_getitem match_ (lit "opp_score")) (fun opp_score =>
  rbind (py_getitem match_ (lit "date")) (fun date =>
  rbind (py_getitem match_ (lit "venue")) (fun venue =>
  rbind (py_getitem match_ (lit "league")) (fun league =>
  rbind (py_getitem match_ (lit "is_home")) (fun is_home =>
  let location_context :=
    if py_truthy is_home then lit "at home" else lit "on the road" in
  rbind (extra_detail_of match_ sport our_score opp_score) (fun extra_detail =>
  rbind (fstring str_other
      [ Text (join [NL]
          [ [];
            lit "Here is the match data you will write about:";
            [];
            lit "- Team: " ]);
        Hole (Ok team);
        Text (join [NL]
          [ [];
            lit "- Sport: " ]);
        Hole (Ok sport);
        Text (join [NL]
          [ [];
            lit "- League: " ]);
        Hole (Ok league);
        Text (join [NL]
          [ [];
            lit "- Opponent: " ]);
        Hole (Ok opponent);
        Text (join [NL]
          [ [];
            lit "- Result: " ]);
        Hole (Ok res);
        Text (join [NL]
          [ [];
            lit "- Score: " ]);
        Hole (Ok team);
        Text (lit " ");
        Hole (Ok our_score);
        Text (lit " " ++ [8212%N] ++ lit " ");
        Hole (Ok opp_score);
        Text (lit " ");
        Hole (Ok opponent);
        Text (join [NL]
          [ [];
            lit "- Date: " ]);
        Hole (Ok date);
        Text (join [NL]
          [ [];
            lit "- Venue: " ]);
        Hole (Ok venue);
        Text (join [NL]
          [ [];
            lit "- Location: " ]);
        Hole (Ok (JStr location_context));
        Text (join [NL]
          [ [];
            [] ]);
        Hole (Ok (JStr extra_detail));
        Text (join [NL]
          [ [];
            [] ]) ]) (fun match_context =>
  let tone_guidance :=
    if py_eq_str res (lit "WIN") then tone_win
    else if py_eq_str res (lit "LOSS") then tone_loss
    else tone_draw in
  rbind (fstring str_other
      [ Text (join [NL]
          [ [];
            lit "Your task is to generate a 4-slide Instagram/Snapchat Story about this match.";
            [];
            [] ]);
        Hole (Ok (JStr tone_guidance));
        Text (join [NL]
          [ [];
            [];
            lit "The 4 slides must be:";
            lit "1. HEADLINE slide " ++ [8212%N] ++ lit " A short punchy headline (max 5 words, ALL CAPS) and a ";
            lit "   one-sentence subtext (max 15 words) that expands on it.";
            lit "2. STAT slide " ++ [8212%N] ++ lit " Focus on the final score. Include a stat_label, stat_value, ";
            lit "   and one narrative sentence (max 20 words) giving context.";
            lit "3. STAT slide " ++ [8212%N] ++ lit " Pick the most compelling secondary stat or moment from the ";
            lit "   data (margin, a scorer, a comeback, a shutout, etc). Same structure.";
            lit "4. CTA slide " ++ [8212%N] ++ lit " A call-to-action for the team's fanbase. The text field should ";
            jlit "   be an account handle style label (e.g. 'More from Lakeshow Nation'), and ";
            lit "   subtext should be a one-line follow/engage prompt with a relevant emoji.";
            [];
            lit "Important constraints:";
            lit "- Headlines must feel like a back-page newspaper splash, not a press release.";
            jlit "- Stat values should be formatted for visual impact (e.g. '124 - 104', '2 - 0').";
            lit "- Never start two slides with the same word.";
            lit "- Write specifically about THIS match. Do not use generic filler content.";
            [] ]) ]) (fun task =>
  rbind (fstring str_other
      [ Text (join [NL]
          [ [];
            lit "Return ONLY a valid JSON object. No explanation, no markdown, no code fences.";
            lit "Start your response with { and end with }.";
            [];
            lit "The JSON must follow this exact schema:";
            [];
            lit "{";
            jlit "  'team': '" ]);
        Hole (Ok team);
        Text (join [NL]
          [ jlit "',";
            jlit "  'match': '<event name>',";
            jlit "  'date': '" ]);
        Hole (Ok date);
        Text (join [NL]
          [ jlit "',";
            jlit "  'result': '" ]);
        Hole (Ok res);
        Text (join [NL]
          [ jlit "',";
            jlit "  'slides': [";
            lit "    {";
            jlit "      'type': 'headline',";
            jlit "      'text': '<MAX 5 WORDS ALL CAPS>',";
            jlit "      'subtext': '<max 15 words>'";
            lit "    },";
            lit "    {";
            jlit "      'type': 'stat',";
            jlit "      'stat_label': '<short label e.g. FINAL SCORE>',";
            jlit "      'stat_value': '<the value e.g. 124 - 104>',";
            jlit "      'narrative': '<max 20 words of context>'";
            lit "    },";
            lit "    {";
            jlit "      'type': 'stat',";
            jlit "      'stat_label': '<short label>',";
            jlit "      'stat_value': '<the value>',";
            jlit "      'narrative': '<max 20 words of context>'";
            lit "    },";
            lit "    {";
            jlit "      'type': 'cta',";
            jlit "      'text': '<fanbase label>',";
            jlit "      'subtext': '<one-line engage prompt with emoji>'";
            lit "    }";
            lit "  ]";
            lit "}";
            [] ]) ]) (fun output_format =>
  fstring str_other
      [ Hole (Ok (JStr persona));
        Text (join [NL]
          [ [];
            [];
            [] ]);
        Hole (Ok (JStr match_context));
        Text (join [NL]
          [ [];
            [];
            [] ]);
        Hole (Ok (JStr task));
        Text (join [NL]
          [ [];
            [];
            [] ]);
        Hole (Ok (JStr output_format)) ])))))))))))))).

End PromptBuilder.

(* ===================================================================== *)
(** ** claude_client.py *)
(* ===================================================================== *)

(** [s.split(sep, 1)] for a separator that is not empty: the text before
    the first occurrence of [sep] and the text after it, or [s] alone. *)
Fixpoint cut (sep s : str) : option (str * str) :=
  if startswith sep s then Some ([], skipn (length sep) s)
  else
    match s with
    | [] => None
    | c :: r =>
        match cut sep r with
        | Some (before, after) => Some (c :: before, after)
        | None => None
        end
    end.

Definition split_once (sep s : str) : list str :=
  match cut sep s with
  | Some (before, after) => [before; after]
  | None => [s]
  end.

(** What the API answers: the two token counts and what
    [response.content[0].text] gives or raises. *)
Record response : Type := {
  input_tokens : Z;
  output_tokens : Z;
  first_text : answer str
}.

(** What [generate_story] reads from its surroundings: the environment
    variable and the answer of the API to a request made with a key, a
    system prompt and a user message. *)
Record api : Type := {
  ANTHROPIC_API_KEY : option str;
  create : str -> str -> str -> answer response
}.

(** What [generate_story] does: its prints and the request, with the
    model, the token limit, the key, the system prompt and the one user
    message. *)
Inductive client_event : Type :=
| Sending
| Request (model : str) (max_tokens : Z) (api_key system user : str)
| Received
| TokensUsed (input output total : Z).

Definition model_name : str := lit "claude-sonnet-4-5-20250929".

Definition split_marker : str := [NL; NL] ++ lit "Here is the match data".

Definition fallback_system : str :=
  lit "You are an expert sports content writer for social media Stories. " ++
  lit "Follow the user's instructions exactly.".

(** Step 3 of [generate_story]: the system prompt and the user message
    made of the prompt. *)
Definition system_and_user (prompt : str) : str * str :=
  match split_once split_marker prompt with
  | [before; after] =>
      (strip before, lit "Here is the match data" ++ strip after)
  | _ => (fallback_system, prompt)
  end.

(** [generate_story] *)
Definition generate_story (a : api) (prompt : str)
  : list client_event * answer str :=
  match ANTHROPIC_API_KEY a with
  | None | Some [] => ([], Failed (Upstream ValueFailure))
  | Some api_key =>
      let (system_content, user_content) := system_and_user prompt in
      let request :=
        [Sending; Request model_name 1024 api_key system_content user_content] in
      match create a api_key system_content user_content with
      | Failed f => (request, Failed f)
      | Returned r =>
          (request ++
             [Received;
              TokensUsed (input_tokens r) (output_tokens r)
                (input_tokens r + output_tokens r)],
           first_text r)
      end
  end.

(* ===================================================================== *)
(** ** sports_fetcher.py: [_extract_match_data] *)
(* ===================================================================== *)

Definition abind {A B} (m : answer A) (k : A -> answer B) : answer B :=
  match m with
  | Returned a => k a
  | Failed f => Failed f
  end.

(** What [int] makes of a [float]: its integer part, [ValueError] for a
    NaN, [OverflowError] for an infinity. *)
Inductive float_int : Type :=
| Truncated (z : Z)
| NotANumber
| Infinite.

Section Fetcher.

(** Left open: [str.lower], [int] of a text ([None] where it raises
    [ValueError]), [int] of a [float], and whether a [float] is different
    from zero. *)
Variable lower : str -> str.
Variable int_of_text : str -> option Z.
Variable int_of_float : str -> float_int.
Variable float_nonzero : str -> bool.

(** [v.lower()] *)
Definition py_lower (v : json) : result str :=
  match v with
  | JStr s => Ok (lower s)
  | _ => Raise AttributeError
  end.

(** [safe_int]: the handler catches [ValueError] and [TypeError]; the
    [OverflowError] of an infinity passes it. *)
Definition safe_int (value : json) : answer Z :=
  match value with
  | JNone => Returned 0%Z
  | JBool b => Returned (if b then 1 else 0)%Z
  | JInt z => Returned z
  | JFloat x =>
      match int_of_float x with
      | Truncated z => Returned z
      | NotANumber => Returned 0%Z
      | Infinite => Failed (Upstream OtherFailure)
      end
  | JStr s =>
      match int_of_text s with
      | Some z => Returned z
      | None => Returned 0%Z
      end
  | JList _ | JDict _ => Returned 0%Z
  end.

(** [x or None] *)
Definition or_none (x : json) : json := py_or float_nonzero x JNone.

(** [_extract_match_data] *)
Definition _extract_match_data (raw team : json) : answer json :=
  abind (of_result (py_get_default raw (JStr (lit "strHomeTeam")) (JStr []))) (fun home_team =>
  abind (of_result (py_get_default raw (JStr (lit "strAwayTeam")) (JStr []))) (fun away_team =>
  abind (of_result (py_getitem team (lit "api_name"))) (fun api_name =>
  abind (of_result (py_lower api_name)) (fun ours =>
  abind (of_result (py_lower home_team)) (fun theirs =>
  let is_home := str_eqb ours theirs in
  abind (of_result (py_get raw (lit "intHomeScore"))) (fun h =>
  abind (safe_int h) (fun home_score =>
  abind (of_result (py_get raw (lit "intAwayScore"))) (fun a =>
  abind (safe_int a) (fun away_score =>
  let our_score := if is_home then home_score else away_score in
  let opp_score := if is_home then away_score else home_score in
  let opponent := if is_home then away_team else home_team in
  let res :=
    if (opp_score <? our_score)%Z then lit "WIN"
    else if (our_score <? opp_score)%Z then lit "LOSS"
    else lit "DRAW" in
  abind (of_result (py_getitem team (lit "name"))) (fun name =>
  abind (of_result (py_getitem team (lit "sport"))) (fun sport =>
  abind (of_result (py_getitem team (lit "league"))) (fun league =>
  abind (of_result (py_get_default raw (JStr (lit "strEvent")) (JStr (lit "Unknown Match")))) (fun event_name =>
  abind (of_result (py_get_default raw (JStr (lit "dateEvent")) (JStr (lit "Unknown Date")))) (fun date =>
  abind (of_result (py_get_default raw (JStr (lit "strVenue")) (JStr (lit "Unknown Venue")))) (fun venue =>
  abind (of_result (py_get raw (lit "strHomeGoalDetails"))) (fun home_goals =>
  abind (of_result (py_get raw (lit "strAwayGoalDetails"))) (fun away_goals =>
  abind (of_result (py_get_default raw (JStr (lit "strStatus")) (JStr (lit "Unknown")))) (fun status =>
  Returned (JDict
    [ (lit "team_name", name);
      (lit "sport", sport);
      (lit "league", league);
      (lit "event_name", event_name);
      (lit "date", date);
      (lit "venue", venue);
      (lit "home_team", home_team);
      (lit "away_team", away_team);
      (lit "home_score", JInt home_score);
      (lit "away_score", JInt away_score);
      (lit "our_score", JInt our_score);
      (lit "opp_score", JInt opp_score);
      (lit "opponent", opponent);
      (lit "result", JStr res);
      (lit "is_home", JBool is_home);
      (lit "goal_details_home", or_none home_goals);
      (lit "goal_details_away", or_none away_goals);
      (lit "status", status) ]))))))))))))))))))).

End Fetcher.

(* ===================================================================== *)
(** ** Vocabulary of the further statements *)
(* ===================================================================== *)

(** The value the loop of [_validate_schema] compares with the known
    types: what [slide.get("type")] returns, [None] when the key is
    absent. *)
Definition type_of_slide (slide : json) : json :=
  match slide with
  | JDict sd =>
      match dict_get (lit "type") sd with
      | Some v => v
      | None => JNone
      end
  | _ => JNone
  end.

Definition is_dict (v : json) : bool :=
  match v with JDict _ => true | _ => false end.

Definition is_str (v : json) : bool :=
  match v with JStr _ => true | _ => false end.

(** A value that can be looked up in a [dict]: anything but a list or a
    dict. *)
Definition hashable (v : json) : bool :=
  match v with JList _ | JDict _ => false | _ => true end.

(** The [ValueError]s the module raises itself. *)
Definition module_error (x : exn) : bool :=
  match x with
  | NoJsonFound _ | MalformedJson _ _ | MissingField _ _ | WrongType _ _
  | UnknownSlideType _ _ _ | MissingSlideField _ _ _ _ => true
  | _ => false
  end.

(** The two messages of [_validate_schema]. *)
Definition validation_print (ev : event) : bool :=
  match ev with
  | Print (SlideCountWarning _) | Print (SchemaValidated _ _) => true
  | _ => false
  end.

Definition BACKTICK : char := 96%N.

(** The keys of a theme, in the order [_get_theme] gives them. *)
Definition theme_keys : list str :=
  [lit "bg"; lit "accent"; lit "accent2"; lit "text"; lit "subtext";
   lit "card_bg"; lit "result_tag"].

(** The colour of the result badge: green, red, amber, and grey for
    anything that is not one of the three results. *)
Definition badge_colour (res : json) : str :=
  if py_eq_str res (lit "WIN") then lit "#00C851"
  else if py_eq_str res (lit "LOSS") then lit "#ff4444"
  else if py_eq_str res (lit "DRAW") then lit "#ffbb33"
  else lit "#888888".

(** A piece of an f-string whose evaluation does not raise. *)
Definition piece_ok (p : piece) : Prop :=
  match p with
  | Text _ => True
  | Hole v => exists x, v = Ok x
  end.

(** [s] occurs in [t], character by character. *)
Definition occurs_in (s t : str) : Prop := exists a b, t = a ++ s ++ b.

(** [f] is one of the fields the data model gives the type of the slide
    [sd]. *)
Definition field_of_slide (f : str) (sd : dict) : bool :=
  match dict_get (lit "type") sd with
  | Some (JStr ty) =>
      match fields_of_type ty with
      | Some fields => existsb (str_eqb f) fields
      | None => false
      end
  | _ => false
  end.

(** What [main] asks and prints while it reads the lines [bad], none of
    which is a valid choice, and then one more line. *)
Definition asked_for (bad : list str) : list action :=
  flat_map (fun line =>
    [Ask (ChoiceQuestion valid_choices);
     Say (InvalidChoice (strip line) valid_choices)]) bad
  ++ [Ask (ChoiceQuestion valid_choices)].

(** The teams the menu promises for a choice. *)
Definition teams_for (choice : str) : option (list str) :=
  if str_eqb choice (lit "1") then Some [lit "manutd"]
  else if str_eqb choice (lit "2") then Some [lit "lakers"]
  else if str_eqb choice (lit "3") then Some [lit "manutd"; lit "lakers"]
  else None.

(** The run of the pipeline for one team inside the try statement of
    [main]: what it does, handler included, and the summary it adds. *)
Definition attempt_actions (w : world) (team_key : str) : list action :=
  fst (attempt w team_key []).

Definition succeeded (w : world) (team_key : str) : list summary :=
  match snd (run_pipeline w team_key) with
  | Returned r => [r]
  | Failed _ => []
  end.

(** The run of the pipeline for the team returns or raises an
    [Exception]: nothing like a keyboard interrupt. *)
Definition caught (w : world) (team_key : str) : bool :=
  match snd (run_pipeline w team_key) with
  | Returned _ => true
  | Failed f => is_Exception f
  end.

(** How every prompt begins: the persona, a blank line, and the first
    line of the match data after one more newline. *)
Definition prompt_opening : str :=
  persona ++ [NL; NL; NL] ++ lit "Here is the match data you will write about:".

(** The keys of the match that [build_prompt] can read. *)
Definition prompt_keys : list str :=
  [lit "sport"; lit "team_name"; lit "opponent"; lit "result"; lit "our_score";
   lit "opp_score"; lit "date"; lit "venue"; lit "league"; lit "is_home";
   lit "goal_details_home"; lit "goal_details_away"].

(* ===================================================================== *)
(** ** Sample inputs *)
(* ===================================================================== *)

(** Two environments in which every file-system request succeeds. *)
Definition sample_env : env :=
  {| module_dir := lit "/app";
     timestamp := lit "20260213_143022";
     makedirs_ok := true;
     open_ok := true;
     dump_ok := true |}.

Definition other_env : env :=
  {| module_dir := [];
     timestamp := lit "20270101_000000";
     makedirs_ok := true;
     open_ok := true;
     dump_ok := true |}.

(** The story of the concrete scenario: one headline slide. *)
Definition lakers_text : str :=
  jlit ("{'team':'Lakers','match':'Lakers vs Celtics','date':'2025-01-01'," ++
        "'result':'WIN','slides':[{'type':'headline','text':'LAKERS WIN'," ++
        "'subtext':'A statement victory.'}]}").

Definition lakers_headline : dict :=
  [ (lit "type", JStr (lit "headline"));
    (lit "text", JStr (lit "LAKERS WIN"));
    (lit "subtext", JStr (lit "A statement victory.")) ].

Definition lakers_story : dict :=
  [ (lit "team", JStr (lit "Lakers"));
    (lit "match", JStr (lit "Lakers vs Celtics"));
    (lit "date", JStr (lit "2025-01-01"));
    (lit "result", JStr (lit "WIN"));
    (lit "slides", JList [JDict lakers_headline]) ].

(** The same story as the model may send it: a preamble, a fence tagged
    json, the object, the closing fence. *)
Definition lakers_preamble : str := lit "Sure! ```json" ++ [NL].
Definition lakers_trailer : str := [NL] ++ lit "```".

(** The same story after a preamble that holds braces. *)
Definition braces_preamble : str := lit "Here {is} the story: ".

(** A story whose team name holds three backticks. *)
Definition backticks_text : str :=
  jlit "{'team':'a```b','match':'m','date':'d','result':'WIN','slides':[]}".

Definition backticks_story : dict :=
  [ (lit "team", JStr (lit "a```b")); (lit "match", JStr (lit "m"));
    (lit "date", JStr (lit "d")); (lit "result", JStr (lit "WIN"));
    (lit "slides", JList []) ].

(** A first slide of a known type without one of its fields, then a slide
    of an unknown type. *)
Definition two_problems_text : str :=
  jlit ("{'team':'Lakers','match':'Lakers vs Celtics','date':'2025-01-01'," ++
        "'result':'WIN','slides':[{'type':'headline','text':'LAKERS WIN'}," ++
        "{'type':'outro','text':'BYE'}]}").

Definition headline_without_subtext : dict :=
  [ (lit "type", JStr (lit "headline")); (lit "text", JStr (lit "LAKERS WIN")) ].

Definition outro_slide : dict :=
  [ (lit "type", JStr (lit "outro")); (lit "text", JStr (lit "BYE")) ].

Definition two_problems_story : dict :=
  [ (lit "team", JStr (lit "Lakers"));
    (lit "match", JStr (lit "Lakers vs Celtics"));
    (lit "date", JStr (lit "2025-01-01"));
    (lit "result", JStr (lit "WIN"));
    (lit "slides", JList [JDict headline_without_subtext; JDict outro_slide]) ].

(** Top-level values that are not non-empty strings, and a result outside
    WIN, LOSS, DRAW. *)
Definition loose_text : str :=
  jlit "{'team':'','match':1,'date':null,'result':'MAYBE','slides':[]}".

Definition loose_story : dict :=
  [ (lit "team", JStr []); (lit "match", JInt 1); (lit "date", JNone);
    (lit "result", JStr (lit "MAYBE")); (lit "slides", JList []) ].

(** Only one of the five keys. *)
Definition team_only_text : str := jlit "{'team':'X'}".
Definition team_only_story : dict := [ (lit "team", JStr (lit "X")) ].

(** [slides] given as a mapping. *)
Definition mapping_text : str :=
  jlit "{'team':'a','match':'b','date':'c','result':'WIN','slides':{}}".

Definition mapping_story : dict :=
  [ (lit "team", JStr (lit "a")); (lit "match", JStr (lit "b"));
    (lit "date", JStr (lit "c")); (lit "result", JStr (lit "WIN"));
    (lit "slides", JDict []) ].

(** A story with the four top-level text fields of the concrete scenario
    and the given slides. *)
Definition story_with (slides : list json) : dict :=
  [ (lit "team", JStr (lit "Lakers"));
    (lit "match", JStr (lit "Lakers vs Celtics"));
    (lit "date", JStr (lit "2025-01-01"));
    (lit "result", JStr (lit "WIN"));
    (lit "slides", JList slides) ].

Definition score_slide : dict :=
  [ (lit "type", JStr (lit "stat"));
    (lit "stat_label", JStr (lit "FINAL SCORE"));
    (lit "stat_value", JStr (lit "124 - 104"));
    (lit "narrative", JStr (lit "A twenty point win at home.")) ].

Definition follow_slide : dict :=
  [ (lit "type", JStr (lit "cta"));
    (lit "text", JStr (lit "More from Lakeshow Nation"));
    (lit "subtext", JStr (lit "Follow for more.")) ].

(** The four slides the prompt asks for: headline, stat, stat, cta. *)
Definition four_slides : list json :=
  [JDict lakers_headline; JDict score_slide; JDict score_slide; JDict follow_slide].

(** A slide without a [type] key, and a slide whose type is a list. *)
Definition untyped_slide : dict := [ (lit "text", JStr (lit "LAKERS WIN")) ].
Definition list_typed_slide : dict := [ (lit "type", JList []) ].

(** A story whose team name is the escape of a lone surrogate. *)
Definition surrogate_text : str :=
  jlit "{'team':'\ud83c','match':'m','date':'d','result':'WIN','slides':[]}".

Definition surrogate_story : dict :=
  [ (lit "team", JStr [55356%N]); (lit "match", JStr (lit "m"));
    (lit "date", JStr (lit "d")); (lit "result", JStr (lit "WIN"));
    (lit "slides", JList []) ].

(** A formatting of the values that are not strings, for the examples. *)
Definition sample_str (v : json) : str :=
  match v with
  | JNone => lit "None"
  | JBool true => lit "True"
  | JBool false => lit "False"
  | _ => []
  end.

(** A story whose result is a list: the schema check asks only for the
    key. *)
Definition list_result_text : str :=
  jlit "{'team':'a','match':'b','date':'c','result':[],'slides':[]}".

Definition list_result_story : dict :=
  [ (lit "team", JStr (lit "a")); (lit "match", JStr (lit "b"));
    (lit "date", JStr (lit "c")); (lit "result", JList []);
    (lit "slides", JList []) ].

(** A headline whose text is markup. *)
Definition markup_headline : dict :=
  [ (lit "type", JStr (lit "headline"));
    (lit "text", JStr (lit "<script>alert(1)</script>"));
    (lit "subtext", JStr (lit "A statement victory.")) ].

Definition markup_story : dict := story_with [JDict markup_headline].

(** The page of that story, for the Lakers, on 13 Feb 2026. *)
Definition markup_page : str :=
  match render_page sample_str (lit "13 Feb 2026") (JDict markup_story) (lit "lakers") with
  | Ok page => page
  | Raise _ => []
  end.

(** Surroundings in which the fetch for Manchester United fails with a
    connection error and the run for the Lakers gets the story of the
    concrete scenario. *)
Definition sample_page_env : page_env :=
  {| page_dir := lit "/app";
     page_today := lit "13 Feb 2026";
     page_timestamp := lit "20260213_143023";
     page_makedirs_ok := true;
     page_open_ok := true;
     page_write_ok := true |}.

Definition sample_world : world :=
  {| stages_1_to_3 := fun team_key =>
       if str_eqb team_key (lit "lakers")
       then ([lit "Response received."], Returned lakers_text)
       else ([], Failed (Upstream ConnectionFailure));
     parser_env := fun _ => sample_env;
     renderer_env := fun _ => sample_page_env;
     str_of := sample_str;
     abspath := fun path => path |}.

(** Surroundings in which the model answers with one key only. *)
Definition terse_world : world :=
  {| stages_1_to_3 := fun _ => ([], Returned team_only_text);
     parser_env := fun _ => sample_env;
     renderer_env := fun _ => sample_page_env;
     str_of := sample_str;
     abspath := fun path => path |}.

(** What [run_pipeline] returns for the Lakers in the first
    surroundings. *)
Definition lakers_summary : summary :=
  {| summary_team := lit "LA Lakers";
     summary_match := JStr (lit "Lakers vs Celtics");
     summary_result := JStr (lit "WIN");
     summary_html_path := lit "/app/output/lakers_story_20260213_143023.html" |}.

(** A match as the fetcher hands it over, and the prompt made of it. *)
Definition sample_match : dict :=
  [ (lit "sport", JStr (lit "basketball"));
    (lit "team_name", JStr (lit "Los Angeles Lakers"));
    (lit "opponent", JStr (lit "Boston Celtics"));
    (lit "result", JStr (lit "WIN"));
    (lit "our_score", JInt 124);
    (lit "opp_score", JInt 104);
    (lit "date", JStr (lit "2025-01-01"));
    (lit "venue", JStr (lit "Crypto.com Arena"));
    (lit "league", JStr (lit "NBA"));
    (lit "is_home", JBool true) ].

Definition sample_prompt : str :=
  match build_prompt sample_str (fun _ => true) (fun a _ => a) (JDict sample_match) with
  | Ok prompt => prompt
  | Raise _ => []
  end.

(** An API that answers with the story of the concrete scenario. *)
Definition sample_api : api :=
  {| ANTHROPIC_API_KEY := Some (lit "sk-test");
     create := fun _ _ _ =>
       Returned {| input_tokens := 900;
                   output_tokens := 200;
                   first_text := Returned lakers_text |} |}.

(** The configuration of the Lakers and two events of the API: a home
    win, and the same event with [null] for the home team. *)
Definition lakers_config : dict :=
  [ (lit "id", JStr (lit "134867"));
    (lit "name", JStr (lit "Los Angeles Lakers"));
    (lit "api_name", JStr (lit "Los Angeles Lakers"));
    (lit "sport", JStr (lit "basketball"));
    (lit "league", JStr (lit "NBA")) ].

Definition home_win_event : dict :=
  [ (lit "strEvent", JStr (lit "Los Angeles Lakers vs Boston Celtics"));
    (lit "strHomeTeam", JStr (lit "Los Angeles Lakers"));
    (lit "strAwayTeam", JStr (lit "Boston Celtics"));
    (lit "intHomeScore", JInt 124);
    (lit "intAwayScore", JInt 104);
    (lit "dateEvent", JStr (lit "2025-01-01")) ].

Definition null_home_event : dict :=
  [ (lit "strEvent", JStr (lit "Los Angeles Lakers vs Boston Celtics"));
    (lit "strHomeTeam", JNone);
    (lit "strAwayTeam", JStr (lit "Boston Celtics")) ].

Definition home_win_match : json :=
  match _extract_match_data (fun s => s) (fun _ => None) (fun _ => NotANumber)
          (fun _ => true) (JDict home_win_event) (JDict lakers_config) with
  | Returned m => m
  | Failed _ => JNone
  end.

(* ===================================================================== *)
(** * Properties *)
(* ===================================================================== *)

Unset Implicit Arguments.

(** ** Strings *)

Lemma char_eqb_eq (a b : char) : char_eqb a b = true <-> a = b.
Proof. apply N.eqb_eq. Qed.

Lemma char_eqb_neq (a b : char) : char_eqb a b = false <-> a <> b.
Proof. apply N.eqb_neq. Qed.

Lemma str_eqb_eq (a b : str) : str_eqb a b = true <-> a = b.
Proof.
  revert b; induction a as [|x a IH]; intros [|y b]; simpl; split;
    try congruence; try reflexivity.
  - intros H. apply andb_true_iff in H as [Hx Ha].
    apply char_eqb_eq in Hx. apply IH in Ha. congruence.
  - intros H. injection H as -> ->. apply andb_true_iff. split.
    + now apply char_eqb_eq.
    + now apply IH.
Qed.

Lemma str_eqb_refl (a : str) : str_eqb a a = true.
Proof. now apply str_eqb_eq. Qed.

Lemma find_absent (c : char) (s : str) : ~ In c s -> find c s = (-1)%Z.
Proof.
  induction s as [|x s IH]; simpl; intros H; [reflexivity|].
  destruct (char_eqb x c) eqn:E.
  - apply char_eqb_eq in E. tauto.
  - rewrite IH by tauto. reflexivity.
Qed.

Lemma rfind_absent (c : char) (s : str) : ~ In c s -> rfind c s = (-1)%Z.
Proof.
  induction s as [|x s IH]; simpl; intros H; [reflexivity|].
  rewrite IH by tauto. simpl.
  destruct (char_eqb x c) eqn:E; [|reflexivity].
  apply char_eqb_eq in E. tauto.
Qed.

(** ** The effect monad *)

Lemma bind_assoc {A B C} (m : io A) (f : A -> io B) (g : B -> io C) :
  bind (bind m f) g = bind m (fun x => bind (f x) g).
Proof.
  destruct m as [evs [a|x]]; simpl; [|reflexivity].
  destruct (f a) as [evs1 [b|x]]; simpl; [|reflexivity].
  destruct (g b) as [evs2 r]. now rewrite app_assoc.
Qed.

Lemma bind_ret_r {A} (m : io A) : bind m ret = m.
Proof.
  destruct m as [evs [a|x]]; simpl; [|reflexivity]. now rewrite app_nil_r.
Qed.

Lemma bind_lift_ok {A B} (a : A) (k : A -> io B) : bind (lift (Ok a)) k = k a.
Proof. unfold lift, bind. now destruct (k a). Qed.

Lemma bind_lift_raise {A B} (x : exn) (k : A -> io B) :
  bind (lift (Raise x)) k = ([], Raise x).
Proof. reflexivity. Qed.

(** [parse_and_save] is the validation followed by the persistence. *)
Lemma parse_and_save_validate (e : env) (raw team_key : str) :
  parse_and_save e raw team_key = bind (validate raw) (persist e team_key).
Proof.
  unfold parse_and_save, validate, persist.
  destruct (_clean_response raw) as [cleaned|x]; [|reflexivity].
  rewrite !bind_lift_ok.
  destruct (_parse_json cleaned) as [story|x]; [|reflexivity].
  rewrite !bind_lift_ok.
  rewrite bind_assoc.
  destruct (_validate_schema story) as [evs [[]|x]]; [|reflexivity].
  change (ret story) with (lift (Ok story)) at 2.
  now rewrite bind_lift_ok.
Qed.

(** ** Schema validation *)

Lemma first_missing_none (fields : list str) (d : dict) :
  first_missing fields d = None <-> has_all fields d = true.
Proof.
  unfold first_missing, has_all.
  induction fields as [|f fields IH]; simpl; [tauto|].
  destruct (dict_has f d); simpl; [exact IH|]. split; discriminate.
Qed.

Lemma first_missing_some (fields : list str) (d : dict) (f : str) :
  first_missing fields d = Some f -> In f fields /\ dict_has f d = false.
Proof.
  unfold first_missing. intros H. apply find_some in H as [Hin Hf].
  split; [exact Hin|]. now apply negb_true_iff.
Qed.

Lemma has_all_false (fields : list str) (d : dict) :
  has_all fields d = false -> exists f, first_missing fields d = Some f.
Proof.
  intros H. destruct (first_missing fields d) as [f|] eqn:E; [now exists f|].
  apply first_missing_none in E. congruence.
Qed.

Lemma check_top_level_dict (fields : list str) (d : dict) :
  check_top_level fields (JDict d) =
  match first_missing fields d with
  | Some f => Raise (MissingField f (keys d))
  | None => Ok tt
  end.
Proof.
  unfold first_missing. induction fields as [|f fields IH]; simpl; [reflexivity|].
  destruct (dict_has f d); simpl; [exact IH|reflexivity].
Qed.

Lemma check_slide_fields_dict (pos : nat) (t : str) (fields : list str) (sd : dict) :
  check_slide_fields pos t fields (JDict sd) =
  match first_missing fields sd with
  | Some f => Raise (MissingSlideField pos t f (keys sd))
  | None => Ok tt
  end.
Proof.
  unfold first_missing. induction fields as [|f fields IH]; simpl; [reflexivity|].
  destruct (dict_has f sd); simpl; [exact IH|reflexivity].
Qed.

Lemma str_eqb_sym (a b : str) : str_eqb a b = str_eqb b a.
Proof.
  destruct (str_eqb a b) eqn:E1, (str_eqb b a) eqn:E2; try reflexivity.
  - apply str_eqb_eq in E1. subst. rewrite str_eqb_refl in E2. discriminate.
  - apply str_eqb_eq in E2. subst. rewrite str_eqb_refl in E1. discriminate.
Qed.

(** The table of the code is the table of the data model, with the
    discriminator itself added in front. *)
Lemma lookup_fields_table (t : str) :
  lookup_fields t required_fields = option_map (cons (lit "type")) (fields_of_type t).
Proof.
  cbv [lookup_fields required_fields fields_of_type option_map].
  rewrite (str_eqb_sym t (lit "headline")), (str_eqb_sym t (lit "stat")),
    (str_eqb_sym t (lit "cta")).
  destruct (str_eqb (lit "headline") t); [reflexivity|].
  destruct (str_eqb (lit "stat") t); [reflexivity|].
  destruct (str_eqb (lit "cta") t); reflexivity.
Qed.

Lemma known_types : map fst required_fields = [lit "headline"; lit "stat"; lit "cta"].
Proof. reflexivity. Qed.

(** What the body of the slide loop does with a slide that is a [dict]
    whose discriminator is a string. *)
Lemma check_slide_dict (i : nat) (sd : dict) (t : str) :
  dict_get (lit "type") sd = Some (JStr t) ->
  check_slide i (JDict sd) =
  match fields_of_type t with
  | None => Raise (UnknownSlideType (i + 1) (JStr t) [lit "headline"; lit "stat"; lit "cta"])
  | Some fields =>
      match first_missing fields sd with
      | Some f => Raise (MissingSlideField (i + 1) t f (keys sd))
      | None => Ok tt
      end
  end.
Proof.
  intros Ht. unfold check_slide, py_get. rewrite Ht. cbn [rbind].
  rewrite lookup_fields_table, known_types.
  destruct (fields_of_type t) as [fields|]; cbn [option_map]; [|reflexivity].
  rewrite check_slide_fields_dict. unfold first_missing. cbn [List.find].
  unfold dict_has at 1. rewrite Ht. reflexivity.
Qed.

Lemma check_slide_valid (i : nat) (slide : json) :
  valid_slide slide = true -> check_slide i slide = Ok tt.
Proof.
  destruct slide as [| | | | | |sd]; try discriminate. cbn [valid_slide].
  destruct (dict_get (lit "type") sd) as [[| | | |t| |]|] eqn:Ht; try discriminate.
  rewrite (check_slide_dict i sd t Ht).
  destruct (fields_of_type t) as [fields|]; [|discriminate].
  intros H. apply first_missing_none in H. now rewrite H.
Qed.

Lemma check_slides_valid (i : nat) (slides : list json) :
  forallb valid_slide slides = true -> check_slides i slides = Ok tt.
Proof.
  revert i. induction slides as [|s slides IH]; intros i H; [reflexivity|].
  cbn [forallb] in H. apply andb_true_iff in H as [Hs Hrest].
  cbn [check_slides]. rewrite (check_slide_valid i s Hs). cbn [rbind].
  now apply IH.
Qed.

(** The loop stops at the first slide that is not valid, with the
    exception that slide's own check raises. *)
Lemma check_slides_first_invalid (i : nat) (pre : list json) (bad : json)
  (post : list json) (x : exn) :
  forallb valid_slide pre = true ->
  check_slide (i + length pre) bad = Raise x ->
  check_slides i (pre ++ bad :: post) = Raise x.
Proof.
  revert i. induction pre as [|s pre IH]; intros i Hpre Hbad.
  - cbn [length] in Hbad. rewrite Nat.add_0_r in Hbad.
    cbn [app check_slides]. now rewrite Hbad.
  - cbn [forallb] in Hpre. apply andb_true_iff in Hpre as [Hs Hrest].
    cbn [app check_slides]. rewrite (check_slide_valid i s Hs). cbn [rbind].
    apply IH; [exact Hrest|].
    cbn [length] in Hbad. now rewrite Nat.add_succ_comm.
Qed.

Lemma slide_types_valid (slides : list json) :
  forallb valid_slide slides = true ->
  exists types, slide_types slides = Ok types /\ length types = length slides.
Proof.
  induction slides as [|s slides IH]; intros H.
  - now exists [].
  - cbn [forallb] in H. apply andb_true_iff in H as [Hs Hrest].
    destruct (IH Hrest) as (ts & Hts & Hlen).
    destruct s as [| | | | | |sd]; try discriminate. cbn [valid_slide] in Hs.
    destruct (dict_get (lit "type") sd) as [v|] eqn:Ht; [|discriminate].
    exists (v :: ts). cbn [slide_types py_getitem]. rewrite Ht, Hts.
    cbn [rbind length]. now rewrite Hlen.
Qed.

Lemma validate_schema_not_list (d : dict) (v : json) :
  has_all required_top_level d = true ->
  dict_get (lit "slides") d = Some v ->
  is_list v = false ->
  _validate_schema (JDict d) = ([], Raise (WrongType (lit "list") (type_name v))).
Proof.
  intros Hall Hv Hlist. unfold _validate_schema.
  rewrite check_top_level_dict.
  apply first_missing_none in Hall. rewrite Hall.
  rewrite bind_lift_ok. cbn [py_getitem]. rewrite Hv, bind_lift_ok, Hlist.
  reflexivity.
Qed.

Lemma validate_schema_list (d : dict) (l : list json) :
  has_all required_top_level d = true ->
  dict_get (lit "slides") d = Some (JList l) ->
  _validate_schema (JDict d) =
    ((if negb (length l =? 4)
      then emit (Print (SlideCountWarning (length l))) else ret tt) ;;
     lift (check_slides 0 l) ;;
     types <- lift (slide_types l) ;;
     emit (Print (SchemaValidated (length l) types)))%io.
Proof.
  intros Hall Hv. unfold _validate_schema.
  rewrite check_top_level_dict.
  apply first_missing_none in Hall. rewrite Hall.
  rewrite bind_lift_ok. cbn [py_getitem]. rewrite Hv, bind_lift_ok.
  cbn [is_list negb]. change (ret tt) with (lift (Ok tt)) at 1.
  rewrite bind_lift_ok. cbn [py_len]. rewrite bind_lift_ok.
  destruct (negb (length l =? 4)); cbn [py_iter]; now rewrite bind_lift_ok.
Qed.

(** The count check never changes the outcome. *)
Lemma validate_schema_list_outcome (d : dict) (l : list json) :
  has_all required_top_level d = true ->
  dict_get (lit "slides") d = Some (JList l) ->
  outcome (_validate_schema (JDict d)) =
    rbind (check_slides 0 l) (fun _ => rbind (slide_types l) (fun _ => Ok tt)).
Proof.
  intros Hall Hv. rewrite (validate_schema_list d _ Hall Hv).
  destruct (negb (length l =? 4)), (check_slides 0 l) as [[]|x];
    try reflexivity; destruct (slide_types l); reflexivity.
Qed.

Section Decoded.

(** A raw text whose cleaning succeeds and whose cleaned text decodes to
    an object. *)
Variables (raw cleaned : str) (d : dict).
Hypothesis Hclean : _clean_response raw = Ok cleaned.
Hypothesis Hloads : loads cleaned = Decoded (JDict d).

Lemma validate_decoded :
  validate raw = (_validate_schema (JDict d) ;; ret (JDict d))%io.
Proof.
  unfold validate. rewrite Hclean, bind_lift_ok.
  unfold _parse_json. rewrite Hloads, bind_lift_ok. reflexivity.
Qed.

(** C5.  When the decoded object lacks one of the five required top-level
    keys, the validation fails with [MissingField], naming the first
    missing key in the order team, match, date, result, slides, and
    listing the keys that are present. *)
Theorem missing_top_level_field :
  has_all required_top_level d = false ->
  exists field,
    first_missing required_top_level d = Some field /\
    In field required_top_level /\
    dict_has field d = false /\
    validate raw = ([], Raise (MissingField field (keys d))).
Proof.
  intros Hmiss. destruct (has_all_false _ _ Hmiss) as [field Hf].
  exists field. destruct (first_missing_some _ _ _ Hf) as [Hin Hno].
  repeat split; try assumption.
  rewrite validate_decoded. unfold _validate_schema.
  rewrite check_top_level_dict, Hf. reflexivity.
Qed.

(** C7.  When all five keys are present and the value of [slides] is not
    a list, the validation fails with [WrongType], naming the expected
    type, list, and the type found. *)
Theorem slides_wrong_type (v : json) :
  has_all required_top_level d = true ->
  dict_get (lit "slides") d = Some v ->
  is_list v = false ->
  validate raw = ([], Raise (WrongType (lit "list") (type_name v))).
Proof.
  intros Hall Hv Hlist. rewrite validate_decoded.
  now rewrite (validate_schema_not_list d v Hall Hv Hlist).
Qed.

(** C8.  The count check is advisory: with a list of valid slides whose
    length is not 4, the validation prints the warning, then the
    confirmation, and succeeds; the story returned is the decoded object,
    whose [slides] is the list of the input, of the same length. *)
Theorem slide_count_advisory (l : list json) :
  has_all required_top_level d = true ->
  dict_get (lit "slides") d = Some (JList l) ->
  forallb valid_slide l = true ->
  length l <> 4 ->
  exists types,
    validate raw =
      ([Print (SlideCountWarning (length l));
        Print (SchemaValidated (length l) types)], Ok (JDict d)) /\
    py_getitem (JDict d) (lit "slides") = Ok (JList l) /\
    length types = length l.
Proof.
  intros Hall Hv Hvalid Hlen.
  destruct (slide_types_valid l Hvalid) as (types & Hts & Hn).
  exists types. split; [|split; [|exact Hn]].
  - rewrite validate_decoded, (validate_schema_list d _ Hall Hv).
    apply Nat.eqb_neq in Hlen. rewrite Hlen. cbn [negb].
    rewrite (check_slides_valid 0 l Hvalid), Hts. reflexivity.
  - cbn [py_getitem]. now rewrite Hv.
Qed.

(** C2, as the code has it.  The slides are examined one at a time, in
    order, and each slide gets both checks before the next one is looked
    at: first its type discriminator, then the fields its type requires.
    So the validation fails at the first slide that is not valid: with
    [UnknownSlideType] (1-based position, offending value) when its type
    is unknown, and with [MissingSlideField] (1-based position, declared
    type, first missing field) when its type is known, whatever the
    types of the slides after it. *)
Theorem slide_checks_slide_by_slide (pre post : list json) (sd : dict) (t : str) :
  has_all required_top_level d = true ->
  dict_get (lit "slides") d = Some (JList (pre ++ JDict sd :: post)) ->
  forallb valid_slide pre = true ->
  dict_get (lit "type") sd = Some (JStr t) ->
  (fields_of_type t = None ->
   outcome (validate raw) =
     Raise (UnknownSlideType (length pre + 1) (JStr t)
              [lit "headline"; lit "stat"; lit "cta"])) /\
  (forall fields f,
     fields_of_type t = Some fields ->
     first_missing fields sd = Some f ->
     outcome (validate raw) =
       Raise (MissingSlideField (length pre + 1) t f (keys sd))).
Proof.
  intros Hall Hv Hpre Ht.
  assert (Hout : forall x,
             check_slide (0 + length pre) (JDict sd) = Raise x ->
             outcome (validate raw) = Raise x).
  { intros x Hx. rewrite validate_decoded.
    pose proof (validate_schema_list_outcome d _ Hall Hv) as Hs.
    rewrite (check_slides_first_invalid 0 pre (JDict sd) post x Hpre Hx) in Hs.
    cbn [rbind] in Hs.
    destruct (_validate_schema (JDict d)) as [evs [[]|y]];
      cbn [outcome snd] in Hs; [discriminate|].
    injection Hs as ->. reflexivity. }
  split.
  - intros Hnone. apply Hout. rewrite (check_slide_dict _ sd t Ht), Hnone.
    reflexivity.
  - intros fields f Hfields Hf. apply Hout.
    rewrite (check_slide_dict _ sd t Ht), Hfields, Hf. reflexivity.
Qed.

End Decoded.

(** An accepted story is an object with the five required keys. *)
Lemma validate_schema_ok (story : json) :
  outcome (_validate_schema story) = Ok tt ->
  exists d, story = JDict d /\ has_all required_top_level d = true.
Proof.
  intros H. destruct story as [| | | | | |d].
  7: { exists d. split; [reflexivity|]. apply first_missing_none.
       unfold _validate_schema in H. rewrite check_top_level_dict in H.
       destruct (first_missing required_top_level d); [discriminate|reflexivity]. }
  all: unfold _validate_schema in H;
    match type of H with
    | context [check_top_level ?f ?x] => destruct (check_top_level f x) as [[]|]
    end; discriminate.
Qed.

Lemma has_all_get (fields : list str) (d : dict) (f : str) :
  has_all fields d = true -> In f fields -> exists v, dict_get f d = Some v.
Proof.
  unfold has_all. intros H Hin.
  pose proof (proj1 (forallb_forall _ _) H f Hin) as Hf.
  unfold dict_has in Hf. destruct (dict_get f d) as [v|]; [now exists v|discriminate].
Qed.

Lemma validate_ok (raw : str) (story : json) :
  outcome (validate raw) = Ok story ->
  exists cleaned,
    _clean_response raw = Ok cleaned /\ loads cleaned = Decoded story /\
    outcome (_validate_schema story) = Ok tt.
Proof.
  unfold validate. intros H.
  destruct (_clean_response raw) as [cleaned|x]; [|discriminate].
  exists cleaned. rewrite bind_lift_ok in H. unfold _parse_json in H.
  destruct (loads cleaned) as [v|x]; [|discriminate].
  rewrite bind_lift_ok in H.
  destruct (_validate_schema v) as [evs [[]|x]] eqn:Hv; [|discriminate].
  cbn in H. injection H as <-. rewrite Hv. repeat split.
Qed.

(** C3, as the code has it.  The validation checks the presence of the
    top-level keys and nothing else about them: whenever it succeeds, the
    story returned is an object in which team, match, date, result and
    slides all have a value. *)
Theorem validated_story_has_required_keys (raw : str) (story : json) :
  outcome (validate raw) = Ok story ->
  exists d,
    story = JDict d /\
    has_all required_top_level d = true /\
    forall f, In f required_top_level -> exists v, dict_get f d = Some v.
Proof.
  intros H. destruct (validate_ok raw story H) as (cleaned & _ & _ & Hs).
  destruct (validate_schema_ok story Hs) as (d & -> & Hall).
  exists d. repeat split; [exact Hall|].
  intros f Hin. now apply (has_all_get required_top_level).
Qed.

(** C6.  When the text left after trimming and fence removal has no [{]
    or no [}], the validation fails with [NoJsonFound], whose message
    carries the first 200 characters of the raw text; nothing is printed,
    and [parse_and_save] fails the same way. *)
Theorem no_json_found (raw : str) :
  ~ In LBRACE (fences_removed raw) \/ ~ In RBRACE (fences_removed raw) ->
  validate raw = ([], Raise (NoJsonFound (prefix 200 raw))) /\
  forall e team_key,
    parse_and_save e raw team_key = ([], Raise (NoJsonFound (prefix 200 raw))).
Proof.
  intros H.
  assert (Hc : _clean_response raw = Raise (NoJsonFound (prefix 200 raw))).
  { unfold _clean_response. destruct H as [H|H].
    - now rewrite (find_absent _ _ H).
    - rewrite (rfind_absent _ _ H). now rewrite orb_true_r. }
  assert (Hv : validate raw = ([], Raise (NoJsonFound (prefix 200 raw)))).
  { unfold validate. now rewrite Hc. }
  split; [exact Hv|]. intros e k. now rewrite parse_and_save_validate, Hv.
Qed.

(** ** Effects *)

Lemma prints_bind {A B} (m : io A) (k : A -> io B) :
  forallb is_print (events m) = true ->
  (forall a, forallb is_print (events (k a)) = true) ->
  forallb is_print (events (bind m k)) = true.
Proof.
  intros Hm Hk. destruct m as [evs [a|x]]; cbn in *; [|exact Hm].
  specialize (Hk a). destruct (k a) as [evs' r]. cbn in *.
  rewrite forallb_app, Hm, Hk. reflexivity.
Qed.

Lemma validate_schema_prints (story : json) :
  forallb is_print (events (_validate_schema story)) = true.
Proof.
  unfold _validate_schema.
  repeat (apply prints_bind; [|intros ?]);
    try reflexivity;
    match goal with
    | |- context [if ?b then _ else _] => destruct b; reflexivity
    end.
Qed.

Lemma validate_prints (raw : str) :
  forallb is_print (events (validate raw)) = true.
Proof.
  unfold validate.
  destruct (_clean_response raw) as [cleaned|x]; [|reflexivity].
  rewrite bind_lift_ok.
  destruct (_parse_json cleaned) as [story|x]; [|reflexivity].
  rewrite bind_lift_ok.
  pose proof (validate_schema_prints story) as H.
  destruct (_validate_schema story) as [evs [[]|x]]; cbn in *; [|exact H].
  now rewrite app_nil_r.
Qed.

Lemma persist_ok (e : env) (team_key : str) (story : json) :
  makedirs_ok e = true -> open_ok e = true -> dump_ok e = true ->
  has_surrogate story = false ->
  persist e team_key story =
    ([Makedirs (output_dir e); OpenFile (output_file e team_key);
      DumpJson (output_file e team_key) story;
      Print (StorySaved (output_file e team_key))], Ok story).
Proof.
  intros Hm Ho Hd Hs. unfold persist, _write_json. rewrite Hm, Ho, Hd, Hs.
  reflexivity.
Qed.

(** The persistence returns the story it was given, or fails. *)
Lemma persist_returns (e : env) (team_key : str) (story story' : json) :
  outcome (persist e team_key story) = Ok story' -> story' = story.
Proof.
  unfold persist, _write_json.
  destruct (makedirs_ok e); [|discriminate].
  destruct (open_ok e); [|discriminate].
  destruct (has_surrogate story); [discriminate|].
  destruct (dump_ok e); [|discriminate].
  cbn. congruence.
Qed.

(** C4, as the code has it.  The three validation steps touch no file and
    no directory; all they do besides computing is to print.  The
    persistence is not left to a collaborator: [parse_and_save] itself,
    right after a successful validation, asks for the output directory,
    opens a file in it and writes the story there, then prints the path.
    When the validation fails, [parse_and_save] fails with the same
    exception and has done nothing more than the validation. *)
Theorem validation_then_persistence (e : env) (raw team_key : str) :
  forallb is_print (events (validate raw)) = true /\
  match outcome (validate raw) with
  | Raise x => parse_and_save e raw team_key = (events (validate raw), Raise x)
  | Ok story =>
      makedirs_ok e = true -> open_ok e = true -> dump_ok e = true ->
      has_surrogate story = false ->
      parse_and_save e raw team_key =
        (events (validate raw) ++
           [Makedirs (output_dir e); OpenFile (output_file e team_key);
            DumpJson (output_file e team_key) story;
            Print (StorySaved (output_file e team_key))],
         Ok story)
  end.
Proof.
  split; [apply validate_prints|].
  rewrite parse_and_save_validate.
  destruct (validate raw) as [evs [story|x]]; cbn [outcome events fst snd];
    [|reflexivity].
  intros Hm Ho Hd Hs. cbn [bind].
  now rewrite (persist_ok e team_key story Hm Ho Hd Hs).
Qed.

(** C9.  The outcome of the validation is a function of the raw text
    alone.  Take two calls of [parse_and_save] on the same text, at
    different times, in different directories, for different team keys.
    When the validation of the text fails, both calls fail with that same
    exception; and when both calls return, they return the same story, the
    one the validation accepts. *)
Theorem validation_deterministic (raw : str) (e1 e2 : env) (k1 k2 : str) :
  (forall x, outcome (validate raw) = Raise x ->
     outcome (parse_and_save e1 raw k1) = Raise x /\
     outcome (parse_and_save e2 raw k2) = Raise x /\
     same_kind x x = true) /\
  (forall story1 story2,
     outcome (parse_and_save e1 raw k1) = Ok story1 ->
     outcome (parse_and_save e2 raw k2) = Ok story2 ->
     story1 = story2 /\ outcome (validate raw) = Ok story1).
Proof.
  rewrite !parse_and_save_validate.
  destruct (validate raw) as [evs [story|x]]; cbn [outcome snd]; split.
  - discriminate.
  - intros s1 s2 H1 H2.
    assert (Hp : forall e k s,
               snd (bind (evs, Ok story) (persist e k)) = Ok s -> s = story).
    { intros e k s H. apply (persist_returns e k). cbn [bind] in H.
      destruct (persist e k story) as [evs' r]. exact H. }
    rewrite (Hp _ _ _ H1), (Hp _ _ _ H2). now split.
  - intros y Hy. injection Hy as <-. repeat split. now destruct x.
  - discriminate.
Qed.

(** ** Searching and slicing *)

Lemma find_bounds (c : char) (s : str) :
  (-1 <= find c s < Z.of_nat (length s))%Z.
Proof.
  induction s as [|x s IH]; cbn [find length]; [lia|].
  destruct (char_eqb x c); [lia|].
  destruct (find c s <? 0)%Z eqn:E; [lia|]. apply Z.ltb_ge in E. lia.
Qed.

Lemma rfind_bounds (c : char) (s : str) :
  (-1 <= rfind c s < Z.of_nat (length s))%Z.
Proof.
  induction s as [|x s IH]; cbn [rfind length]; [lia|].
  destruct (0 <=? rfind c s)%Z eqn:E; [lia|].
  destruct (char_eqb x c); lia.
Qed.

(** [find] returns the position of the first occurrence. *)
Lemma find_first (c : char) (s : str) :
  (0 <= find c s)%Z ->
  exists a b, s = a ++ c :: b /\ ~ In c a /\ find c s = Z.of_nat (length a).
Proof.
  induction s as [|x s IH]; cbn [find]; [lia|].
  destruct (char_eqb x c) eqn:E.
  - intros _. apply char_eqb_eq in E. subst x.
    exists [], s. repeat split. intros [].
  - destruct (find c s <? 0)%Z eqn:E'; [lia|]. intros _.
    apply Z.ltb_ge in E'. destruct (IH E') as (a & b & -> & Ha & Hf).
    exists (x :: a), b. repeat split.
    + intros [H|H]; [|tauto]. apply char_eqb_neq in E. congruence.
    + rewrite Hf. cbn [length]. lia.
Qed.

(** [rfind] returns the position of the last occurrence. *)
Lemma rfind_last (c : char) (s : str) :
  (0 <= rfind c s)%Z ->
  exists a b, s = a ++ c :: b /\ ~ In c b /\ rfind c s = Z.of_nat (length a).
Proof.
  induction s as [|x s IH]; cbn [rfind]; [lia|].
  destruct (0 <=? rfind c s)%Z eqn:E.
  - intros _. apply Z.leb_le in E. destruct (IH E) as (a & b & -> & Hb & Hf).
    exists (x :: a), b. repeat split; [exact Hb|]. rewrite Hf. cbn [length]. lia.
  - destruct (char_eqb x c) eqn:E'; [|lia]. intros _.
    apply char_eqb_eq in E'. subst x. apply Z.leb_gt in E.
    exists [], s. repeat split.
    intros Hin. assert (rfind c s <> (-1)%Z) as Hne.
    { clear E IH. induction s as [|y s IH]; [destruct Hin|].
      cbn [rfind]. destruct (0 <=? rfind c s)%Z eqn:E2.
      - apply Z.leb_le in E2. lia.
      - destruct Hin as [->|Hin].
        + now rewrite (proj2 (char_eqb_eq c c) eq_refl).
        + apply Z.leb_gt in E2. pose proof (rfind_bounds c s).
          exfalso. apply (IH Hin). lia. }
    pose proof (rfind_bounds c s). lia.
Qed.

Lemma find_present (c : char) (s : str) : In c s -> (0 <= find c s)%Z.
Proof.
  induction s as [|x s IH]; cbn [find In]; [tauto|].
  intros H. destruct (char_eqb x c) eqn:E; [lia|].
  destruct H as [->|H]; [now rewrite (proj2 (char_eqb_eq c c) eq_refl) in E|].
  specialize (IH H). destruct (find c s <? 0)%Z eqn:E'; [|lia].
  apply Z.ltb_lt in E'. lia.
Qed.

Lemma rfind_present (c : char) (s : str) : In c s -> (0 <= rfind c s)%Z.
Proof.
  induction s as [|x s IH]; cbn [rfind In]; [tauto|].
  intros H. destruct (0 <=? rfind c s)%Z eqn:E.
  - apply Z.leb_le in E. lia.
  - destruct H as [->|H].
    + rewrite (proj2 (char_eqb_eq c c) eq_refl). lia.
    + apply Z.leb_gt in E. specialize (IH H). lia.
Qed.

(** [s[lo:hi]] for bounds inside the text. *)
Lemma slice_inside (s : str) (lo hi : nat) :
  hi <= length s ->
  slice s (Z.of_nat lo) (Z.of_nat hi) = skipn lo (firstn hi s).
Proof.
  intros Hhi. unfold slice, clamp.
  assert (Hlo : Z.to_nat (Z.max 0 (Z.min (Z.of_nat (length s)) (Z.of_nat lo)))
                = Nat.min (length s) lo) by lia.
  assert (Hh : Z.to_nat (Z.max 0 (Z.min (Z.of_nat (length s)) (Z.of_nat hi))) = hi)
    by lia.
  destruct (Z.of_nat lo <? 0)%Z eqn:E1; [apply Z.ltb_lt in E1; lia|].
  destruct (Z.of_nat hi <? 0)%Z eqn:E2; [apply Z.ltb_lt in E2; lia|].
  rewrite Hlo, Hh.
  destruct (Nat.le_gt_cases lo (length s)) as [H|H].
  - now rewrite Nat.min_r.
  - rewrite Nat.min_l by lia.
    rewrite !skipn_all2; [reflexivity| |]; rewrite length_firstn; lia.
Qed.

Lemma lstrip_id (c : char) (s : str) : isspace c = false -> lstrip (c :: s) = c :: s.
Proof. intros H. cbn [lstrip]. now rewrite H. Qed.

Lemma rstrip_id (c : char) (s : str) : isspace c = false -> rstrip (s ++ [c]) = s ++ [c].
Proof.
  intros H. unfold rstrip. rewrite rev_app_distr. cbn [rev app].
  rewrite (lstrip_id c _ H). cbn [rev]. now rewrite rev_involutive.
Qed.

Lemma strip_id (a b : char) (s : str) :
  isspace a = false -> isspace b = false ->
  strip (a :: s ++ [b]) = a :: s ++ [b].
Proof.
  intros Ha Hb. unfold strip.
  change (a :: s ++ [b]) with ((a :: s) ++ [b]).
  destruct s as [|x s]; cbn [app]; rewrite (lstrip_id a _ Ha);
    [apply (rstrip_id b [a] Hb)|apply (rstrip_id b (a :: x :: s) Hb)].
Qed.

(** ** Decoding a text that starts with a brace *)

Lemma object_items_dict (scan : str -> decoded (json * str)) (fuel : nat)
  (pairs : list (str * json)) (s : str) (v : json) (rest : str) :
  object_items scan fuel pairs s = Decoded (v, rest) -> exists d, v = JDict d.
Proof.
  revert pairs s. induction fuel as [|fuel IH]; intros pairs s; cbn [object_items];
    [discriminate|].
  destruct s as [|q s1]; [discriminate|].
  destruct (char_eqb q QUOTE); [|discriminate].
  destruct (scanstring s1) as [[key r]|]; cbn [dbind]; [|discriminate].
  destruct (skip_ws r) as [|c r1]; [discriminate|].
  destruct (char_eqb c (chr ":")); [|discriminate].
  destruct (scan (skip_ws r1)) as [[val r2]|]; cbn [dbind]; [|discriminate].
  destruct (skip_ws r2) as [|c' r3]; [discriminate|].
  destruct (char_eqb c' RBRACE).
  - intros H. injection H as <- _. eauto.
  - destruct (char_eqb c' (chr ",")); [apply IH|discriminate].
Qed.

Lemma parse_object_dict (scan : str -> decoded (json * str)) (fuel : nat)
  (s : str) (v : json) (rest : str) :
  parse_object scan fuel s = Decoded (v, rest) -> exists d, v = JDict d.
Proof.
  unfold parse_object. destruct (skip_ws s) as [|c r].
  - apply object_items_dict.
  - destruct (char_eqb c RBRACE); [|apply object_items_dict].
    intros H. injection H as <- _. eauto.
Qed.

(** A text whose first character is [{] decodes to a [dict] or not at
    all. *)
Lemma loads_brace_dict (s : str) (v : json) :
  loads (LBRACE :: s) = Decoded v -> exists d, v = JDict d.
Proof.
  unfold loads. change (startswith [65279%N] (LBRACE :: s)) with false.
  change (skip_ws (LBRACE :: s)) with (LBRACE :: s).
  cbn [scan_once]. change (char_eqb LBRACE QUOTE) with false.
  change (char_eqb LBRACE LBRACE) with true. cbv iota.
  destruct (parse_object _ _ s) as [[v' r]|] eqn:E; cbn [dbind]; [|discriminate].
  destruct (skip_ws r); [|discriminate].
  intros H. injection H as <-. eapply parse_object_dict, E.
Qed.

Lemma firstn_snoc (s : str) (n : nat) (c : char) (a b : str) :
  s = a ++ c :: b -> n = length a -> firstn (S n) s = a ++ [c].
Proof.
  intros -> ->. revert b. induction a as [|x a IH]; intros b; [reflexivity|].
  cbn [length app]. rewrite firstn_cons. f_equal. apply IH.
Qed.

(** ** C10: the two braces in either order *)

(** C10.  When the text left after trimming and fence removal has both
    braces but its last [}] stands before its first [{], the cleaning does
    not fail: the slice it takes is empty, and the validation fails at the
    decoding step with [MalformedJson].  When the first [{] stands before
    the last [}], the cleaned text starts with [{] and ends with [}], and
    whatever it decodes to is an object. *)
Theorem braces_in_either_order (raw : str) :
  In LBRACE (fences_removed raw) ->
  In RBRACE (fences_removed raw) ->
  ((rfind RBRACE (fences_removed raw) < find LBRACE (fences_removed raw))%Z ->
   _clean_response raw = Ok [] /\
   validate raw = ([], Raise (MalformedJson ExpectingValue []))) /\
  ((find LBRACE (fences_removed raw) < rfind RBRACE (fences_removed raw))%Z ->
   exists body,
     _clean_response raw = Ok (LBRACE :: body ++ [RBRACE]) /\
     forall v, loads (LBRACE :: body ++ [RBRACE]) = Decoded v ->
               exists d, v = JDict d).
Proof.
  intros HL HR.
  pose proof (find_present _ _ HL) as Hs. pose proof (rfind_present _ _ HR) as He.
  destruct (find_first _ _ Hs) as (a & b & Hab & Ha & Hfind).
  destruct (rfind_last _ _ He) as (a' & b' & Hab' & Hb' & Hrfind).
  assert (Hcond : ((find LBRACE (fences_removed raw) =? -1)
                   || (rfind RBRACE (fences_removed raw) =? -1))%Z = false).
  { apply orb_false_iff. split; apply Z.eqb_neq; lia. }
  assert (Hslice : slice (fences_removed raw)
                     (find LBRACE (fences_removed raw))
                     (rfind RBRACE (fences_removed raw) + 1)
                   = skipn (length a) (a' ++ [RBRACE])).
  { rewrite Hfind, Hrfind.
    replace (Z.of_nat (length a') + 1)%Z with (Z.of_nat (S (length a'))) by lia.
    rewrite slice_inside.
    - now rewrite (firstn_snoc _ _ RBRACE a' b' Hab' eq_refl).
    - rewrite Hab', length_app. cbn [length]. lia. }
  split.
  - intros Hlt.
    assert (Hc : _clean_response raw = Ok []).
    { unfold _clean_response. rewrite Hcond, Hslice.
      rewrite skipn_all2; [reflexivity|].
      rewrite length_app. cbn [length]. lia. }
    split; [exact Hc|]. unfold validate. rewrite Hc. reflexivity.
  - intros Hlt.
    assert (Hlen : length a < length a') by lia.
    assert (Hmid : exists body, a' = a ++ LBRACE :: body).
    { exists (firstn (length a' - S (length a)) b).
      assert (H1 : firstn (length a') (fences_removed raw) = a').
      { rewrite Hab'. rewrite firstn_app, firstn_all, Nat.sub_diag.
        cbn [firstn]. apply app_nil_r. }
      rewrite Hab in H1. rewrite firstn_app in H1.
      rewrite firstn_all2 in H1 by lia.
      replace (length a' - length a) with (S (length a' - S (length a))) in H1 by lia.
      cbn [firstn] in H1. now symmetry. }
    destruct Hmid as [body Hbody]. exists body. split.
    + unfold _clean_response. rewrite Hcond, Hslice, Hbody.
      rewrite <- app_assoc, skipn_app, skipn_all, Nat.sub_diag.
      cbn [skipn app]. now rewrite strip_id.
    + intros v. apply loads_brace_dict.
Qed.

(** ** The fence patterns *)

Lemma startswith_app (p s : str) :
  startswith p s = true -> s = p ++ skipn (length p) s.
Proof.
  revert s. induction p as [|x p IH]; intros s H; [reflexivity|].
  destruct s as [|y s]; [discriminate|]. cbn [startswith] in H.
  apply andb_true_iff in H as [Hx Hp]. apply char_eqb_eq in Hx. subst y.
  cbn [length skipn app]. f_equal. now apply IH.
Qed.

Lemma ws_run_le (s : str) : ws_run s <= length s.
Proof.
  induction s as [|c s IH]; cbn [ws_run length]; [lia|].
  destruct (isspace c); lia.
Qed.

Lemma ws_prefix_spaces (s : str) (k : nat) :
  k <= ws_run s -> Forall (fun c => isspace c = true) (firstn k s).
Proof.
  revert k. induction s as [|c s IH]; intros k Hk.
  - rewrite firstn_nil. constructor.
  - destruct k as [|k]; [constructor|]. cbn [ws_run] in Hk.
    destruct (isspace c) eqn:E; [|lia]. rewrite firstn_cons.
    constructor; [exact E|]. apply IH. lia.
Qed.

Lemma space_not_brace (c : char) : isspace c = true -> is_brace c = false.
Proof.
  unfold is_brace. intros H.
  destruct (char_eqb c LBRACE) eqn:E1.
  { apply char_eqb_eq in E1. subst c. discriminate. }
  destruct (char_eqb c RBRACE) eqn:E2; [|reflexivity].
  apply char_eqb_eq in E2. subst c. discriminate.
Qed.

Lemma spaces_brace_free (s : str) :
  Forall (fun c => isspace c = true) s -> brace_free s.
Proof.
  unfold brace_free. intros H. eapply Forall_impl; [|exact H].
  apply space_not_brace.
Qed.

Lemma brace_free_app (a b : str) :
  brace_free a -> brace_free b -> brace_free (a ++ b).
Proof. unfold brace_free. intros Ha Hb. apply Forall_app. now split. Qed.

Lemma ws_then_dollar_le (s : str) (k : nat) :
  ws_then_dollar s = Some k -> k <= ws_run s.
Proof.
  revert k. induction s as [|c s IH]; intros k; cbn [ws_then_dollar ws_run].
  - intros H. injection H as <-. lia.
  - destruct (isspace c).
    + destruct (ws_then_dollar s) as [n|].
      * intros H. injection H as <-. specialize (IH n eq_refl). lia.
      * destruct (at_dollar (c :: s)); [|discriminate].
        intros H. injection H as <-. lia.
    + destruct (at_dollar (c :: s)); [|discriminate].
      intros H. injection H as <-. lia.
Qed.

Lemma fence_open_matcher : fence_matcher fence_open.
Proof.
  intros s n. unfold fence_open.
  destruct (startswith backticks s) eqn:Hs; [|discriminate].
  intros H. split; [reflexivity|].
  pose proof (startswith_app _ _ Hs) as Hsplit.
  change (length backticks) with 3 in Hsplit.
  set (r := skipn 3 s) in *.
  destruct (startswith (lit "json") r) eqn:Hj.
  - pose proof (startswith_app _ _ Hj) as Hr.
    change (length (lit "json")) with 4 in Hr.
    set (r' := skipn 4 r) in *.
    assert (Hn : n = length (backticks ++ lit "json") + ws_run r').
    { change (length (backticks ++ lit "json")) with (3 + 4). congruence. }
    clear H. pose proof (ws_run_le r').
    assert (Hlen : length s = length (backticks ++ lit "json") + length r').
    { rewrite Hsplit, Hr, !length_app. apply Nat.add_assoc. }
    split; [lia|].
    rewrite Hn, Hsplit, Hr, app_assoc, firstn_app_2.
    apply brace_free_app.
    + repeat constructor.
    + apply spaces_brace_free, ws_prefix_spaces. lia.
  - assert (Hn : n = length backticks + ws_run r).
    { change (length backticks) with (3 + 0). unfold skipn in H at 1. congruence. }
    clear H. pose proof (ws_run_le r).
    assert (Hlen : length s = length backticks + length r).
    { rewrite Hsplit at 1. apply length_app. }
    split; [lia|].
    rewrite Hn, Hsplit, firstn_app_2. apply brace_free_app.
    + repeat constructor.
    + apply spaces_brace_free, ws_prefix_spaces. lia.
Qed.

Lemma fence_close_matcher : fence_matcher fence_close.
Proof.
  intros s n. unfold fence_close.
  destruct (startswith backticks s) eqn:Hs; [|discriminate].
  pose proof (startswith_app _ _ Hs) as Hsplit.
  change (length backticks) with 3 in Hsplit.
  set (r := skipn 3 s) in *.
  destruct (ws_then_dollar r) as [k|] eqn:Hk; [|discriminate].
  intros H. split; [reflexivity|].
  assert (Hn : n = length backticks + k).
  { change (length backticks) with 3. congruence. }
  clear H.
  pose proof (ws_then_dollar_le _ _ Hk). pose proof (ws_run_le r).
  assert (Hlen : length s = length backticks + length r).
  { rewrite Hsplit at 1. apply length_app. }
  split; [lia|].
  rewrite Hn, Hsplit, firstn_app_2. apply brace_free_app.
  - repeat constructor.
  - now apply spaces_brace_free, ws_prefix_spaces.
Qed.

(** ** Fence removal around an object text *)

Section FenceRemoval.

Variable m : str -> option nat.
Hypothesis Hm : fence_matcher m.

(** Removal only deletes characters. *)
Lemma re_sub_delete_keeps (P : char -> Prop) (s : str) (skip : nat) :
  Forall P s -> Forall P (re_sub_delete m skip s).
Proof.
  revert skip. induction s as [|c s IH]; intros skip H; [constructor|].
  inversion H as [|? ? Hc Hs]; subst. cbn [re_sub_delete].
  destruct skip as [|k]; [|now apply IH].
  destruct (m (c :: s)) as [[|k]|]; try (constructor; [exact Hc|]); now apply IH.
Qed.

(** Before the first brace: what is left of a brace-free prefix is
    brace-free, and no match runs over the brace. *)
Lemma re_sub_delete_before (pre rest : str) (skip : nat) :
  brace_free pre ->
  skip <= length (pre ++ LBRACE :: rest) ->
  brace_free (firstn skip (pre ++ LBRACE :: rest)) ->
  exists pre',
    brace_free pre' /\
    re_sub_delete m skip (pre ++ LBRACE :: rest) =
      pre' ++ re_sub_delete m 0 (LBRACE :: rest).
Proof.
  revert skip. induction pre as [|c pre IH]; intros skip Hpre Hlen Hskip.
  - exists []. split; [constructor|].
    destruct skip as [|k]; [reflexivity|].
    cbn [app firstn] in Hskip. inversion Hskip as [|? ? Hc _]. discriminate.
  - inversion Hpre as [|? ? Hc Hpre']; subst.
    cbn [app re_sub_delete]. destruct skip as [|k].
    + destruct (m (c :: pre ++ LBRACE :: rest)) as [[|k]|] eqn:E.
      * destruct (IH 0 Hpre') as (pre' & Hp & Heq);
          [cbn [length]; lia|constructor|].
        exists (c :: pre'). split; [now constructor|]. cbn [app]. now f_equal.
      * destruct (Hm _ _ E) as (_ & Hn & Hfree).
        cbn [length] in Hn. rewrite firstn_cons in Hfree.
        inversion Hfree; subst.
        destruct (IH k Hpre') as (pre' & Hp & Heq); [lia|assumption|].
        now exists pre'.
      * destruct (IH 0 Hpre') as (pre' & Hp & Heq);
          [cbn [length]; lia|constructor|].
        exists (c :: pre'). split; [now constructor|]. cbn [app]. now f_equal.
    + cbn [app length] in Hlen. cbn [app] in Hskip. rewrite firstn_cons in Hskip.
      inversion Hskip; subst.
      destruct (IH k Hpre') as (pre' & Hp & Heq); [lia|assumption|].
      now exists pre'.
Qed.

Lemma contains_cons (p : str) (c : char) (s : str) :
  contains p (c :: s) = false ->
  startswith p (c :: s) = false /\ contains p s = false.
Proof. cbn [contains]. intros H. now apply orb_false_iff in H. Qed.

(** Three backticks that start inside a text and are not wholly inside it
    make the text end with a backtick. *)
Lemma backticks_across (y : str) (c : char) (post : str) :
  startswith backticks ((y ++ [c]) ++ post) = true ->
  startswith backticks (y ++ [c]) = false ->
  c = 96%N.
Proof.
  change backticks with [96%N; 96%N; 96%N].
  destruct y as [|y1 [|y2 [|y3 y]]]; cbn [app startswith]; intros H1 H2.
  - apply andb_true_iff in H1 as [H1 _]. apply char_eqb_eq in H1. congruence.
  - apply andb_true_iff in H1 as [_ H1].
    apply andb_true_iff in H1 as [H1 _]. apply char_eqb_eq in H1. congruence.
  - apply andb_true_iff in H1 as [Ha H1].
    apply andb_true_iff in H1 as [Hb H1].
    apply andb_true_iff in H1 as [Hc _].
    rewrite Ha, Hb in H2. cbn [andb] in H2.
    apply char_eqb_eq in Hc. congruence.
  - congruence.
Qed.

(** Inside a text without three backticks in a row that does not end
    with a backtick, nothing is removed. *)
Lemma re_sub_delete_inside (x : str) (c : char) (post : str) :
  c <> 96%N ->
  contains backticks (x ++ [c]) = false ->
  re_sub_delete m 0 ((x ++ [c]) ++ post) =
    (x ++ [c]) ++ re_sub_delete m 0 post.
Proof.
  intros Hc. induction x as [|a x IH]; intros Hx.
  - cbn [app re_sub_delete].
    destruct (m (c :: post)) as [[|k]|] eqn:E; try reflexivity.
    destruct (Hm _ _ E) as (Hs & _). exfalso. apply Hc.
    apply (backticks_across [] c post Hs).
    now destruct (contains_cons _ _ _ Hx).
  - cbn [app] in Hx. destruct (contains_cons _ _ _ Hx) as [Hstart Hrest].
    cbn [app re_sub_delete].
    destruct (m (a :: (x ++ [c]) ++ post)) as [[|k]|] eqn:E;
      try (f_equal; now apply IH).
    destruct (Hm _ _ E) as (Hs & _). exfalso. apply Hc.
    exact (backticks_across (a :: x) c post Hs Hstart).
Qed.

(** Around an object text: the text itself is untouched, and what is left
    before and after it is still brace-free. *)
Lemma re_sub_delete_around (pre body post : str) :
  brace_free pre -> brace_free post ->
  contains backticks (LBRACE :: body ++ [RBRACE]) = false ->
  exists pre' post',
    brace_free pre' /\ brace_free post' /\
    re_sub_delete m 0 (pre ++ (LBRACE :: body ++ [RBRACE]) ++ post) =
      pre' ++ (LBRACE :: body ++ [RBRACE]) ++ post'.
Proof.
  intros Hpre Hpost Hj.
  destruct (re_sub_delete_before pre ((body ++ [RBRACE]) ++ post) 0 Hpre)
    as (pre' & Hp & Heq); [lia|constructor|].
  exists pre', (re_sub_delete m 0 post). split; [exact Hp|]. split.
  - now apply re_sub_delete_keeps.
  - cbn [app] in *. rewrite Heq. f_equal.
    apply (re_sub_delete_inside (LBRACE :: body) RBRACE post); [discriminate|].
    exact Hj.
Qed.

End FenceRemoval.

(** ** Trimming around an object text *)

Lemma lstrip_before (pre rest : str) (b : char) :
  isspace b = false -> lstrip (pre ++ b :: rest) = lstrip pre ++ b :: rest.
Proof.
  intros Hb. induction pre as [|c pre IH]; cbn [app lstrip].
  - now rewrite Hb.
  - destruct (isspace c); [exact IH|reflexivity].
Qed.

Lemma rstrip_after (x post : str) (b : char) :
  isspace b = false -> rstrip (x ++ b :: post) = x ++ b :: rstrip post.
Proof.
  intros Hb. unfold rstrip. rewrite rev_app_distr. cbn [rev].
  rewrite <- app_assoc. cbn [app]. rewrite (lstrip_before _ _ b Hb).
  rewrite rev_app_distr. cbn [rev]. rewrite rev_involutive, <- app_assoc.
  reflexivity.
Qed.

Lemma lstrip_keeps (P : char -> Prop) (s : str) : Forall P s -> Forall P (lstrip s).
Proof.
  induction 1 as [|c s Hc Hs IH]; cbn [lstrip]; [constructor|].
  destruct (isspace c); [exact IH|now constructor].
Qed.

Lemma rstrip_keeps (P : char -> Prop) (s : str) : Forall P s -> Forall P (rstrip s).
Proof.
  intros H. unfold rstrip. apply Forall_rev, lstrip_keeps, Forall_rev, H.
Qed.

Lemma strip_around (pre body post : str) :
  strip (pre ++ (LBRACE :: body ++ [RBRACE]) ++ post) =
    lstrip pre ++ (LBRACE :: body ++ [RBRACE]) ++ rstrip post.
Proof.
  unfold strip. cbn [app]. rewrite (lstrip_before _ _ LBRACE eq_refl).
  replace (lstrip pre ++ LBRACE :: (body ++ [RBRACE]) ++ post)
    with ((lstrip pre ++ LBRACE :: body) ++ RBRACE :: post)
    by (rewrite <- !app_assoc; reflexivity).
  rewrite (rstrip_after _ _ RBRACE eq_refl).
  rewrite <- !app_assoc. reflexivity.
Qed.

Lemma find_at (c : char) (a b : str) :
  ~ In c a -> find c (a ++ c :: b) = Z.of_nat (length a).
Proof.
  induction a as [|x a IH]; intros Ha; cbn [app find length].
  - now rewrite (proj2 (char_eqb_eq c c) eq_refl).
  - destruct (char_eqb x c) eqn:E.
    + apply char_eqb_eq in E. subst. exfalso. apply Ha. now left.
    + rewrite IH by (intros H; apply Ha; now right).
      destruct (Z.of_nat (length a) <? 0)%Z eqn:E'; [apply Z.ltb_lt in E'|]; lia.
Qed.

Lemma rfind_at (c : char) (a b : str) :
  ~ In c b -> rfind c (a ++ c :: b) = Z.of_nat (length a).
Proof.
  intros Hb. induction a as [|x a IH]; cbn [app rfind length].
  - rewrite (rfind_absent c b Hb). cbn.
    now rewrite (proj2 (char_eqb_eq c c) eq_refl).
  - rewrite IH.
    destruct (0 <=? Z.of_nat (length a))%Z eqn:E'; [|apply Z.leb_gt in E']; lia.
Qed.

Lemma brace_free_no_lbrace (s : str) : brace_free s -> ~ In LBRACE s.
Proof.
  intros H Hin. unfold brace_free in H. rewrite Forall_forall in H.
  specialize (H _ Hin). discriminate.
Qed.

Lemma brace_free_no_rbrace (s : str) : brace_free s -> ~ In RBRACE s.
Proof.
  intros H Hin. unfold brace_free in H. rewrite Forall_forall in H.
  specialize (H _ Hin). discriminate.
Qed.

(** The slice from the first [{] to the last [}] of a text made of a
    brace-free part, an object text and a brace-free part is the object
    text. *)
Lemma slice_object (pre body post : str) :
  brace_free pre -> brace_free post ->
  let text := pre ++ (LBRACE :: body ++ [RBRACE]) ++ post in
  find LBRACE text = Z.of_nat (length pre) /\
  rfind RBRACE text = Z.of_nat (length (pre ++ LBRACE :: body)) /\
  slice text (find LBRACE text) (rfind RBRACE text + 1) =
    LBRACE :: body ++ [RBRACE].
Proof.
  intros Hpre Hpost text.
  assert (Hsplit : text = (pre ++ LBRACE :: body) ++ RBRACE :: post).
  { unfold text. cbn [app]. rewrite <- !app_assoc. reflexivity. }
  assert (Hf : find LBRACE text = Z.of_nat (length pre)).
  { unfold text. cbn [app]. apply find_at. now apply brace_free_no_lbrace. }
  assert (Hr : rfind RBRACE text = Z.of_nat (length (pre ++ LBRACE :: body))).
  { rewrite Hsplit. apply rfind_at. now apply brace_free_no_rbrace. }
  split; [exact Hf|]. split; [exact Hr|].
  rewrite Hf, Hr.
  replace (Z.of_nat (length (pre ++ LBRACE :: body)) + 1)%Z
    with (Z.of_nat (S (length (pre ++ LBRACE :: body)))) by lia.
  rewrite slice_inside.
  - rewrite (firstn_snoc _ _ RBRACE _ _ Hsplit eq_refl).
    rewrite <- app_assoc, skipn_app, skipn_all, Nat.sub_diag. reflexivity.
  - rewrite Hsplit, !length_app. cbn [length]. lia.
Qed.

(** ** The decoder never runs out of fuel *)

Lemma skip_ws_le (s : str) : length (skip_ws s) <= length s.
Proof.
  induction s as [|c s IH]; cbn [skip_ws length]; [lia|].
  destruct (is_json_ws c); cbn [length]; lia.
Qed.

Lemma push_decoded (c : char) (r : decoded (str * str)) (x rest : str) :
  push c r = Decoded (x, rest) -> exists x', r = Decoded (x', rest).
Proof.
  destruct r as [[x' rest']|e]; cbn [push]; [|discriminate].
  intros H. injection H as _ <-. now exists x'.
Qed.

Lemma push_error (c : char) (r : decoded (str * str)) (e : decode_error) :
  push c r = DecodeError e -> r = DecodeError e.
Proof. destruct r as [[x' rest']|e']; cbn [push]; [discriminate|trivial]. Qed.

Ltac scanstring_cases H :=
  repeat match type of H with
         | context [if ?b then _ else _] => destruct b
         | context [match ?l with [] => _ | _ :: _ => _ end] => destruct l
         | context [match hex4 ?a ?b ?c ?d with _ => _ end] => destruct (hex4 a b c d)
         | context [match unescape ?e with _ => _ end] => destruct (unescape e)
         end.

Lemma scanstring_rest_bounded (n : nat) (s x r : str) :
  length s <= n -> scanstring s = Decoded (x, r) -> length r < length s.
Proof.
  revert s x r. induction n as [|n IH]; intros s x r Hlen H.
  - destruct s; [discriminate|cbn [length] in Hlen; lia].
  - destruct s as [|c r0]; [discriminate|]. cbn [scanstring] in H.
    scanstring_cases H; try discriminate;
      try (injection H as _ <-; cbn [length]; lia);
      apply push_decoded in H; destruct H as [x' H];
      apply IH in H; cbn [length] in *; lia.
Qed.

Lemma scanstring_rest (s x r : str) :
  scanstring s = Decoded (x, r) -> length r < length s.
Proof. apply (scanstring_rest_bounded (length s)). lia. Qed.

Lemma scanstring_fuel_bounded (n : nat) (s : str) :
  length s <= n -> scanstring s <> DecodeError OutOfFuel.
Proof.
  revert s. induction n as [|n IH]; intros s Hlen H.
  - destruct s; [discriminate|cbn [length] in Hlen; lia].
  - destruct s as [|c r0]; [discriminate|]. cbn [scanstring] in H.
    scanstring_cases H; try discriminate;
      apply push_error in H; revert H; apply IH; cbn [length] in *; lia.
Qed.

Lemma scanstring_fuel (s : str) : scanstring s <> DecodeError OutOfFuel.
Proof. apply (scanstring_fuel_bounded (length s)). lia. Qed.

Lemma skipn_shorter (n : nat) (s : str) :
  0 < n -> s <> [] -> length (skipn n s) < length s.
Proof.
  intros Hn Hs. rewrite length_skipn. destruct s; [congruence|cbn [length]; lia].
Qed.

Lemma int_digits_pos (s : str) (i : nat) : int_digits s = Some i -> 0 < i.
Proof.
  destruct s as [|c r]; cbn [int_digits]; [discriminate|].
  destruct (char_eqb c (chr "0")); [intros [= <-]; lia|].
  destruct (is_digit c); [intros [= <-]; lia|discriminate].
Qed.

Lemma int_part_pos (s : str) (i : nat) : int_part s = Some i -> 0 < i /\ s <> [].
Proof.
  destruct s as [|c r]; cbn [int_part]; [discriminate|].
  intros H. split; [|discriminate].
  destruct (char_eqb c (chr "-")).
  - destruct (int_digits r); [|discriminate]. cbn [option_map] in H.
    injection H as <-. lia.
  - now apply (int_digits_pos (c :: r)).
Qed.

Lemma match_number_good (s : str) :
  match_number s <> DecodeError OutOfFuel /\
  forall v r, match_number s = Decoded (v, r) -> length r < length s.
Proof.
  unfold match_number. destruct (int_part s) as [i|] eqn:Hi; [|split; discriminate].
  destruct (int_part_pos s i Hi) as [Hpos Hs].
  destruct (frac_part (skipn i s) + exp_part (skipn (i + frac_part (skipn i s)) s));
    (split; [discriminate|]); intros v r H; injection H as _ <-;
    apply skipn_shorter; trivial; lia.
Qed.

Lemma startswith_nonempty (p s : str) :
  p <> [] -> startswith p s = true -> s <> [].
Proof. destruct p, s; cbn [startswith]; congruence. Qed.

Section Fuel.

Variable scan : str -> decoded (json * str).
Variable bound : nat.
Hypothesis Hscan : good_scan scan bound.

Lemma array_items_good (fuel : nat) (acc : list json) (s : str) :
  fuel <= bound -> length s < fuel ->
  array_items scan fuel acc s <> DecodeError OutOfFuel /\
  forall v r, array_items scan fuel acc s = Decoded (v, r) -> length r < length s.
Proof.
  revert acc s. induction fuel as [|fuel IH]; intros acc s Hb Hs; [lia|].
  cbn [array_items].
  destruct (Hscan s) as [Hne Hrest]; [lia|].
  destruct (scan s) as [[v0 r0]|e] eqn:E; cbn [dbind];
    [|split; [exact Hne|discriminate]].
  specialize (Hrest v0 r0 eq_refl). pose proof (skip_ws_le r0) as Hws.
  destruct (skip_ws r0) as [|c r1]; [split; discriminate|].
  cbn [length] in Hws.
  destruct (char_eqb c (chr "]")).
  { split; [discriminate|]. intros v r H. injection H as _ <-. lia. }
  destruct (char_eqb c (chr ",")); [|split; discriminate].
  pose proof (skip_ws_le r1) as Hws1.
  destruct (IH (acc ++ [v0]) (skip_ws r1)) as [Hne' Hrest']; [lia|lia|].
  split; [exact Hne'|]. intros v r H. specialize (Hrest' v r H). lia.
Qed.

Lemma parse_array_good (s : str) :
  length s < bound ->
  parse_array scan bound s <> DecodeError OutOfFuel /\
  forall v r, parse_array scan bound s = Decoded (v, r) -> length r <= length s.
Proof.
  intros Hs. unfold parse_array. pose proof (skip_ws_le s) as Hws.
  destruct (skip_ws s) as [|c r0] eqn:E.
  - destruct (array_items_good bound [] []) as [Hne Hrest]; [lia|cbn [length]; lia|].
    split; [exact Hne|]. intros v r H. specialize (Hrest v r H).
    cbn [length] in Hrest. lia.
  - destruct (char_eqb c (chr "]")).
    + split; [discriminate|]. intros v r H. injection H as _ <-.
      cbn [length] in Hws. lia.
    + destruct (array_items_good bound [] (c :: r0)) as [Hne Hrest]; [lia|lia|].
      split; [exact Hne|]. intros v r H. specialize (Hrest v r H). lia.
Qed.

Lemma object_items_good (fuel : nat) (pairs : list (str * json)) (s : str) :
  fuel <= bound -> length s < fuel ->
  object_items scan fuel pairs s <> DecodeError OutOfFuel /\
  forall v r, object_items scan fuel pairs s = Decoded (v, r) -> length r < length s.
Proof.
  revert pairs s. induction fuel as [|fuel IH]; intros pairs s Hb Hs; [lia|].
  cbn [object_items].
  destruct s as [|q s1]; [split; discriminate|]. cbn [length] in Hs.
  destruct (char_eqb q QUOTE); [|split; discriminate].
  pose proof (scanstring_fuel s1) as Hsf.
  destruct (scanstring s1) as [[key r0]|e] eqn:E; cbn [dbind];
    [|split; [intros X; apply Hsf; injection X as ->; reflexivity|discriminate]].
  apply scanstring_rest in E. pose proof (skip_ws_le r0) as Hws.
  destruct (skip_ws r0) as [|c r1]; [split; discriminate|]. cbn [length] in Hws.
  destruct (char_eqb c (chr ":")); [|split; discriminate].
  pose proof (skip_ws_le r1) as Hws1.
  destruct (Hscan (skip_ws r1)) as [Hne Hrest]; [lia|].
  destruct (scan (skip_ws r1)) as [[val r2]|e] eqn:E2; cbn [dbind];
    [|split; [exact Hne|discriminate]].
  specialize (Hrest val r2 eq_refl). pose proof (skip_ws_le r2) as Hws2.
  destruct (skip_ws r2) as [|c' r3]; [split; discriminate|]. cbn [length] in Hws2.
  destruct (char_eqb c' RBRACE).
  { split; [discriminate|]. intros v r H. injection H as _ <-. cbn [length]. lia. }
  destruct (char_eqb c' (chr ",")); [|split; discriminate].
  pose proof (skip_ws_le r3) as Hws3.
  destruct (IH (pairs ++ [(key, val)]) (skip_ws r3)) as [Hne' Hrest']; [lia|lia|].
  split; [exact Hne'|]. intros v r H. specialize (Hrest' v r H). cbn [length]. lia.
Qed.

Lemma parse_object_good (s : str) :
  length s < bound ->
  parse_object scan bound s <> DecodeError OutOfFuel /\
  forall v r, parse_object scan bound s = Decoded (v, r) -> length r <= length s.
Proof.
  intros Hs. unfold parse_object. pose proof (skip_ws_le s) as Hws.
  destruct (skip_ws s) as [|c r0] eqn:E.
  - destruct (object_items_good bound [] []) as [Hne Hrest]; [lia|cbn [length]; lia|].
    split; [exact Hne|]. intros v r H. specialize (Hrest v r H).
    cbn [length] in Hrest. lia.
  - destruct (char_eqb c RBRACE).
    + split; [discriminate|]. intros v r H. injection H as _ <-.
      cbn [length] in Hws. lia.
    + destruct (object_items_good bound [] (c :: r0)) as [Hne Hrest]; [lia|lia|].
      split; [exact Hne|]. intros v r H. specialize (Hrest v r H). lia.
Qed.

End Fuel.

Lemma literal_good (p s : str) (v : json) :
  p <> [] -> startswith p s = true ->
  forall v' r, Decoded (v, skipn (length p) s) = Decoded (v', r) -> length r < length s.
Proof.
  intros Hp Hs v' r H. injection H as _ <-.
  apply skipn_shorter; [destruct p; [congruence|cbn [length]; lia]|].
  now apply (startswith_nonempty p).
Qed.

Lemma scan_once_good (fuel : nat) : good_scan (scan_once fuel) fuel.
Proof.
  induction fuel as [|fuel IH]; intros s Hs; [lia|].
  cbn [scan_once]. destruct s as [|c r0]; [split; discriminate|].
  cbn [length] in Hs.
  destruct (char_eqb c QUOTE).
  { pose proof (scanstring_fuel r0) as Hsf.
    destruct (scanstring r0) as [[x r']|e] eqn:E; cbn [dbind];
      [|split; [intros X; apply Hsf; injection X as ->; reflexivity|discriminate]].
    apply scanstring_rest in E. split; [discriminate|].
    intros v r H. injection H as _ <-. cbn [length]. lia. }
  destruct (char_eqb c LBRACE).
  { destruct (parse_object_good (scan_once fuel) fuel IH r0) as [Hne Hrest]; [lia|].
    split; [exact Hne|]. intros v r H. specialize (Hrest v r H). cbn [length]. lia. }
  destruct (char_eqb c (chr "[")).
  { destruct (parse_array_good (scan_once fuel) fuel IH r0) as [Hne Hrest]; [lia|].
    split; [exact Hne|]. intros v r H. specialize (Hrest v r H). cbn [length]. lia. }
  destruct (startswith (lit "null") (c :: r0)) eqn:E1.
  { split; [discriminate|]. now apply (literal_good (lit "null")). }
  destruct (startswith (lit "true") (c :: r0)) eqn:E2.
  { split; [discriminate|]. now apply (literal_good (lit "true")). }
  destruct (startswith (lit "false") (c :: r0)) eqn:E3.
  { split; [discriminate|]. now apply (literal_good (lit "false")). }
  destruct (startswith (lit "NaN") (c :: r0)) eqn:E4.
  { split; [discriminate|]. now apply (literal_good (lit "NaN")). }
  destruct (startswith (lit "Infinity") (c :: r0)) eqn:E5.
  { split; [discriminate|]. now apply (literal_good (lit "Infinity")). }
  destruct (startswith (lit "-Infinity") (c :: r0)) eqn:E6.
  { split; [discriminate|]. now apply (literal_good (lit "-Infinity")). }
  apply match_number_good.
Qed.

(** [loads] gives every text enough fuel. *)
Lemma loads_fuel (s : str) : loads s <> DecodeError OutOfFuel.
Proof.
  unfold loads. destruct (startswith [65279%N] s); [discriminate|].
  pose proof (skip_ws_le s) as Hws.
  destruct (scan_once_good (S (length s)) (skip_ws s)) as [Hne _]; [lia|].
  destruct (scan_once (S (length s)) (skip_ws s)) as [[v r]|e]; cbn [dbind];
    [|intros X; apply Hne; injection X as ->; reflexivity].
  destruct (skip_ws r); discriminate.
Qed.

(** ** The decoder reads a term and nothing beyond it *)

Lemma stops_digits_run (t : str) : stops t -> digits_run t = 0.
Proof.
  destruct t as [|c t]; [reflexivity|]. cbn [stops digits_run]. unfold num_char.
  intros H. repeat (apply orb_false_iff in H; destruct H as [H ?]). now rewrite H.
Qed.

Lemma digits_run_firstn (x t : str) :
  digits_run t = 0 ->
  digits_run (firstn (digits_run x) x ++ t) = digits_run x.
Proof.
  intros Ht. induction x as [|c x IH]; cbn [digits_run firstn app]; [exact Ht|].
  destruct (is_digit c) eqn:E; cbn [firstn app digits_run]; [|exact Ht].
  now rewrite E, IH.
Qed.

Lemma digits_run_le (x : str) : digits_run x <= length x.
Proof.
  induction x as [|c x IH]; cbn [digits_run length]; [lia|].
  destruct (is_digit c); lia.
Qed.

Lemma int_digits_le (s : str) (i : nat) : int_digits s = Some i -> i <= length s.
Proof.
  destruct s as [|c r]; cbn [int_digits length]; [discriminate|].
  pose proof (digits_run_le r).
  destruct (char_eqb c (chr "0")); [intros [= <-]; lia|].
  destruct (is_digit c); [intros [= <-]; lia|discriminate].
Qed.

Lemma int_digits_local (s : str) (i : nat) (t : str) :
  int_digits s = Some i -> digits_run t = 0 ->
  int_digits (firstn i s ++ t) = Some i.
Proof.
  destruct s as [|c r]; cbn [int_digits]; [discriminate|].
  destruct (char_eqb c (chr "0")) eqn:E0.
  - intros [= <-] _. rewrite firstn_cons. cbn [app int_digits]. now rewrite E0.
  - destruct (is_digit c) eqn:Ed; [|discriminate].
    intros [= <-] Ht. rewrite firstn_cons. cbn [app int_digits]. rewrite E0, Ed.
    now rewrite digits_run_firstn.
Qed.

Lemma int_part_le (s : str) (i : nat) : int_part s = Some i -> i <= length s.
Proof.
  destruct s as [|c r]; cbn [int_part]; [discriminate|].
  destruct (char_eqb c (chr "-")).
  - destruct (int_digits r) as [k|] eqn:E; [|discriminate]. cbn [option_map].
    intros [= <-]. apply int_digits_le in E. cbn [length]. lia.
  - apply (int_digits_le (c :: r)).
Qed.

Lemma int_part_local (s : str) (i : nat) (t : str) :
  int_part s = Some i -> digits_run t = 0 ->
  int_part (firstn i s ++ t) = Some i.
Proof.
  destruct s as [|c r]; cbn [int_part]; [discriminate|].
  destruct (char_eqb c (chr "-")) eqn:Em.
  - destruct (int_digits r) as [k|] eqn:E; [|discriminate]. cbn [option_map].
    intros [= <-] Ht. rewrite firstn_cons. cbn [app int_part]. rewrite Em.
    now rewrite (int_digits_local r k t E Ht).
  - intros H Ht. pose proof (int_digits_local (c :: r) i t H Ht) as H'.
    destruct i as [|i]; [apply int_digits_pos in H; lia|].
    rewrite firstn_cons in *. cbn [app] in *. cbn [int_part]. now rewrite Em.
Qed.

(** The fraction: none when the text does not start with a dot. *)
Lemma frac_part_none (t : str) :
  match t with [] => True | c :: _ => char_eqb c (chr ".") = false end ->
  frac_part t = 0.
Proof. destruct t as [|c t]; [reflexivity|]. cbn [frac_part]. now intros ->. Qed.

Lemma frac_part_le (x : str) : frac_part x <= length x.
Proof.
  destruct x as [|c r]; cbn [frac_part length]; [lia|].
  pose proof (digits_run_le r).
  destruct (char_eqb c (chr ".")); [|lia]. destruct (digits_run r); lia.
Qed.

Lemma frac_part_local (x : str) (f : nat) (t : str) :
  frac_part x = S f -> digits_run t = 0 ->
  frac_part (firstn (S f) x ++ t) = S f.
Proof.
  destruct x as [|c r]; cbn [frac_part]; [discriminate|].
  destruct (char_eqb c (chr ".")) eqn:E; [|discriminate].
  destruct (digits_run r) as [|n] eqn:En; [discriminate|].
  intros [= <-] Ht. rewrite firstn_cons. cbn [app frac_part]. rewrite E.
  rewrite <- En, digits_run_firstn by exact Ht. now rewrite En.
Qed.

Lemma exp_part_none (t : str) :
  match t with
  | [] => True
  | c :: _ => char_eqb c (chr "e") || char_eqb c (chr "E") = false
  end ->
  exp_part t = 0.
Proof. destruct t as [|c t]; [reflexivity|]. cbn [exp_part]. now intros ->. Qed.

Lemma exp_part_le (x : str) : exp_part x <= length x.
Proof.
  destruct x as [|c r]; cbn [exp_part length]; [lia|].
  destruct (char_eqb c (chr "e") || char_eqb c (chr "E")); [|lia].
  destruct r as [|g r']; cbn [skipn digits_run length]; [lia|].
  pose proof (digits_run_le (g :: r')). pose proof (digits_run_le r').
  destruct (char_eqb g (chr "-") || char_eqb g (chr "+")); cbn [skipn].
  - destruct (digits_run r'); cbn [length]; lia.
  - destruct (digits_run (g :: r')); cbn [length] in *; lia.
Qed.

Lemma exp_part_local (x : str) (e : nat) (t : str) :
  exp_part x = S e -> digits_run t = 0 ->
  exp_part (firstn (S e) x ++ t) = S e.
Proof.
  destruct x as [|c r]; cbn [exp_part]; [discriminate|].
  destruct (char_eqb c (chr "e") || char_eqb c (chr "E")) eqn:E; [|discriminate].
  intros H Ht. rewrite firstn_cons. cbn [app exp_part]. rewrite E.
  destruct r as [|g r'].
  - cbn [skipn digits_run] in H. discriminate.
  - destruct (char_eqb g (chr "-") || char_eqb g (chr "+")) eqn:Eg.
    + cbn [skipn] in H. destruct (digits_run r') as [|n] eqn:En; [discriminate|].
      injection H as <-. cbn [Nat.add]. rewrite firstn_cons. cbn [app].
      rewrite Eg. cbn [skipn Nat.add].
      rewrite <- En, digits_run_firstn by exact Ht. now rewrite En.
    + cbn [skipn] in H.
      destruct (digits_run (g :: r')) as [|n] eqn:En; [discriminate|].
      injection H as <-. cbn [Nat.add].
      assert (Hg : is_digit g = true).
      { cbn [digits_run] in En. destruct (is_digit g); [reflexivity|discriminate]. }
      cbn [digits_run] in En. rewrite Hg in En. injection En as En.
      rewrite firstn_cons. cbn [app]. rewrite Eg. cbn [skipn digits_run].
      rewrite Hg.
      rewrite <- En, digits_run_firstn by exact Ht. now rewrite En.
Qed.

Lemma firstn_add (i k : nat) (s : str) :
  firstn (i + k) s = firstn i s ++ firstn k (skipn i s).
Proof.
  revert s. induction i as [|i IH]; intros s; [reflexivity|].
  destruct s as [|c s]; cbn [Nat.add skipn].
  - now rewrite !firstn_nil.
  - rewrite !firstn_cons. cbn [app]. f_equal. apply IH.
Qed.

Lemma not_digit_run (c : char) (y : str) :
  is_digit c = false -> digits_run (c :: y) = 0.
Proof. intros H. cbn [digits_run]. now rewrite H. Qed.

(** A text that continues a number literal neither as a digit, nor as a
    fraction, nor as an exponent. *)
Lemma stops_frac (t : str) : stops t -> frac_part t = 0.
Proof.
  intros H. apply frac_part_none. destruct t as [|c t]; [exact I|].
  cbn [stops] in H. unfold num_char in H.
  repeat (apply orb_false_iff in H; destruct H as [H ?]). assumption.
Qed.

Lemma stops_exp (t : str) : stops t -> exp_part t = 0.
Proof.
  intros H. apply exp_part_none. destruct t as [|c t]; [exact I|].
  cbn [stops] in H. unfold num_char in H.
  repeat (apply orb_false_iff in H; destruct H as [H ?]).
  apply orb_false_iff. now split.
Qed.

Lemma frac_head (x : str) (f : nat) (y : str) :
  frac_part x = S f -> digits_run (firstn (S f) x ++ y) = 0.
Proof.
  destruct x as [|c r]; cbn [frac_part]; [discriminate|].
  destruct (char_eqb c (chr ".")) eqn:E; [|discriminate]. intros _.
  rewrite firstn_cons. cbn [app]. apply not_digit_run.
  apply char_eqb_eq in E. now subst c.
Qed.

Lemma exp_head (x : str) (e : nat) (y : str) :
  exp_part x = S e ->
  digits_run (firstn (S e) x ++ y) = 0 /\ frac_part (firstn (S e) x ++ y) = 0.
Proof.
  destruct x as [|c r]; cbn [exp_part]; [discriminate|].
  destruct (char_eqb c (chr "e") || char_eqb c (chr "E")) eqn:E; [|discriminate].
  intros _. rewrite firstn_cons. cbn [app].
  apply orb_true_iff in E. split.
  - apply not_digit_run.
    destruct E as [E|E]; apply char_eqb_eq in E; now subst c.
  - apply frac_part_none.
    destruct E as [E|E]; apply char_eqb_eq in E; now subst c.
Qed.

(** The number matcher reads the literal and one character more. *)
Lemma match_number_local (s : str) (v : json) (r : str) :
  match_number s = Decoded (v, r) ->
  exists c, s = c ++ r /\ c <> [] /\
    forall t, stops t -> match_number (c ++ t) = Decoded (v, t).
Proof.
  unfold match_number. destruct (int_part s) as [i|] eqn:Hi; [|discriminate].
  remember (frac_part (skipn i s)) as f eqn:Hf.
  remember (exp_part (skipn (i + f) s)) as e eqn:He.
  symmetry in Hf, He. intros H.
  assert (Hr : r = skipn (i + f + e) s).
  { destruct (f + e) eqn:Hfe; injection H as _ <-; [|reflexivity].
    f_equal. lia. }
  pose proof (int_part_le s i Hi) as Hile.
  destruct (int_part_pos s i Hi) as [Hipos Hs].
  pose proof (frac_part_le (skipn i s)) as Hfle. rewrite Hf in Hfle.
  pose proof (exp_part_le (skipn (i + f) s)) as Hele. rewrite He in Hele.
  rewrite length_skipn in Hfle, Hele.
  exists (firstn (i + f + e) s). split; [subst r; symmetry; apply firstn_skipn|].
  split.
  { intros Hnil. apply (f_equal (@length char)) in Hnil.
    rewrite length_firstn in Hnil. cbn [length] in Hnil. lia. }
  intros t Ht.
  pose proof (stops_digits_run t Ht) as Htd.
  assert (Hc : firstn (i + f + e) s
               = firstn i s ++ firstn f (skipn i s) ++ firstn e (skipn (i + f) s)).
  { rewrite <- Nat.add_assoc, firstn_add. f_equal.
    rewrite firstn_add, skipn_skipn. f_equal. f_equal. f_equal. lia. }
  assert (Hli : length (firstn i s) = i) by (rewrite length_firstn; lia).
  assert (Hlf : length (firstn f (skipn i s)) = f)
    by (rewrite length_firstn, length_skipn; lia).
  assert (Hle : length (firstn e (skipn (i + f) s)) = e)
    by (rewrite length_firstn, length_skipn; lia).
  (* what follows each part in the new text *)
  assert (HEt : digits_run (firstn e (skipn (i + f) s) ++ t) = 0 /\
                frac_part (firstn e (skipn (i + f) s) ++ t) = 0 /\
                exp_part (firstn e (skipn (i + f) s) ++ t) = e).
  { destruct e as [|e'].
    - cbn [firstn app]. repeat split; auto using stops_frac, stops_exp.
    - destruct (exp_head (skipn (i + f) s) e' t He) as [H1 H2].
      repeat split; try assumption.
      now apply exp_part_local. }
  destruct HEt as (HEd & HEf & HEe).
  remember (firstn e (skipn (i + f) s)) as E eqn:HE.
  assert (HFt : digits_run (firstn f (skipn i s) ++ E ++ t) = 0 /\
                frac_part (firstn f (skipn i s) ++ E ++ t) = f).
  { destruct f as [|f'].
    - cbn [firstn app]. now split.
    - split; [now apply frac_head|]. now apply frac_part_local. }
  destruct HFt as (HFd & HFf).
  remember (firstn f (skipn i s)) as F eqn:HF.
  rewrite Hc, <- !app_assoc.
  rewrite (int_part_local s i _ Hi HFd).
  assert (Hs1 : skipn i (firstn i s ++ F ++ E ++ t) = F ++ E ++ t).
  { rewrite skipn_app, Hli, Nat.sub_diag, skipn_all2 by lia. reflexivity. }
  rewrite Hs1, HFf.
  assert (Hs2 : skipn (i + f) (firstn i s ++ F ++ E ++ t) = E ++ t).
  { rewrite Nat.add_comm, <- skipn_skipn, Hs1.
    rewrite skipn_app, Hlf, Nat.sub_diag, skipn_all2 by lia. reflexivity. }
  rewrite Hs2, HEe.
  destruct (f + e) eqn:Hfe.
  - assert (f = 0) by lia. assert (e = 0) by lia.
    assert (HF0 : F = []) by (apply length_zero_iff_nil; lia).
    assert (HE0 : E = []) by (apply length_zero_iff_nil; lia).
    injection H as <- _. rewrite HF0, HE0. cbn [app].
    rewrite firstn_app, Hli, Nat.sub_diag, firstn_all2 by lia.
    cbn [firstn]. rewrite app_nil_r. reflexivity.
  - injection H as <- _.
    assert (Hlen : length (firstn i s ++ F ++ E) = i + f + e)
      by (rewrite !length_app; lia).
    replace (firstn i s ++ F ++ E ++ t) with ((firstn i s ++ F ++ E) ++ t)
      by (rewrite <- !app_assoc; reflexivity).
    rewrite firstn_app, Hlen, Nat.sub_diag, firstn_all2 by lia.
    rewrite skipn_app, Hlen, Nat.sub_diag, skipn_all2 by lia.
    cbn [firstn skipn app]. rewrite app_nil_r. rewrite Hc. reflexivity.
Qed.

Lemma scanstring_quote (r : str) : scanstring (QUOTE :: r) = Decoded ([], r).
Proof. reflexivity. Qed.

Lemma scanstring_plain (c : char) (r : str) :
  char_eqb c QUOTE = false -> char_eqb c BACKSLASH = false -> (c <? 32)%N = false ->
  scanstring (c :: r) = push c (scanstring r).
Proof. intros H1 H2 H3. cbn [scanstring]. now rewrite H1, H2, H3. Qed.

Lemma scanstring_simple_escape (e c' : char) (r1 : str) :
  char_eqb e (chr "u") = false -> unescape e = Some c' ->
  scanstring (BACKSLASH :: e :: r1) = push c' (scanstring r1).
Proof. intros H1 H2. cbn [scanstring]. now rewrite H1, H2. Qed.

Lemma scanstring_unicode_escape (h1 h2 h3 h4 y : char) (r6 : str) (u : N) :
  hex4 h1 h2 h3 h4 = Some u ->
  scanstring (BACKSLASH :: chr "u" :: h1 :: h2 :: h3 :: h4 :: y :: r6) =
    if is_high_surrogate u then
      match low_lookahead (y :: r6) with
      | BadEscape => DecodeError InvalidUnicodeEscape
      | NoPair => push u (scanstring (y :: r6))
      | Pair u2 => push (join_surrogates u u2) (scanstring (skipn 6 (y :: r6)))
      end
    else push u (scanstring (y :: r6)).
Proof.
  intros Hu. cbn [scanstring]. change (char_eqb BACKSLASH QUOTE) with false.
  change (char_eqb BACKSLASH BACKSLASH) with true.
  change (char_eqb (chr "u") (chr "u")) with true. cbv iota. rewrite Hu.
  destruct (is_high_surrogate u); [|reflexivity].
  unfold low_lookahead.
  destruct r6 as [|x [|g1 [|g2 [|g3 [|g4 [|z r12]]]]]]; try reflexivity.
  destruct (char_eqb y BACKSLASH && char_eqb x (chr "u")); [|reflexivity].
  destruct (hex4 g1 g2 g3 g4) as [u2|]; [|reflexivity].
  destruct (is_low_surrogate u2); reflexivity.
Qed.

(** How a string literal was scanned: the last step of [scanstring] on a
    text it accepts. *)
Lemma scanstring_inv (s x r : str) :
  scanstring s = Decoded (x, r) ->
  (s = QUOTE :: r /\ x = []) \/
  (exists c r1 x', s = c :: r1 /\ char_eqb c QUOTE = false /\
      char_eqb c BACKSLASH = false /\ (c <? 32)%N = false /\
      scanstring r1 = Decoded (x', r) /\ x = c :: x') \/
  (exists e c' r1 x', s = BACKSLASH :: e :: r1 /\ char_eqb e (chr "u") = false /\
      unescape e = Some c' /\ scanstring r1 = Decoded (x', r) /\ x = c' :: x') \/
  (exists h1 h2 h3 h4 y r6 u x',
      s = BACKSLASH :: chr "u" :: h1 :: h2 :: h3 :: h4 :: y :: r6 /\
      hex4 h1 h2 h3 h4 = Some u /\
      (is_high_surrogate u = false \/ low_lookahead (y :: r6) = NoPair) /\
      scanstring (y :: r6) = Decoded (x', r) /\ x = u :: x') \/
  (exists h1 h2 h3 h4 b e g1 g2 g3 g4 y r12 u u2 x',
      s = BACKSLASH :: chr "u" :: h1 :: h2 :: h3 :: h4
            :: b :: e :: g1 :: g2 :: g3 :: g4 :: y :: r12 /\
      hex4 h1 h2 h3 h4 = Some u /\ is_high_surrogate u = true /\
      low_lookahead (b :: e :: g1 :: g2 :: g3 :: g4 :: y :: r12) = Pair u2 /\
      scanstring (y :: r12) = Decoded (x', r) /\ x = join_surrogates u u2 :: x').
Proof.
  destruct s as [|c r0]; [discriminate|].
  destruct (char_eqb c QUOTE) eqn:Eq.
  { apply char_eqb_eq in Eq. subst c. rewrite scanstring_quote.
    intros [= <- <-]. now left. }
  destruct (char_eqb c BACKSLASH) eqn:Eb.
  2: { destruct (c <? 32)%N eqn:Ec.
       { cbn [scanstring]. rewrite Eq, Eb, Ec. discriminate. }
       rewrite (scanstring_plain c r0 Eq Eb Ec). intros H.
       destruct (scanstring r0) as [[x' r']|] eqn:E; [|discriminate].
       cbn [push] in H. injection H as <- <-.
       right; left. exists c, r0, x'. repeat split; assumption. }
  apply char_eqb_eq in Eb. subst c.
  destruct r0 as [|e r1]; [discriminate|].
  destruct (char_eqb e (chr "u")) eqn:Eu.
  2: { destruct (unescape e) as [c'|] eqn:Ee.
       2: { cbn [scanstring]. change (char_eqb BACKSLASH QUOTE) with false.
            change (char_eqb BACKSLASH BACKSLASH) with true. cbv iota.
            rewrite Eu, Ee. discriminate. }
       rewrite (scanstring_simple_escape e c' r1 Eu Ee). intros H.
       destruct (scanstring r1) as [[x' r']|] eqn:E; [|discriminate].
       cbn [push] in H. injection H as <- <-.
       right; right; left. exists e, c', r1, x'. repeat split; assumption. }
  apply char_eqb_eq in Eu. subst e.
  destruct r1 as [|h1 [|h2 [|h3 [|h4 [|y r6]]]]]; try discriminate.
  destruct (hex4 h1 h2 h3 h4) as [u|] eqn:Hu.
  2: { cbn [scanstring]. change (char_eqb BACKSLASH QUOTE) with false.
       change (char_eqb BACKSLASH BACKSLASH) with true.
       change (char_eqb (chr "u") (chr "u")) with true. cbv iota.
       rewrite Hu. discriminate. }
  rewrite (scanstring_unicode_escape h1 h2 h3 h4 y r6 u Hu).
  destruct (is_high_surrogate u) eqn:Hh.
  2: { intros H. destruct (scanstring (y :: r6)) as [[x' r']|] eqn:E; [|discriminate].
       cbn [push] in H. injection H as <- <-.
       right; right; right; left. exists h1, h2, h3, h4, y, r6, u, x'.
       repeat split; try assumption. now left. }
  destruct (low_lookahead (y :: r6)) as [| |u2] eqn:Hl; [|discriminate|].
  - intros H. destruct (scanstring (y :: r6)) as [[x' r']|] eqn:E; [|discriminate].
    cbn [push] in H. injection H as <- <-.
    right; right; right; left. exists h1, h2, h3, h4, y, r6, u, x'.
    repeat split; try assumption. now right.
  - destruct r6 as [|e [|g1 [|g2 [|g3 [|g4 [|z r12]]]]]]; try discriminate.
    cbn [skipn]. intros H.
    destruct (scanstring (z :: r12)) as [[x' r']|] eqn:E; [|discriminate].
    cbn [push] in H. injection H as <- <-.
    right; right; right; right.
    exists h1, h2, h3, h4, y, e, g1, g2, g3, g4, z, r12, u, u2, x'.
    repeat split; assumption.
Qed.

Lemma low_lookahead_other (b : char) (z : str) :
  char_eqb b BACKSLASH = false -> low_lookahead (b :: z) = NoPair.
Proof.
  intros H. unfold low_lookahead.
  destruct z as [|x [|g1 [|g2 [|g3 [|g4 [|y r]]]]]]; try reflexivity.
  now rewrite H.
Qed.

Lemma low_lookahead_simple (b e : char) (z : str) :
  char_eqb e (chr "u") = false -> low_lookahead (b :: e :: z) = NoPair.
Proof.
  intros H. unfold low_lookahead.
  destruct z as [|g1 [|g2 [|g3 [|g4 [|y r]]]]]; try reflexivity.
  now rewrite H, andb_false_r.
Qed.

(** The lookahead reads nothing beyond a string literal that is complete. *)
Lemma low_lookahead_local (c5 x' r t : str) :
  scanstring c5 = Decoded (x', []) ->
  low_lookahead (c5 ++ t) = low_lookahead (c5 ++ r).
Proof.
  intros H. apply scanstring_inv in H.
  destruct H as [[-> _]|[(c & r1 & y & -> & _ & Hb & _)|[(e & c' & r1 & y & -> & He & _)
                |[(h1 & h2 & h3 & h4 & y & r6 & u & z & -> & _)
                |(h1 & h2 & h3 & h4 & b & e & g1 & g2 & g3 & g4 & y & r12 & u & u2 & z
                  & -> & _)]]]].
  - cbn [app]. now rewrite !low_lookahead_other.
  - cbn [app]. now rewrite !low_lookahead_other.
  - cbn [app]. now rewrite !low_lookahead_simple.
  - reflexivity.
  - reflexivity.
Qed.

Lemma scanstring_local_bounded (n : nat) (s x r : str) :
  length s <= n -> scanstring s = Decoded (x, r) ->
  exists c, s = c ++ r /\ c <> [] /\
    forall t, scanstring (c ++ t) = Decoded (x, t).
Proof.
  revert s x r. induction n as [|n IH]; intros s x r Hlen H.
  { destruct s; [discriminate|cbn [length] in Hlen; lia]. }
  pose proof H as Hinv. apply scanstring_inv in Hinv.
  destruct Hinv as [[-> ->]|[(c & r1 & x' & -> & Hq & Hb & Hc & Hr1 & ->)
    |[(e & c' & r1 & x' & -> & He & Hun & Hr1 & ->)
    |[(h1 & h2 & h3 & h4 & y & r6 & u & x' & -> & Hu & Hno & Hr5 & ->)
    |(h1 & h2 & h3 & h4 & b & e & g1 & g2 & g3 & g4 & y & r12 & u & u2 & x'
      & -> & Hu & Hh & Hl & Hr11 & ->)]]]].
  - exists [QUOTE]. split; [reflexivity|]. split; [discriminate|].
    intros t. apply scanstring_quote.
  - cbn [length] in Hlen.
    destruct (IH r1 x' r) as (c1 & -> & _ & Hc1); [lia|exact Hr1|].
    exists (c :: c1). split; [reflexivity|]. split; [discriminate|].
    intros t. cbn [app]. rewrite (scanstring_plain c _ Hq Hb Hc), Hc1. reflexivity.
  - cbn [length] in Hlen.
    destruct (IH r1 x' r) as (c1 & -> & _ & Hc1); [lia|exact Hr1|].
    exists (BACKSLASH :: e :: c1). split; [reflexivity|]. split; [discriminate|].
    intros t. cbn [app]. rewrite (scanstring_simple_escape e c' _ He Hun), Hc1.
    reflexivity.
  - cbn [length] in Hlen.
    destruct (IH (y :: r6) x' r) as (c5 & Hc5 & Hne & Hloc);
      [cbn [length]; lia|exact Hr5|].
    exists (BACKSLASH :: chr "u" :: h1 :: h2 :: h3 :: h4 :: c5).
    split; [cbn [app]; now rewrite Hc5|]. split; [discriminate|].
    intros t. cbn [app].
    destruct c5 as [|y' c5']; [congruence|].
    cbn [app]. rewrite (scanstring_unicode_escape h1 h2 h3 h4 y' _ u Hu).
    change (y' :: c5' ++ t) with ((y' :: c5') ++ t). rewrite Hloc.
    destruct (is_high_surrogate u) eqn:Hh; [|reflexivity].
    destruct Hno as [Hno|Hno]; [discriminate|].
    pose proof (Hloc []) as Hnil. rewrite app_nil_r in Hnil.
    rewrite (low_lookahead_local (y' :: c5') x' r t Hnil), <- Hc5, Hno.
    reflexivity.
  - cbn [length] in Hlen.
    destruct (IH (y :: r12) x' r) as (c11 & Hc11 & Hne & Hloc);
      [cbn [length]; lia|exact Hr11|].
    exists (BACKSLASH :: chr "u" :: h1 :: h2 :: h3 :: h4
              :: b :: e :: g1 :: g2 :: g3 :: g4 :: c11).
    split; [cbn [app]; now rewrite Hc11|]. split; [discriminate|].
    intros t. cbn [app].
    rewrite (scanstring_unicode_escape h1 h2 h3 h4 b _ u Hu), Hh.
    destruct c11 as [|y' c11']; [congruence|].
    replace (low_lookahead (b :: e :: g1 :: g2 :: g3 :: g4 :: (y' :: c11') ++ t))
      with (Pair u2) by (rewrite <- Hl; reflexivity).
    cbn [skipn]. rewrite Hloc. reflexivity.
Qed.

(** [scanstring] reads nothing beyond the closing quote. *)
Lemma scanstring_local (s x r : str) :
  scanstring s = Decoded (x, r) ->
  exists c, s = c ++ r /\ c <> [] /\
    forall t, scanstring (c ++ t) = Decoded (x, t).
Proof. apply (scanstring_local_bounded (length s)). lia. Qed.

Lemma skip_ws_head (s : str) : no_ws_head (skip_ws s).
Proof.
  induction s as [|c s IH]; cbn [skip_ws]; [exact I|].
  destruct (is_json_ws c) eqn:E; [exact IH|exact E].
Qed.

Lemma skip_ws_id (z : str) : no_ws_head z -> skip_ws z = z.
Proof. destruct z as [|c z]; [reflexivity|]. cbn [no_ws_head skip_ws]. now intros ->. Qed.

(** The whitespace [skip_ws] drops. *)
Lemma skip_ws_split (s : str) :
  exists w, s = w ++ skip_ws s /\
    Forall (fun c => is_json_ws c = true) w /\
    forall z, no_ws_head z -> skip_ws (w ++ z) = z.
Proof.
  induction s as [|c s (w & Hs & Hw & Hz)]; cbn [skip_ws].
  - exists []. repeat split; [constructor|]. intros z. apply skip_ws_id.
  - destruct (is_json_ws c) eqn:E.
    + exists (c :: w). cbn [app]. split; [now f_equal|]. split; [now constructor|].
      intros z Hnz. cbn [skip_ws]. rewrite E. now apply Hz.
    + exists []. repeat split; [constructor|]. intros z. apply skip_ws_id.
Qed.

Lemma ws_not_num (c : char) : is_json_ws c = true -> num_char c = false.
Proof.
  unfold is_json_ws. intros H.
  repeat (apply orb_true_iff in H; destruct H as [H|H]);
    apply N.eqb_eq in H; subst c; reflexivity.
Qed.

(** After whitespace and a delimiter no number literal goes on. *)
Lemma stops_after_ws (w : str) (c : char) (z : str) :
  Forall (fun c => is_json_ws c = true) w -> num_char c = false ->
  stops (w ++ c :: z).
Proof.
  intros Hw Hc. destruct w as [|x w]; cbn [app stops]; [exact Hc|].
  inversion Hw; subst. now apply ws_not_num.
Qed.

Lemma no_ws_head_app (c : str) (r t : str) :
  c <> [] -> no_ws_head (c ++ r) -> no_ws_head (c ++ t).
Proof. destruct c as [|x c]; [congruence|]. intros _ H. exact H. Qed.

Ltac app_norm :=
  repeat (rewrite <- app_assoc || rewrite <- app_comm_cons); cbn [app].

Section Local.

Variable scan : str -> decoded (json * str).
Hypothesis Hscan : local_scan scan.

Lemma array_items_local (fuel : nat) (acc : list json) (s : str) (v : json) (r : str) :
  array_items scan fuel acc s = Decoded (v, r) ->
  exists c, s = c ++ r /\ c <> [] /\
    forall t, array_items scan fuel acc (c ++ t) = Decoded (v, t).
Proof.
  revert acc s. induction fuel as [|fuel IH]; intros acc s; cbn [array_items];
    [discriminate|].
  destruct (scan s) as [[v0 r0]|] eqn:E0; cbn [dbind]; [|discriminate].
  destruct (Hscan s v0 r0 E0) as (c0 & -> & Hc0 & Hloc).
  destruct (skip_ws_split r0) as (w & Hr0 & Hw & Hskip).
  pose proof (skip_ws_head r0) as Hhead.
  destruct (skip_ws r0) as [|c1 r1] eqn:E1; [discriminate|].
  cbn [no_ws_head] in Hhead.
  destruct (char_eqb c1 (chr "]")) eqn:Eclose.
  - intros H. injection H as <- <-.
    exists (c0 ++ w ++ [c1]). split; [rewrite Hr0, <- !app_assoc; reflexivity|].
    split; [intros Hnil; apply app_eq_nil in Hnil; tauto|].
    intros t. rewrite <- !app_assoc. cbn [app].
    rewrite (Hloc (w ++ c1 :: t)).
    + cbn [dbind]. rewrite (Hskip (c1 :: t) Hhead), Eclose. reflexivity.
    + apply stops_after_ws; [exact Hw|].
      apply char_eqb_eq in Eclose. now subst c1.
  - destruct (char_eqb c1 (chr ",")) eqn:Ecomma; [|discriminate].
    intros H. destruct (IH _ _ H) as (c2 & Hc2 & Hne & Hloc2).
    destruct (skip_ws_split r1) as (w' & Hr1 & Hw' & Hskip').
    exists (c0 ++ w ++ [c1] ++ w' ++ c2). split.
    { rewrite Hr0, Hr1, Hc2, <- !app_assoc. reflexivity. }
    split; [intros Hnil; apply app_eq_nil in Hnil; tauto|].
    intros t. rewrite <- !app_assoc. cbn [app].
    rewrite (Hloc (w ++ c1 :: w' ++ c2 ++ t)).
    + cbn [dbind]. rewrite (Hskip (c1 :: w' ++ c2 ++ t) Hhead), Eclose, Ecomma.
      rewrite (Hskip' (c2 ++ t)); [apply Hloc2|].
      apply (no_ws_head_app c2 r t Hne). rewrite <- Hc2. apply skip_ws_head.
    + apply stops_after_ws; [exact Hw|].
      apply char_eqb_eq in Ecomma. now subst c1.
Qed.

Lemma parse_array_local (fuel : nat) (s : str) (v : json) (r : str) :
  parse_array scan fuel s = Decoded (v, r) ->
  exists c, s = c ++ r /\
    forall t, parse_array scan fuel (c ++ t) = Decoded (v, t).
Proof.
  unfold parse_array.
  destruct (skip_ws_split s) as (w & Hs & Hw & Hskip).
  pose proof (skip_ws_head s) as Hhead.
  destruct (skip_ws s) as [|c1 r1] eqn:E1.
  - intros H. destruct (array_items_local _ _ _ _ _ H) as (c & Hc & Hne & _).
    destruct c; [congruence|discriminate].
  - cbn [no_ws_head] in Hhead. destruct (char_eqb c1 (chr "]")) eqn:Eclose.
    + intros H. injection H as <- <-.
      exists (w ++ [c1]). split; [rewrite Hs, <- app_assoc; reflexivity|].
      intros t. rewrite <- app_assoc. cbn [app].
      rewrite (Hskip (c1 :: t) Hhead), Eclose. reflexivity.
    + intros H. destruct (array_items_local _ _ _ _ _ H) as (c & Hc & Hne & Hloc).
      exists (w ++ c). split; [rewrite Hs, Hc, <- app_assoc; reflexivity|].
      intros t. rewrite <- app_assoc.
      destruct c as [|x c]; [congruence|]. injection Hc as <- Hc.
      cbn [app]. rewrite (Hskip (c1 :: c ++ t) Hhead), Eclose.
      apply (Hloc t).
Qed.

Lemma object_items_local (fuel : nat) (pairs : list (str * json)) (s : str)
  (v : json) (r : str) :
  object_items scan fuel pairs s = Decoded (v, r) ->
  exists c, s = c ++ r /\ c <> [] /\
    (exists body, c = body ++ [RBRACE]) /\
    forall t, object_items scan fuel pairs (c ++ t) = Decoded (v, t).
Proof.
  revert pairs s. induction fuel as [|fuel IH]; intros pairs s; cbn [object_items];
    [discriminate|].
  destruct s as [|q s1]; [discriminate|].
  destruct (char_eqb q QUOTE) eqn:Eq; [|discriminate].
  destruct (scanstring s1) as [[key r0]|] eqn:Ekey; cbn [dbind]; [|discriminate].
  destruct (scanstring_local s1 key r0 Ekey) as (ck & -> & _ & Hkey).
  destruct (skip_ws_split r0) as (w0 & Hr0 & Hw0 & Hskip0).
  pose proof (skip_ws_head r0) as Hhead0.
  destruct (skip_ws r0) as [|c1 r1] eqn:E1; [discriminate|].
  cbn [no_ws_head] in Hhead0.
  destruct (char_eqb c1 (chr ":")) eqn:Ecolon; [|discriminate].
  destruct (skip_ws_split r1) as (w1 & Hr1 & Hw1 & Hskip1).
  pose proof (skip_ws_head r1) as Hhead1.
  destruct (scan (skip_ws r1)) as [[val r2]|] eqn:Eval; cbn [dbind]; [|discriminate].
  destruct (Hscan _ _ _ Eval) as (cv & Hcv & Hcvne & Hval).
  destruct (skip_ws_split r2) as (w2 & Hr2 & Hw2 & Hskip2).
  pose proof (skip_ws_head r2) as Hhead2.
  destruct (skip_ws r2) as [|c3 r3] eqn:E3; [discriminate|].
  cbn [no_ws_head] in Hhead2.
  assert (Hcvhead : forall z, no_ws_head (cv ++ z)).
  { intros z. apply (no_ws_head_app cv r2 z Hcvne). now rewrite <- Hcv. }
  destruct (char_eqb c3 RBRACE) eqn:Eclose.
  - intros H. injection H as <- <-.
    exists (q :: ck ++ w0 ++ [c1] ++ w1 ++ cv ++ w2 ++ [c3]). split.
    { rewrite Hr0, Hr1, Hcv, Hr2. app_norm. reflexivity. }
    split; [discriminate|]. split.
    { exists (q :: ck ++ w0 ++ [c1] ++ w1 ++ cv ++ w2).
      apply char_eqb_eq in Eclose. subst c3. app_norm. reflexivity. }
    intros t. app_norm. rewrite Eq, Hkey. cbn [dbind].
    rewrite (Hskip0 (c1 :: w1 ++ cv ++ w2 ++ c3 :: t) Hhead0), Ecolon.
    rewrite (Hskip1 (cv ++ w2 ++ c3 :: t) (Hcvhead _)).
    rewrite (Hval (w2 ++ c3 :: t)).
    + cbn [dbind]. rewrite (Hskip2 (c3 :: t) Hhead2), Eclose. reflexivity.
    + apply stops_after_ws; [exact Hw2|].
      apply char_eqb_eq in Eclose. now subst c3.
  - destruct (char_eqb c3 (chr ",")) eqn:Ecomma; [|discriminate].
    intros H. destruct (IH _ _ H) as (c4 & Hc4 & Hne4 & (body4 & Hbody4) & Hloc4).
    destruct (skip_ws_split r3) as (w3 & Hr3 & Hw3 & Hskip3).
    exists (q :: ck ++ w0 ++ [c1] ++ w1 ++ cv ++ w2 ++ [c3] ++ w3 ++ c4). split.
    { rewrite Hr0, Hr1, Hcv, Hr2, Hr3, Hc4. app_norm. reflexivity. }
    split; [discriminate|]. split.
    { exists (q :: ck ++ w0 ++ [c1] ++ w1 ++ cv ++ w2 ++ [c3] ++ w3 ++ body4).
      rewrite Hbody4. app_norm. reflexivity. }
    intros t. app_norm. rewrite Eq, Hkey. cbn [dbind].
    rewrite (Hskip0 (c1 :: w1 ++ cv ++ w2 ++ c3 :: w3 ++ c4 ++ t) Hhead0), Ecolon.
    rewrite (Hskip1 (cv ++ w2 ++ c3 :: w3 ++ c4 ++ t) (Hcvhead _)).
    rewrite (Hval (w2 ++ c3 :: w3 ++ c4 ++ t)).
    + cbn [dbind]. rewrite (Hskip2 (c3 :: w3 ++ c4 ++ t) Hhead2), Eclose, Ecomma.
      rewrite (Hskip3 (c4 ++ t)); [apply Hloc4|].
      apply (no_ws_head_app c4 r t Hne4). rewrite <- Hc4. apply skip_ws_head.
    + apply stops_after_ws; [exact Hw2|].
      apply char_eqb_eq in Ecomma. now subst c3.
Qed.

Lemma parse_object_local (fuel : nat) (s : str) (v : json) (r : str) :
  parse_object scan fuel s = Decoded (v, r) ->
  exists body, s = (body ++ [RBRACE]) ++ r /\
    forall t, parse_object scan fuel ((body ++ [RBRACE]) ++ t) = Decoded (v, t).
Proof.
  unfold parse_object.
  destruct (skip_ws_split s) as (w & Hs & Hw & Hskip).
  pose proof (skip_ws_head s) as Hhead.
  destruct (skip_ws s) as [|c1 r1] eqn:E1.
  - intros H. destruct (object_items_local _ _ _ _ _ H) as (c & Hc & Hne & _).
    destruct c; [congruence|discriminate].
  - cbn [no_ws_head] in Hhead. destruct (char_eqb c1 RBRACE) eqn:Eclose.
    + intros H. injection H as <- <-.
      apply char_eqb_eq in Eclose. subst c1.
      exists w. split; [rewrite Hs, <- app_assoc; reflexivity|].
      intros t. rewrite <- app_assoc. cbn [app].
      rewrite (Hskip (RBRACE :: t) Hhead). reflexivity.
    + intros H.
      destruct (object_items_local _ _ _ _ _ H) as (c & Hc & Hne & (body & Hb) & Hloc).
      exists (w ++ body). split; [rewrite Hs, Hc, Hb, <- !app_assoc; reflexivity|].
      intros t. rewrite <- !app_assoc. rewrite (app_assoc body), <- Hb.
      destruct c as [|x c]; [congruence|]. injection Hc as <- Hc.
      cbn [app]. rewrite (Hskip (c1 :: c ++ t) Hhead), Eclose.
      apply (Hloc t).
Qed.

End Local.

Lemma int_digits_head (z : str) (k : nat) :
  int_digits z = Some k -> exists d z', z = d :: z' /\ is_digit d = true.
Proof.
  destruct z as [|d z']; cbn [int_digits]; [discriminate|].
  destruct (char_eqb d (chr "0")) eqn:E0.
  - intros _. exists d, z'. split; [reflexivity|].
    apply char_eqb_eq in E0. now subst d.
  - destruct (is_digit d) eqn:Ed; [|discriminate]. intros _. now exists d, z'.
Qed.

Lemma number_head (c : str) (v : json) (r : str) :
  match_number c = Decoded (v, r) -> number_headed c.
Proof.
  unfold match_number. destruct (int_part c) as [i|] eqn:Hi; [|discriminate].
  intros _. destruct c as [|c0 z]; [discriminate|]. cbn [int_part] in Hi.
  exists c0, z. split; [reflexivity|].
  destruct (char_eqb c0 (chr "-")) eqn:Em.
  - right. apply char_eqb_eq in Em. split; [exact Em|].
    destruct (int_digits z) as [k|] eqn:E; [|discriminate].
    now apply (int_digits_head z k).
  - left. destruct (int_digits_head (c0 :: z) i Hi) as (d & z' & Heq & Hd).
    now injection Heq as -> _.
Qed.

Lemma digit_neq (p0 c0 : char) :
  is_digit c0 = true -> is_digit p0 = false -> char_eqb p0 c0 = false.
Proof.
  intros Hc Hp. apply char_eqb_neq. intros ->. congruence.
Qed.

Lemma startswith_head_neq (p0 : char) (p : str) (c0 : char) (z : str) :
  char_eqb p0 c0 = false -> startswith (p0 :: p) (c0 :: z) = false.
Proof. intros H. cbn [startswith]. now rewrite H. Qed.

(** No named constant starts like a number literal. *)
Lemma constant_not_number (c t : str) :
  number_headed c ->
  startswith (lit "null") (c ++ t) = false /\
  startswith (lit "true") (c ++ t) = false /\
  startswith (lit "false") (c ++ t) = false /\
  startswith (lit "NaN") (c ++ t) = false /\
  startswith (lit "Infinity") (c ++ t) = false /\
  startswith (lit "-Infinity") (c ++ t) = false.
Proof.
  intros (c0 & z & -> & [Hd|(-> & d & z' & -> & Hd)]); cbn [app].
  - repeat split; apply startswith_head_neq, (digit_neq _ c0 Hd); reflexivity.
  - repeat split; try reflexivity.
    change (lit "-Infinity") with (chr "-" :: chr "I" :: lit "nfinity").
    cbn [startswith]. change (char_eqb (chr "-") (chr "-")) with true.
    cbn [andb]. rewrite (digit_neq (chr "I") d Hd eq_refl). reflexivity.
Qed.

Lemma scan_once_local (fuel : nat) : local_scan (scan_once fuel).
Proof.
  induction fuel as [|fuel IH]; intros s v r; cbn [scan_once]; [discriminate|].
  destruct s as [|c0 r0]; [discriminate|].
  destruct (char_eqb c0 QUOTE) eqn:Eq.
  { destruct (scanstring r0) as [[x r']|] eqn:E; cbn [dbind]; [|discriminate].
    intros H. injection H as <- <-.
    destruct (scanstring_local r0 x r' E) as (ck & -> & _ & Hloc).
    exists (c0 :: ck). split; [reflexivity|]. split; [discriminate|].
    intros t _. cbn [app scan_once]. now rewrite Eq, Hloc. }
  destruct (char_eqb c0 LBRACE) eqn:El.
  { intros H. destruct (parse_object_local _ IH _ _ _ _ H) as (body & -> & Hloc).
    exists (c0 :: body ++ [RBRACE]). split; [reflexivity|]. split; [discriminate|].
    intros t _. cbn [app scan_once]. rewrite Eq, El. apply Hloc. }
  destruct (char_eqb c0 (chr "[")) eqn:Ea.
  { intros H. destruct (parse_array_local _ IH _ _ _ _ H) as (c & -> & Hloc).
    exists (c0 :: c). split; [reflexivity|]. split; [discriminate|].
    intros t _. cbn [app scan_once]. rewrite Eq, El, Ea. apply Hloc. }
  destruct (startswith (lit "null") (c0 :: r0)) eqn:E1.
  { intros H. injection H as <- <-. exists (lit "null").
    split; [apply (startswith_app _ _ E1)|]. split; [discriminate|]. reflexivity. }
  destruct (startswith (lit "true") (c0 :: r0)) eqn:E2.
  { intros H. injection H as <- <-. exists (lit "true").
    split; [apply (startswith_app _ _ E2)|]. split; [discriminate|]. reflexivity. }
  destruct (startswith (lit "false") (c0 :: r0)) eqn:E3.
  { intros H. injection H as <- <-. exists (lit "false").
    split; [apply (startswith_app _ _ E3)|]. split; [discriminate|]. reflexivity. }
  destruct (startswith (lit "NaN") (c0 :: r0)) eqn:E4.
  { intros H. injection H as <- <-. exists (lit "NaN").
    split; [apply (startswith_app _ _ E4)|]. split; [discriminate|]. reflexivity. }
  destruct (startswith (lit "Infinity") (c0 :: r0)) eqn:E5.
  { intros H. injection H as <- <-. exists (lit "Infinity").
    split; [apply (startswith_app _ _ E5)|]. split; [discriminate|]. reflexivity. }
  destruct (startswith (lit "-Infinity") (c0 :: r0)) eqn:E6.
  { intros H. injection H as <- <-. exists (lit "-Infinity").
    split; [apply (startswith_app _ _ E6)|]. split; [discriminate|]. reflexivity. }
  intros H. destruct (match_number_local _ _ _ H) as (c & Hc & Hne & Hloc).
  exists c. split; [exact Hc|]. split; [exact Hne|].
  intros t Ht.
  pose proof (Hloc [] I) as Hnil. rewrite app_nil_r in Hnil.
  destruct (constant_not_number c t (number_head c v [] Hnil))
    as (N1 & N2 & N3 & N4 & N5 & N6).
  destruct c as [|c0' z]; [congruence|]. injection Hc as <- Hz.
  cbn [app] in *. cbn [scan_once]. rewrite Eq, El, Ea, N1, N2, N3, N4, N5, N6.
  now apply Hloc.
Qed.

(** ** More fuel changes nothing *)

Section Mono.

Variables scan scan' : str -> decoded (json * str).
Hypothesis Hmono : mono_scan scan scan'.

Lemma scan_mono_cases (s : str) :
  scan s = DecodeError OutOfFuel \/ scan' s = scan s.
Proof.
  destruct (scan s) as [[v r]|e] eqn:E.
  - right. apply (Hmono s _ E). discriminate.
  - destruct e; try (right; apply (Hmono s _ E); discriminate). now left.
Qed.

Lemma array_items_mono (fuel fuel' : nat) (acc : list json) (s : str) :
  fuel <= fuel' ->
  array_items scan fuel acc s <> DecodeError OutOfFuel ->
  array_items scan' fuel' acc s = array_items scan fuel acc s.
Proof.
  revert fuel' acc s. induction fuel as [|fuel IH]; intros fuel' acc s Hle;
    cbn [array_items]; [congruence|].
  destruct fuel' as [|fuel']; [lia|]. cbn [array_items].
  destruct (scan_mono_cases s) as [E|E]; rewrite E;
    [cbn [dbind]; intros Hc; exfalso; now apply Hc|].
  destruct (scan s) as [[v r]|e]; cbn [dbind]; [|reflexivity].
  destruct (skip_ws r) as [|c r']; [reflexivity|].
  destruct (char_eqb c (chr "]")); [reflexivity|].
  destruct (char_eqb c (chr ",")); [|reflexivity].
  apply IH. lia.
Qed.

Lemma object_items_mono (fuel fuel' : nat) (pairs : list (str * json)) (s : str) :
  fuel <= fuel' ->
  object_items scan fuel pairs s <> DecodeError OutOfFuel ->
  object_items scan' fuel' pairs s = object_items scan fuel pairs s.
Proof.
  revert fuel' pairs s. induction fuel as [|fuel IH]; intros fuel' pairs s Hle;
    cbn [object_items]; [congruence|].
  destruct fuel' as [|fuel']; [lia|]. cbn [object_items].
  destruct s as [|q s1]; [reflexivity|].
  destruct (char_eqb q QUOTE); [|reflexivity].
  destruct (scanstring s1) as [[key r]|e]; cbn [dbind]; [|reflexivity].
  destruct (skip_ws r) as [|c r1]; [reflexivity|].
  destruct (char_eqb c (chr ":")); [|reflexivity].
  destruct (scan_mono_cases (skip_ws r1)) as [E|E]; rewrite E;
    [cbn [dbind]; intros Hc; exfalso; now apply Hc|].
  destruct (scan (skip_ws r1)) as [[val r2]|e]; cbn [dbind]; [|reflexivity].
  destruct (skip_ws r2) as [|c' r3]; [reflexivity|].
  destruct (char_eqb c' RBRACE); [reflexivity|].
  destruct (char_eqb c' (chr ",")); [|reflexivity].
  apply IH. lia.
Qed.

End Mono.

Lemma scan_once_mono (fuel fuel' : nat) :
  fuel <= fuel' -> mono_scan (scan_once fuel) (scan_once fuel').
Proof.
  revert fuel'. induction fuel as [|fuel IH]; intros fuel' Hle s res Hres Hne.
  { cbn [scan_once] in Hres. congruence. }
  destruct fuel' as [|fuel']; [lia|]. subst res. cbn [scan_once] in *.
  destruct s as [|c r]; [reflexivity|].
  destruct (char_eqb c QUOTE); [reflexivity|].
  assert (Hm : mono_scan (scan_once fuel) (scan_once fuel')) by (apply IH; lia).
  destruct (char_eqb c LBRACE).
  { unfold parse_object in *. destruct (skip_ws r) as [|c1 r1].
    - apply (object_items_mono _ _ Hm); [lia|exact Hne].
    - destruct (char_eqb c1 RBRACE); [reflexivity|].
      apply (object_items_mono _ _ Hm); [lia|exact Hne]. }
  destruct (char_eqb c (chr "[")); [|reflexivity].
  unfold parse_array in *. destruct (skip_ws r) as [|c1 r1].
  - apply (array_items_mono _ _ Hm); [lia|exact Hne].
  - destruct (char_eqb c1 (chr "]")); [reflexivity|].
    apply (array_items_mono _ _ Hm); [lia|exact Hne].
Qed.

(** With enough fuel, the amount of fuel does not matter. *)
Lemma scan_once_enough (fuel fuel' : nat) (s : str) :
  length s < fuel -> length s < fuel' -> scan_once fuel' s = scan_once fuel s.
Proof.
  intros H H'. destruct (Nat.le_gt_cases fuel fuel') as [Hle|Hgt].
  - apply (scan_once_mono fuel fuel' Hle s _ eq_refl).
    now apply (scan_once_good fuel s).
  - symmetry. apply (scan_once_mono fuel' fuel); [lia|reflexivity|].
    now apply (scan_once_good fuel' s).
Qed.

(** ** The object text inside a JSON text *)

Lemma array_items_list (scan : str -> decoded (json * str)) (fuel : nat)
  (acc : list json) (s : str) (v : json) (rest : str) :
  array_items scan fuel acc s = Decoded (v, rest) -> exists l, v = JList l.
Proof.
  revert acc s. induction fuel as [|fuel IH]; intros acc s; cbn [array_items];
    [discriminate|].
  destruct (scan s) as [[v0 r0]|]; cbn [dbind]; [|discriminate].
  destruct (skip_ws r0) as [|c r1]; [discriminate|].
  destruct (char_eqb c (chr "]")).
  - intros H. injection H as <- _. eauto.
  - destruct (char_eqb c (chr ",")); [apply IH|discriminate].
Qed.

(** Only a text that runs from [{] to [}] decodes to a [dict]. *)
Lemma scan_once_dict (fuel : nat) (s : str) (d : dict) :
  scan_once fuel s = Decoded (JDict d, []) -> object_text s = true.
Proof.
  destruct fuel as [|fuel]; cbn [scan_once]; [discriminate|].
  destruct s as [|c0 r0]; [discriminate|].
  destruct (char_eqb c0 QUOTE).
  { destruct (scanstring r0) as [[x r']|]; cbn [dbind]; discriminate. }
  destruct (char_eqb c0 LBRACE) eqn:El.
  { intros H.
    destruct (parse_object_local _ (scan_once_local fuel) _ _ _ _ H) as (body & Hb & _).
    rewrite app_nil_r in Hb. subst r0. cbn [object_text]. rewrite El.
    now rewrite last_last. }
  destruct (char_eqb c0 (chr "[")).
  { unfold parse_array. intros H.
    assert (exists l, JDict d = JList l) as [l Hl]; [|discriminate].
    destruct (skip_ws r0) as [|c1 r1]; [now apply array_items_list in H|].
    destruct (char_eqb c1 (chr "]")); [|now apply array_items_list in H].
    injection H as H _. eauto. }
  repeat match goal with
         | |- context [if ?b then _ else _] => destruct b; [discriminate|]
         end.
  unfold match_number. destruct (int_part (c0 :: r0)); [|discriminate].
  match goal with |- context [match ?n with 0 => _ | S _ => _ end] => destruct n end;
    discriminate.
Qed.

Lemma skip_ws_nil (r : str) :
  skip_ws r = [] -> Forall (fun c => is_json_ws c = true) r.
Proof.
  intros H. destruct (skip_ws_split r) as (w & Hr & Hw & _).
  rewrite H, app_nil_r in Hr. now subst r.
Qed.

(** A JSON text that decodes to an object is an object text between two
    stretches of whitespace, and the object text alone decodes to the same
    object. *)
Lemma loads_object_core (J : str) (d : dict) :
  loads J = Decoded (JDict d) ->
  exists w1 j w2,
    J = w1 ++ j ++ w2 /\
    Forall (fun c => is_json_ws c = true) w1 /\
    Forall (fun c => is_json_ws c = true) w2 /\
    object_text j = true /\
    loads j = Decoded (JDict d).
Proof.
  unfold loads at 1. destruct (startswith [65279%N] J); [discriminate|].
  destruct (skip_ws_split J) as (w1 & HJ & Hw1 & _).
  destruct (scan_once (S (length J)) (skip_ws J)) as [[v r]|] eqn:E;
    cbn [dbind]; [|discriminate].
  destruct (skip_ws r) eqn:Er; [|discriminate]. intros H. injection H as ->.
  destruct (scan_once_local _ _ _ _ E) as (j & Hj & Hne & Hloc).
  pose proof (Hloc [] I) as Hnil. rewrite app_nil_r in Hnil.
  pose proof (scan_once_dict _ _ _ Hnil) as Hobj.
  exists w1, j, r. split; [now rewrite HJ at 1; rewrite Hj|].
  split; [exact Hw1|]. split; [now apply skip_ws_nil|]. split; [exact Hobj|].
  destruct j as [|c0 j']; [discriminate|].
  cbn [object_text] in Hobj. apply andb_true_iff in Hobj as [Hc0 _].
  apply char_eqb_eq in Hc0. subst c0.
  unfold loads. change (startswith [65279%N] (LBRACE :: j')) with false.
  change (skip_ws (LBRACE :: j')) with (LBRACE :: j').
  rewrite (scan_once_enough (S (length J)) _ (LBRACE :: j')), Hnil.
  - reflexivity.
  - rewrite HJ, Hj, !length_app. lia.
  - lia.
Qed.

(** ** C1: wrapped object texts *)

Lemma object_text_inv (j : str) :
  object_text j = true -> exists body, j = LBRACE :: body ++ [RBRACE].
Proof.
  destruct j as [|c r]; [discriminate|]. cbn [object_text]. intros H.
  apply andb_true_iff in H as [Hc Hr].
  apply char_eqb_eq in Hc. apply char_eqb_eq in Hr. subst c.
  destruct r as [|x r]; [discriminate|].
  exists (removelast (x :: r)). f_equal. rewrite <- Hr.
  apply app_removelast_last. discriminate.
Qed.

(** The cleaning of a wrapped object text gives back the object text. *)
Lemma clean_response_wrapped (pre body post : str) :
  brace_free pre -> brace_free post ->
  contains backticks (LBRACE :: body ++ [RBRACE]) = false ->
  _clean_response (pre ++ (LBRACE :: body ++ [RBRACE]) ++ post) =
    Ok (LBRACE :: body ++ [RBRACE]).
Proof.
  intros Hpre Hpost Hj. unfold _clean_response, fences_removed.
  rewrite strip_around.
  destruct (re_sub_delete_around fence_open fence_open_matcher
              (lstrip pre) body (rstrip post))
    as (pre1 & post1 & Hpre1 & Hpost1 & ->);
    [now apply lstrip_keeps|now apply rstrip_keeps|exact Hj|].
  destruct (re_sub_delete_around fence_close fence_close_matcher
              pre1 body post1 Hpre1 Hpost1 Hj)
    as (pre2 & post2 & Hpre2 & Hpost2 & ->).
  destruct (slice_object pre2 body post2 Hpre2 Hpost2) as (Hf & Hr & Hs).
  rewrite Hs, Hf, Hr.
  replace ((Z.of_nat (length pre2) =? -1)%Z
           || (Z.of_nat (length (pre2 ++ LBRACE :: body)) =? -1)%Z) with false.
  - now rewrite strip_id.
  - symmetry. apply orb_false_iff. split; apply Z.eqb_neq; lia.
Qed.

Lemma story_shaped_accepted (story : json) :
  story_shaped story = true -> outcome (_validate_schema story) = Ok tt.
Proof.
  destruct story as [| | | | | |d]; try discriminate. cbn [story_shaped].
  intros H. apply andb_true_iff in H as [Hall Hslides].
  destruct (dict_get (lit "slides") d) as [[| | | | |l|]|] eqn:Hv; try discriminate.
  rewrite (validate_schema_list_outcome d l Hall Hv).
  rewrite (check_slides_valid 0 l Hslides). cbn [rbind].
  destruct (slide_types_valid l Hslides) as (types & -> & _). reflexivity.
Qed.

Lemma contains_suffix (p a b : str) :
  contains p (a ++ b) = false -> contains p b = false.
Proof.
  induction a as [|x a IH]; cbn [app]; [trivial|].
  intros H. apply IH. cbn [contains] in H. now apply orb_false_iff in H.
Qed.

Lemma startswith_prefix (p a b : str) :
  startswith p a = true -> startswith p (a ++ b) = true.
Proof.
  revert a. induction p as [|x p IH]; intros a; [reflexivity|].
  destruct a as [|y a]; cbn [startswith app]; [discriminate|].
  intros H. apply andb_true_iff in H as [Hx Hp]. rewrite Hx. now apply IH.
Qed.

Lemma contains_prefix (p a b : str) :
  contains p (a ++ b) = false -> contains p a = false.
Proof.
  induction a as [|x a IH]; intros H.
  - cbn [contains]. rewrite orb_false_r.
    destruct p as [|y p]; [|reflexivity].
    cbn [app] in H. destruct b; discriminate.
  - cbn [app] in H. cbn [contains] in *. apply orb_false_iff in H as [Hs Hc].
    apply orb_false_iff. split; [|now apply IH].
    destruct (startswith p (x :: a)) eqn:E; [|reflexivity].
    apply (startswith_prefix p (x :: a) b) in E. cbn [app] in E. congruence.
Qed.

Lemma ws_not_brace (c : char) : is_json_ws c = true -> is_brace c = false.
Proof.
  unfold is_json_ws. intros H.
  repeat (apply orb_true_iff in H; destruct H as [H|H]);
    apply N.eqb_eq in H; subst c; reflexivity.
Qed.

Lemma json_ws_brace_free (w : str) :
  Forall (fun c => is_json_ws c = true) w -> brace_free w.
Proof. intros H. eapply Forall_impl; [|exact H]. apply ws_not_brace. Qed.

(** C1, as the code has it.  Take a JSON text without three backticks in
    a row that decodes to a value with the shape of a Story, and wrap it:
    any text without braces before it, any text without braces after it.
    That covers a fence with or without a language tag, a preamble,
    trailing prose and surrounding whitespace, in any combination.  The
    validation of the wrapped text is the validation of the JSON text
    itself, and it succeeds and returns the decoded value. *)
Theorem wrapped_story_validates (pre j post : str) (story : json) :
  brace_free pre -> brace_free post ->
  contains backticks j = false ->
  loads j = Decoded story ->
  story_shaped story = true ->
  validate (pre ++ j ++ post) = validate j /\
  outcome (validate (pre ++ j ++ post)) = Ok story.
Proof.
  intros Hpre Hpost Hfence Hloads Hshape.
  assert (Hd : exists d, story = JDict d).
  { destruct story; try discriminate. eauto. }
  destruct Hd as [d ->].
  destruct (loads_object_core j d Hloads) as (w1 & core & w2 & -> & Hw1 & Hw2 & Hobj & Hcore).
  destruct (object_text_inv core Hobj) as [body ->].
  assert (Hfence' : contains backticks (LBRACE :: body ++ [RBRACE]) = false).
  { apply contains_suffix in Hfence. now apply contains_prefix in Hfence. }
  assert (Hc : _clean_response (pre ++ (w1 ++ (LBRACE :: body ++ [RBRACE]) ++ w2) ++ post)
               = Ok (LBRACE :: body ++ [RBRACE])).
  { replace (pre ++ (w1 ++ (LBRACE :: body ++ [RBRACE]) ++ w2) ++ post)
      with ((pre ++ w1) ++ (LBRACE :: body ++ [RBRACE]) ++ (w2 ++ post))
      by (rewrite <- !app_assoc; reflexivity).
    apply clean_response_wrapped; [| |exact Hfence'];
      apply brace_free_app; auto using json_ws_brace_free. }
  assert (Hc0 : _clean_response (w1 ++ (LBRACE :: body ++ [RBRACE]) ++ w2)
                = Ok (LBRACE :: body ++ [RBRACE])).
  { apply clean_response_wrapped; auto using json_ws_brace_free. }
  assert (Hv : forall raw, _clean_response raw = Ok (LBRACE :: body ++ [RBRACE]) ->
                 validate raw = (_validate_schema (JDict d) ;; ret (JDict d))%io).
  { intros raw Hraw. unfold validate. rewrite Hraw, bind_lift_ok.
    unfold _parse_json. rewrite Hcore, bind_lift_ok. reflexivity. }
  split.
  - now rewrite (Hv _ Hc), (Hv _ Hc0).
  - rewrite (Hv _ Hc). pose proof (story_shaped_accepted (JDict d) Hshape) as Hok.
    destruct (_validate_schema (JDict d)) as [evs [[]|x]]; [reflexivity|discriminate].
Qed.

(* ===================================================================== *)
(** * The properties at concrete inputs *)
(* ===================================================================== *)

Ltac solve_In := vm_compute; repeat (first [left; reflexivity | right]).
Ltac solve_brace_free := unfold brace_free; repeat constructor.

(** The wrapped story of the concrete scenario: the validation returns the
    story with its one headline slide. *)
Lemma wrapped_story_validates_witness :
  validate (lakers_preamble ++ lakers_text ++ lakers_trailer) = validate lakers_text /\
  outcome (validate (lakers_preamble ++ lakers_text ++ lakers_trailer))
    = Ok (JDict lakers_story).
Proof.
  apply (wrapped_story_validates lakers_preamble lakers_text lakers_trailer
           (JDict lakers_story)).
  - solve_brace_free.
  - solve_brace_free.
  - vm_compute. reflexivity.
  - vm_compute. reflexivity.
  - vm_compute. reflexivity.
Defined.

(** C1 fails as stated: the same story after a preamble that holds braces
    is rejected at the decoding step, and a story with three backticks in a
    string comes back with the backticks removed. *)
Lemma wrapped_story_counterexample :
  (loads lakers_text = Decoded (JDict lakers_story) /\
   story_shaped (JDict lakers_story) = true /\
   validate (braces_preamble ++ lakers_text) =
     ([], Raise (MalformedJson ExpectingPropertyName
                   (prefix 300 (lit "{is} the story: " ++ lakers_text))))) /\
  (loads backticks_text = Decoded (JDict backticks_story) /\
   story_shaped (JDict backticks_story) = true /\
   exists d, outcome (validate backticks_text) = Ok (JDict d) /\
             dict_get (lit "team") d = Some (JStr (lit "ab")) /\
             JDict d <> JDict backticks_story).
Proof.
  split; [repeat split; vm_compute; reflexivity|].
  split; [vm_compute; reflexivity|]. split; [vm_compute; reflexivity|].
  eexists. split; [vm_compute; reflexivity|].
  split; [vm_compute; reflexivity|]. vm_compute. discriminate.
Qed.

(** C2 fails as stated: with a headline slide that lacks its subtext in
    first position and a slide of unknown type in second position, the
    validation reports the first slide, not the second. *)
Lemma slide_order_counterexample :
  loads two_problems_text = Decoded (JDict two_problems_story) /\
  fields_of_type (lit "headline") = Some [lit "text"; lit "subtext"] /\
  dict_has (lit "subtext") headline_without_subtext = false /\
  fields_of_type (lit "outro") = None /\
  validate two_problems_text =
    ([Print (SlideCountWarning 2)],
     Raise (MissingSlideField 1 (lit "headline") (lit "subtext")
              [lit "type"; lit "text"])) /\
  outcome (validate two_problems_text) <>
    Raise (UnknownSlideType 2 (JStr (lit "outro"))
             [lit "headline"; lit "stat"; lit "cta"]).
Proof.
  repeat split; try (vm_compute; reflexivity). vm_compute. discriminate.
Qed.

Lemma slide_checks_slide_by_slide_witness :
  outcome (validate two_problems_text) =
    Raise (MissingSlideField (length (@nil json) + 1) (lit "headline") (lit "subtext")
             (keys headline_without_subtext)).
Proof.
  refine (proj2 (slide_checks_slide_by_slide two_problems_text two_problems_text
                   two_problems_story _ _ [] [JDict outro_slide]
                   headline_without_subtext (lit "headline") _ _ _ _)
            [lit "text"; lit "subtext"] (lit "subtext") _ _);
    vm_compute; reflexivity.
Defined.

(** C3 fails as stated: an empty team, a number as match, null as date and
    a result outside the enumeration are all accepted. *)
Lemma loose_top_level_counterexample :
  validate loose_text =
    ([Print (SlideCountWarning 0); Print (SchemaValidated 0 [])],
     Ok (JDict loose_story)) /\
  nonempty_string (dict_get (lit "team") loose_story) = false /\
  nonempty_string (dict_get (lit "match") loose_story) = false /\
  nonempty_string (dict_get (lit "date") loose_story) = false /\
  is_result (dict_get (lit "result") loose_story) = false /\
  top_level_well_typed loose_story = false.
Proof. repeat split; vm_compute; reflexivity. Qed.

Lemma validated_story_has_required_keys_witness :
  exists d,
    JDict loose_story = JDict d /\
    has_all required_top_level d = true /\
    forall f, In f required_top_level -> exists v, dict_get f d = Some v.
Proof.
  apply (validated_story_has_required_keys loose_text (JDict loose_story)).
  vm_compute. reflexivity.
Defined.

(** C4 fails as stated: on the story of the concrete scenario,
    [parse_and_save] asks for a directory and writes a file, and the
    validation steps alone already print twice. *)
Lemma persistence_counterexample :
  parse_and_save sample_env lakers_text (lit "lakers") =
    ([Print (SlideCountWarning 1);
      Print (SchemaValidated 1 [JStr (lit "headline")]);
      Makedirs (lit "/app/output");
      OpenFile (lit "/app/output/lakers_story_20260213_143022.json");
      DumpJson (lit "/app/output/lakers_story_20260213_143022.json")
        (JDict lakers_story);
      Print (StorySaved (lit "/app/output/lakers_story_20260213_143022.json"))],
     Ok (JDict lakers_story)) /\
  forallb is_print (events (parse_and_save sample_env lakers_text (lit "lakers")))
    = false /\
  events (validate lakers_text) =
    [Print (SlideCountWarning 1);
     Print (SchemaValidated 1 [JStr (lit "headline")])].
Proof. repeat split; vm_compute; reflexivity. Qed.

Lemma validation_then_persistence_witness :
  forallb is_print (events (validate lakers_text)) = true /\
  parse_and_save other_env lakers_text (lit "lakers") =
    (events (validate lakers_text) ++
       [Makedirs (output_dir other_env);
        OpenFile (output_file other_env (lit "lakers"));
        DumpJson (output_file other_env (lit "lakers")) (JDict lakers_story);
        Print (StorySaved (output_file other_env (lit "lakers")))],
     Ok (JDict lakers_story)).
Proof.
  pose proof (validation_then_persistence other_env lakers_text (lit "lakers"))
    as [Hprints Hsave].
  split; [exact Hprints|].
  change (outcome (validate lakers_text)) with (@Ok json (JDict lakers_story)) in Hsave.
  apply Hsave; reflexivity.
Defined.

(** The concrete scenario of C5: only the key team is present; match is
    the first one missing. *)
Lemma missing_top_level_field_witness :
  validate team_only_text = ([], Raise (MissingField (lit "match") [lit "team"])).
Proof.
  assert (Hclean : _clean_response team_only_text = Ok team_only_text)
    by (vm_compute; reflexivity).
  assert (Hloads : loads team_only_text = Decoded (JDict team_only_story))
    by (vm_compute; reflexivity).
  assert (Hmiss : has_all required_top_level team_only_story = false)
    by (vm_compute; reflexivity).
  destruct (missing_top_level_field team_only_text team_only_text team_only_story
              Hclean Hloads Hmiss) as (field & Hfirst & _ & _ & Hv).
  vm_compute in Hfirst. injection Hfirst as <-. exact Hv.
Defined.

Lemma no_json_found_witness :
  validate (lit "no story today") =
    ([], Raise (NoJsonFound (lit "no story today"))) /\
  forall e team_key,
    parse_and_save e (lit "no story today") team_key =
      ([], Raise (NoJsonFound (lit "no story today"))).
Proof.
  apply (no_json_found (lit "no story today")).
  left. vm_compute. intros H.
  repeat (destruct H as [H|H]; [discriminate H|]). exact H.
Defined.

Lemma slides_wrong_type_witness :
  validate mapping_text = ([], Raise (WrongType (lit "list") (lit "dict"))).
Proof.
  apply (slides_wrong_type mapping_text mapping_text mapping_story
           eq_refl eq_refl (JDict [])); vm_compute; reflexivity.
Defined.

Lemma slide_count_advisory_witness :
  exists types,
    validate lakers_text =
      ([Print (SlideCountWarning 1); Print (SchemaValidated 1 types)],
       Ok (JDict lakers_story)) /\
    py_getitem (JDict lakers_story) (lit "slides") = Ok (JList [JDict lakers_headline]) /\
    length types = 1.
Proof.
  apply (slide_count_advisory lakers_text lakers_text lakers_story
           eq_refl eq_refl [JDict lakers_headline]);
    try (vm_compute; reflexivity).
  cbn [length]. lia.
Defined.

Lemma validation_deterministic_witness :
  (forall x, outcome (validate (lit "no story today")) = Raise x ->
     outcome (parse_and_save sample_env (lit "no story today") (lit "lakers")) = Raise x /\
     outcome (parse_and_save other_env (lit "no story today") (lit "manutd")) = Raise x /\
     same_kind x x = true) /\
  JDict lakers_story = JDict lakers_story /\
  outcome (validate lakers_text) = Ok (JDict lakers_story).
Proof.
  split.
  - apply (validation_deterministic (lit "no story today") sample_env other_env
             (lit "lakers") (lit "manutd")).
  - apply (proj2 (validation_deterministic lakers_text sample_env other_env
                    (lit "lakers") (lit "manutd")));
      vm_compute; reflexivity.
Defined.

(** The scenario of C10: a closing brace, some text, an opening brace; and
    the other order, on the story of the concrete scenario. *)
Lemma braces_in_either_order_witness :
  (_clean_response (lit "} some text {") = Ok [] /\
   validate (lit "} some text {") = ([], Raise (MalformedJson ExpectingValue []))) /\
  (exists body,
     _clean_response lakers_text = Ok (LBRACE :: body ++ [RBRACE]) /\
     forall v, loads (LBRACE :: body ++ [RBRACE]) = Decoded v ->
               exists d, v = JDict d).
Proof.
  split.
  - refine (proj1 (braces_in_either_order (lit "} some text {") _ _) _).
    + solve_In.
    + solve_In.
    + vm_compute. reflexivity.
  - refine (proj2 (braces_in_either_order lakers_text _ _) _).
    + solve_In.
    + solve_In.
    + vm_compute. reflexivity.
Defined.

(* ===================================================================== *)
(** * Further properties of story_parser.py *)
(* ===================================================================== *)

(** ** What the schema check accepts *)

Lemma check_slide_ok (i : nat) (slide : json) :
  check_slide i slide = Ok tt -> valid_slide slide = true.
Proof.
  destruct slide as [| | | | | |sd]; try discriminate.
  cbn [valid_slide].
  destruct (dict_get (lit "type") sd) as [v|] eqn:E.
  - destruct v as [| | | |t| |];
      try (unfold check_slide, py_get; rewrite E; discriminate).
    rewrite (check_slide_dict i sd t E).
    destruct (fields_of_type t) as [fields|]; [|discriminate].
    destruct (first_missing fields sd) eqn:F; [discriminate|].
    intros _. now apply first_missing_none.
  - unfold check_slide, py_get. rewrite E. discriminate.
Qed.

Lemma check_slides_ok (i : nat) (slides : list json) :
  check_slides i slides = Ok tt -> forallb valid_slide slides = true.
Proof.
  revert i. induction slides as [|s slides IH]; intros i; [reflexivity|].
  cbn [check_slides forallb].
  destruct (check_slide i s) as [[]|x] eqn:C; cbn [rbind]; [|discriminate].
  intros H. rewrite (check_slide_ok i s C). exact (IH _ H).
Qed.

Lemma slide_types_valid_map (slides : list json) :
  forallb valid_slide slides = true ->
  slide_types slides = Ok (map type_of_slide slides).
Proof.
  induction slides as [|s slides IH]; [reflexivity|].
  cbn [forallb]. intros H. apply andb_true_iff in H as [Hs Hr].
  cbn [slide_types map]. rewrite (IH Hr).
  destruct s as [| | | | | |sd]; try discriminate.
  cbn [valid_slide] in Hs. cbn [py_getitem type_of_slide].
  destruct (dict_get (lit "type") sd) as [v|]; [reflexivity|discriminate].
Qed.

Lemma slides_required : In (lit "slides") required_top_level.
Proof. unfold required_top_level. cbn [In]. auto 10. Qed.

Lemma validate_schema_shaped (story : json) :
  outcome (_validate_schema story) = Ok tt -> story_shaped story = true.
Proof.
  intros H. destruct (validate_schema_ok story H) as (d & -> & Hall).
  destruct (has_all_get required_top_level d (lit "slides") Hall slides_required)
    as [v Hv].
  cbn [story_shaped]. rewrite Hall, Hv. cbn [andb].
  destruct (is_list v) eqn:L.
  - destruct v as [| | | | |l|]; try discriminate.
    rewrite (validate_schema_list_outcome d l Hall Hv) in H.
    destruct (check_slides 0 l) as [[]|x] eqn:C; [|discriminate].
    exact (check_slides_ok 0 l C).
  - rewrite (validate_schema_not_list d v Hall Hv L) in H. discriminate.
Qed.

(** X1.  [_validate_schema] returns without raising exactly on the values
    that are objects with the five top-level keys whose [slides] is a
    list of objects, each of a known type and with every field of its
    type.  Nothing else is checked, and nothing less. *)
Theorem schema_accepts_story_shaped (story : json) :
  outcome (_validate_schema story) = Ok tt <-> story_shaped story = true.
Proof. split; [apply validate_schema_shaped|apply story_shaped_accepted]. Qed.

(** X2.  What [_validate_schema] prints for an object with the five keys
    whose [slides] is a list: the warning when the list does not have four
    items, whether or not the slides are then accepted, and after it the
    confirmation, with the count and the types of the slides in their
    order, when every slide is valid.  Four valid slides give the
    confirmation alone. *)
Theorem schema_console_output (d : dict) (l : list json) :
  has_all required_top_level d = true ->
  dict_get (lit "slides") d = Some (JList l) ->
  events (_validate_schema (JDict d)) =
    (if length l =? 4 then [] else [Print (SlideCountWarning (length l))]) ++
    (if forallb valid_slide l
     then [Print (SchemaValidated (length l) (map type_of_slide l))]
     else []).
Proof.
  intros Hall Hs. rewrite (validate_schema_list d l Hall Hs).
  destruct (forallb valid_slide l) eqn:V.
  - rewrite (check_slides_valid 0 l V), (slide_types_valid_map l V).
    destruct (length l =? 4); reflexivity.
  - destruct (check_slides 0 l) as [[]|x] eqn:C.
    + apply check_slides_ok in C. congruence.
    + destruct (length l =? 4); reflexivity.
Qed.

(** The four slides the prompt asks for: the confirmation alone. *)
Lemma schema_console_output_witness :
  events (_validate_schema (JDict (story_with four_slides))) =
    [Print (SchemaValidated 4
       [JStr (lit "headline"); JStr (lit "stat"); JStr (lit "stat");
        JStr (lit "cta")])].
Proof.
  apply (schema_console_output (story_with four_slides) four_slides).
  - vm_compute. reflexivity.
  - vm_compute. reflexivity.
Defined.

(** ** The first slide that is not valid *)

Lemma check_slide_not_dict (i : nat) (slide : json) :
  is_dict slide = false -> check_slide i slide = Raise AttributeError.
Proof. destruct slide; try reflexivity. discriminate. Qed.

Lemma check_slide_not_string (i : nat) (slide : json) :
  is_dict slide = true ->
  is_str (type_of_slide slide) = false ->
  check_slide i slide =
    if hashable (type_of_slide slide)
    then Raise (UnknownSlideType (i + 1) (type_of_slide slide)
                  [lit "headline"; lit "stat"; lit "cta"])
    else Raise TypeError.
Proof.
  destruct slide as [| | | | | |sd]; try discriminate. intros _.
  unfold check_slide, py_get. cbn [type_of_slide].
  destruct (dict_get (lit "type") sd) as [v|]; cbn [rbind].
  - destruct v; try reflexivity. discriminate.
  - reflexivity.
Qed.

Section FirstInvalidSlide.

Variable d : dict.
Variables pre post : list json.
Variable bad : json.
Hypothesis Hall : has_all required_top_level d = true.
Hypothesis Hslides : dict_get (lit "slides") d = Some (JList (pre ++ bad :: post)).
Hypothesis Hpre : forallb valid_slide pre = true.

Lemma first_invalid_outcome (x : exn) :
  check_slide (length pre) bad = Raise x ->
  outcome (_validate_schema (JDict d)) = Raise x.
Proof.
  intros H. rewrite (validate_schema_list_outcome d _ Hall Hslides).
  rewrite (check_slides_first_invalid 0 pre bad post x Hpre H). reflexivity.
Qed.

(** X3.  A slide that is not an object (a string, a number, a list,
    [null]) after valid slides makes [_validate_schema] raise
    [AttributeError], from [slide.get]: not one of the [ValueError]s of
    the module. *)
Theorem slide_not_an_object :
  is_dict bad = false ->
  outcome (_validate_schema (JDict d)) = Raise AttributeError.
Proof.
  intros H. apply first_invalid_outcome. now apply check_slide_not_dict.
Qed.

(** X4.  A slide object whose [type] is absent, or is a value other than
    a string that can be looked up in a dict ([null], a number, a
    boolean), is reported as a slide of unknown type at its 1-based
    position; the message carries that value, [None] when the key is
    absent. *)
Theorem slide_without_type_name :
  is_dict bad = true ->
  is_str (type_of_slide bad) = false ->
  hashable (type_of_slide bad) = true ->
  outcome (_validate_schema (JDict d)) =
    Raise (UnknownSlideType (length pre + 1) (type_of_slide bad)
             [lit "headline"; lit "stat"; lit "cta"]).
Proof.
  intros Hd Hs Hh. apply first_invalid_outcome.
  rewrite (check_slide_not_string (length pre) bad Hd Hs). now rewrite Hh.
Qed.

(** X5.  A slide object whose [type] is a list or an object makes
    [_validate_schema] raise [TypeError], from the membership test on the
    table of the known types. *)
Theorem slide_type_unhashable :
  is_dict bad = true ->
  hashable (type_of_slide bad) = false ->
  outcome (_validate_schema (JDict d)) = Raise TypeError.
Proof.
  intros Hd Hh. apply first_invalid_outcome.
  rewrite (check_slide_not_string (length pre) bad Hd).
  - now rewrite Hh.
  - destruct (type_of_slide bad); try reflexivity; discriminate.
Qed.

End FirstInvalidSlide.

(** A headline, then a string in the place of a slide. *)
Lemma slide_not_an_object_witness :
  outcome (_validate_schema
             (JDict (story_with [JDict lakers_headline; JStr (lit "stat")])))
  = Raise AttributeError.
Proof.
  apply (slide_not_an_object
           (story_with [JDict lakers_headline; JStr (lit "stat")])
           [JDict lakers_headline] [] (JStr (lit "stat"))).
  - vm_compute. reflexivity.
  - vm_compute. reflexivity.
  - vm_compute. reflexivity.
  - vm_compute. reflexivity.
Defined.

(** A headline, then a slide without a [type] key. *)
Lemma slide_without_type_name_witness :
  outcome (_validate_schema
             (JDict (story_with [JDict lakers_headline; JDict untyped_slide])))
  = Raise (UnknownSlideType 2 JNone [lit "headline"; lit "stat"; lit "cta"]).
Proof.
  apply (slide_without_type_name
           (story_with [JDict lakers_headline; JDict untyped_slide])
           [JDict lakers_headline] [] (JDict untyped_slide)).
  - vm_compute. reflexivity.
  - vm_compute. reflexivity.
  - vm_compute. reflexivity.
  - vm_compute. reflexivity.
  - vm_compute. reflexivity.
  - vm_compute. reflexivity.
Defined.

(** A slide whose type is a list. *)
Lemma slide_type_unhashable_witness :
  outcome (_validate_schema (JDict (story_with [JDict list_typed_slide])))
  = Raise TypeError.
Proof.
  apply (slide_type_unhashable (story_with [JDict list_typed_slide])
           [] [] (JDict list_typed_slide)).
  - vm_compute. reflexivity.
  - vm_compute. reflexivity.
  - vm_compute. reflexivity.
  - vm_compute. reflexivity.
  - vm_compute. reflexivity.
Defined.

(** ** The two substitutions *)

Lemma backticks_eq : backticks = [BACKTICK; BACKTICK; BACKTICK].
Proof. reflexivity. Qed.

Lemma fence_open_some (s : str) (n : nat) : fence_open s = Some n -> 3 <= n.
Proof.
  unfold fence_open. destruct (startswith backticks s); [|discriminate].
  intros H. injection H as <-. lia.
Qed.

Lemma fence_open_none (s : str) :
  startswith backticks s = false -> fence_open s = None.
Proof. unfold fence_open. now intros ->. Qed.

Lemma fence_open_starts (s : str) :
  fence_open s = None -> startswith backticks s = false.
Proof. unfold fence_open. destruct (startswith backticks s); [discriminate|reflexivity]. Qed.

Lemma re_sub_delete_keep (m : str -> option nat) (c : char) (r : str) :
  m (c :: r) = None -> re_sub_delete m 0 (c :: r) = c :: re_sub_delete m 0 r.
Proof. intros H. cbn [re_sub_delete]. now rewrite H. Qed.

Lemma startswith_backticks_cons (c : char) (r : str) :
  startswith backticks (c :: r) =
  char_eqb BACKTICK c && startswith [BACKTICK; BACKTICK] r.
Proof. reflexivity. Qed.

Lemma fence_open_other (c : char) (r : str) :
  char_eqb BACKTICK c = false -> fence_open (c :: r) = None.
Proof.
  intros H. apply fence_open_none. rewrite startswith_backticks_cons. now rewrite H.
Qed.

(** Where the text does not start with two backticks, neither does what
    the first substitution leaves of it. *)
Lemma fence_open_head (r : str) :
  startswith [BACKTICK; BACKTICK] r = false ->
  startswith [BACKTICK; BACKTICK] (re_sub_delete fence_open 0 r) = false.
Proof.
  destruct r as [|x r]; [reflexivity|].
  destruct (char_eqb BACKTICK x) eqn:Ex.
  - intros H. cbn [startswith] in H. rewrite Ex in H. cbn [andb] in H.
    rewrite re_sub_delete_keep.
    + cbn [startswith]. rewrite Ex. cbn [andb].
      destruct r as [|y r]; [reflexivity|].
      destruct (char_eqb BACKTICK y) eqn:Ey; [discriminate|].
      rewrite re_sub_delete_keep by now apply fence_open_other.
      now rewrite Ey.
    + apply fence_open_none. rewrite startswith_backticks_cons.
      cbn [startswith]. destruct r as [|y r]; [now rewrite andb_false_r|].
      destruct (char_eqb BACKTICK y); [discriminate|]. now rewrite andb_false_r.
  - intros _. rewrite re_sub_delete_keep by now apply fence_open_other.
    cbn [startswith]. now rewrite Ex.
Qed.

Lemma fence_open_removes_all (s : str) (k : nat) :
  contains backticks (re_sub_delete fence_open k s) = false.
Proof.
  revert k. induction s as [|c r IH]; intros k; [reflexivity|].
  destruct k as [|k]; [|cbn [re_sub_delete]; apply IH].
  destruct (fence_open (c :: r)) as [n|] eqn:F.
  - pose proof (fence_open_some _ _ F) as Hn.
    destruct n as [|n]; [lia|]. cbn [re_sub_delete]. rewrite F. apply IH.
  - rewrite (re_sub_delete_keep fence_open c r F).
    cbn [contains]. rewrite IH, orb_false_r.
    rewrite startswith_backticks_cons.
    destruct (char_eqb BACKTICK c) eqn:Ec; [|reflexivity]. cbn [andb].
    apply fence_open_head. apply fence_open_starts in F.
    rewrite startswith_backticks_cons, Ec in F. exact F.
Qed.

Lemma fence_close_noop (s : str) :
  contains backticks s = false -> re_sub_delete fence_close 0 s = s.
Proof.
  induction s as [|c r IH]; [reflexivity|].
  intros H. apply contains_cons in H as [Hs Hr].
  rewrite re_sub_delete_keep.
  - f_equal. now apply IH.
  - unfold fence_close. now rewrite Hs.
Qed.

Lemma fences_removed_open (raw : str) :
  fences_removed raw = re_sub_delete fence_open 0 (strip raw).
Proof. unfold fences_removed. apply fence_close_noop, fence_open_removes_all. Qed.

Lemma fences_removed_no_backticks (raw : str) :
  contains backticks (fences_removed raw) = false.
Proof. rewrite fences_removed_open. apply fence_open_removes_all. Qed.

(** X8.  The first substitution of [_clean_response] leaves no run of
    three backticks in the text, so the second one, for the closing
    fence, finds nothing to match and changes nothing: the text searched
    for the braces is the trimmed text after the first substitution. *)
Theorem closing_fence_never_matches (raw : str) :
  fences_removed raw = re_sub_delete fence_open 0 (strip raw) /\
  contains backticks (fences_removed raw) = false.
Proof.
  split; [apply fences_removed_open|apply fences_removed_no_backticks].
Qed.

(** ** Braces through the cleaning *)

Lemma brace_not_space (c : char) : is_brace c = true -> isspace c = false.
Proof.
  intros H. destruct (isspace c) eqn:E; [|reflexivity].
  apply space_not_brace in E. congruence.
Qed.

Lemma lstrip_In (c : char) (s : str) :
  isspace c = false -> In c s -> In c (lstrip s).
Proof.
  intros Hc. induction s as [|x s IH]; [easy|].
  intros H. cbn [lstrip]. destruct (isspace x) eqn:Ex; [|exact H].
  destruct H as [->|H]; [congruence|now apply IH].
Qed.

Lemma rstrip_In (c : char) (s : str) :
  isspace c = false -> In c s -> In c (rstrip s).
Proof.
  intros Hc H. unfold rstrip. apply in_rev. rewrite rev_involutive.
  apply lstrip_In; [exact Hc|]. now apply in_rev in H.
Qed.

Lemma strip_In (c : char) (s : str) :
  isspace c = false -> In c s -> In c (strip s).
Proof. intros Hc H. unfold strip. now apply rstrip_In, lstrip_In. Qed.

Lemma keeps_In (f : str -> str) (s : str) (c : char) :
  (forall P : char -> Prop, Forall P s -> Forall P (f s)) ->
  In c (f s) -> In c s.
Proof.
  intros Hf H.
  assert (Hall : Forall (fun x => In x s) (f s)).
  { apply Hf. apply Forall_forall. auto. }
  rewrite Forall_forall in Hall. now apply Hall.
Qed.

Lemma strip_keeps (P : char -> Prop) (s : str) : Forall P s -> Forall P (strip s).
Proof. intros H. unfold strip. now apply rstrip_keeps, lstrip_keeps. Qed.

Section BracesKept.

Variable m : str -> option nat.
Hypothesis Hm : fence_matcher m.

Lemma re_sub_delete_In (c : char) (s : str) (skip : nat) :
  is_brace c = true ->
  brace_free (firstn skip s) ->
  In c s -> In c (re_sub_delete m skip s).
Proof.
  intros Hc. revert skip. induction s as [|x r IH]; intros skip Hfree Hin; [easy|].
  assert (Hdrop : forall k, brace_free (firstn (S k) (x :: r)) ->
                            In c (re_sub_delete m k r)).
  { intros k Hk. rewrite firstn_cons in Hk. inversion Hk as [|? ? Hx Hr]; subst.
    apply IH; [exact Hr|]. destruct Hin as [->|Hin]; [congruence|exact Hin]. }
  destruct skip as [|k]; [|cbn [re_sub_delete]; now apply Hdrop].
  cbn [re_sub_delete].
  destruct (m (x :: r)) as [[|k]|] eqn:M.
  - destruct Hin as [->|Hin]; [now left|right]. apply IH; [constructor|exact Hin].
  - apply Hdrop. now destruct (Hm _ _ M) as (_ & _ & H).
  - destruct Hin as [->|Hin]; [now left|right]. apply IH; [constructor|exact Hin].
Qed.

End BracesKept.

Lemma fences_removed_In (c : char) (raw : str) :
  is_brace c = true -> (In c (fences_removed raw) <-> In c raw).
Proof.
  intros Hc. unfold fences_removed. split.
  - intros H.
    apply (keeps_In (re_sub_delete fence_close 0)) in H;
      [|intros P; now apply re_sub_delete_keeps].
    apply (keeps_In (re_sub_delete fence_open 0)) in H;
      [|intros P; now apply re_sub_delete_keeps].
    apply (keeps_In strip) in H; [exact H|intros P; apply strip_keeps].
  - intros H.
    apply (re_sub_delete_In fence_close fence_close_matcher); [exact Hc|constructor|].
    apply (re_sub_delete_In fence_open fence_open_matcher); [exact Hc|constructor|].
    apply strip_In; [now apply brace_not_space|exact H].
Qed.

(** X7.  [_clean_response] raises its "no JSON object found" error exactly
    when the raw text has no opening brace or no closing brace: the trim
    and the two substitutions never remove a brace and never add one.
    The error carries the first 200 characters of the raw text. *)
Theorem no_json_found_exactly (raw : str) :
  _clean_response raw = Raise (NoJsonFound (prefix 200 raw)) <->
  ~ In LBRACE raw \/ ~ In RBRACE raw.
Proof.
  assert (HL : is_brace LBRACE = true) by reflexivity.
  assert (HR : is_brace RBRACE = true) by reflexivity.
  unfold _clean_response. split.
  - destruct ((find LBRACE (fences_removed raw) =? -1)%Z
              || (rfind RBRACE (fences_removed raw) =? -1)%Z) eqn:E; [|discriminate].
    intros _. apply orb_true_iff in E as [E|E]; apply Z.eqb_eq in E; [left|right];
      intros Hin; apply (fences_removed_In _ raw) in Hin; try assumption.
    + apply find_present in Hin. lia.
    + apply rfind_present in Hin. lia.
  - intros [H|H].
    + rewrite find_absent; [reflexivity|].
      intros Hin. apply H. now apply (fences_removed_In _ raw HL).
    + rewrite rfind_absent; [now rewrite orb_true_r|].
      intros Hin. apply H. now apply (fences_removed_In _ raw HR).
Qed.

(** ** The shape of a cleaned text *)

Lemma clean_response_shape (raw c : str) :
  _clean_response raw = Ok c ->
  c = [] \/
  exists pre body post,
    fences_removed raw = pre ++ (LBRACE :: body ++ [RBRACE]) ++ post /\
    c = LBRACE :: body ++ [RBRACE].
Proof.
  unfold _clean_response.
  destruct ((find LBRACE (fences_removed raw) =? -1)%Z
            || (rfind RBRACE (fences_removed raw) =? -1)%Z) eqn:Hcond; [discriminate|].
  apply orb_false_iff in Hcond as [Hs He].
  apply Z.eqb_neq in Hs. apply Z.eqb_neq in He.
  pose proof (find_bounds LBRACE (fences_removed raw)) as Bs.
  pose proof (rfind_bounds RBRACE (fences_removed raw)) as Be.
  destruct (find_first LBRACE (fences_removed raw)) as (a & b & Hab & Ha & Hfind); [lia|].
  destruct (rfind_last RBRACE (fences_removed raw)) as (a' & b' & Hab' & Hb' & Hrfind); [lia|].
  assert (Hslice : slice (fences_removed raw)
                     (find LBRACE (fences_removed raw))
                     (rfind RBRACE (fences_removed raw) + 1)
                   = skipn (length a) (a' ++ [RBRACE])).
  { rewrite Hfind, Hrfind.
    replace (Z.of_nat (length a') + 1)%Z with (Z.of_nat (S (length a'))) by lia.
    rewrite slice_inside.
    - now rewrite (firstn_snoc _ _ RBRACE a' b' Hab' eq_refl).
    - rewrite Hab', length_app. cbn [length]. lia. }
  rewrite Hslice. intros Hc. injection Hc as <-.
  destruct (Nat.lt_trichotomy (length a) (length a')) as [Hlt|[Heq|Hgt]].
  - right.
    assert (Hmid : exists body, a' = a ++ LBRACE :: body).
    { exists (firstn (length a' - S (length a)) b).
      assert (H1 : firstn (length a') (fences_removed raw) = a').
      { rewrite Hab'. rewrite firstn_app, firstn_all, Nat.sub_diag.
        cbn [firstn]. apply app_nil_r. }
      rewrite Hab in H1. rewrite firstn_app in H1.
      rewrite firstn_all2 in H1 by lia.
      replace (length a' - length a) with (S (length a' - S (length a))) in H1 by lia.
      cbn [firstn] in H1. now symmetry. }
    destruct Hmid as [body Hbody]. exists a, body, b'. split.
    + rewrite Hab', Hbody. app_norm. reflexivity.
    + rewrite Hbody. rewrite <- app_assoc, skipn_app, skipn_all, Nat.sub_diag.
      cbn [skipn app]. now rewrite strip_id.
  - exfalso.
    assert (H1 : nth (length a) (fences_removed raw) 0%N = LBRACE).
    { rewrite Hab. apply nth_middle. }
    assert (H2 : nth (length a) (fences_removed raw) 0%N = RBRACE).
    { rewrite Heq, Hab'. apply nth_middle. }
    rewrite H1 in H2. discriminate.
  - left. rewrite skipn_all2; [reflexivity|].
    rewrite length_app. cbn [length]. lia.
Qed.

(** X9.  A non-empty text returned by [_clean_response] runs from an
    opening brace to a closing brace, holds no run of three backticks,
    and is left unchanged by a second cleaning. *)
Theorem clean_response_idempotent (raw c : str) :
  _clean_response raw = Ok c ->
  c <> [] ->
  object_text c = true /\
  contains backticks c = false /\
  _clean_response c = Ok c.
Proof.
  intros H Hne. destruct (clean_response_shape raw c H) as [->|(pre & body & post & Hf & ->)];
    [congruence|].
  assert (Hb : contains backticks (LBRACE :: body ++ [RBRACE]) = false).
  { pose proof (fences_removed_no_backticks raw) as Hno. rewrite Hf in Hno.
    apply contains_suffix in Hno. now apply contains_prefix in Hno. }
  split; [|split; [exact Hb|]].
  - cbn [object_text]. rewrite last_last. reflexivity.
  - pose proof (clean_response_wrapped [] body [] (Forall_nil _) (Forall_nil _) Hb) as Hw.
    cbn [app] in Hw. rewrite app_nil_r in Hw. exact Hw.
Qed.

(** The fenced story of the concrete scenario and its cleaned text. *)
Lemma clean_response_idempotent_witness :
  object_text lakers_text = true /\
  contains backticks lakers_text = false /\
  _clean_response lakers_text = Ok lakers_text.
Proof.
  apply (clean_response_idempotent
           (lakers_preamble ++ lakers_text ++ lakers_trailer) lakers_text).
  - vm_compute. reflexivity.
  - discriminate.
Defined.

(** ** What the validation can raise *)

Lemma outcome_bind {A B} (m : io A) (k : A -> io B) :
  outcome (bind m k) = rbind (outcome m) (fun a => outcome (k a)).
Proof. destruct m as [evs [a|x]]; cbn; [|reflexivity]. now destruct (k a). Qed.

Lemma events_bind {A B} (m : io A) (k : A -> io B) :
  events (bind m k) =
  events m ++ match outcome m with Ok a => events (k a) | Raise _ => [] end.
Proof.
  destruct m as [evs [a|x]]; cbn; [|now rewrite app_nil_r]. now destruct (k a).
Qed.

Lemma check_slide_raises (i : nat) (slide : json) (x : exn) :
  check_slide i slide = Raise x ->
  module_error x = true \/ x = AttributeError \/ x = TypeError.
Proof.
  destruct (is_dict slide) eqn:D.
  - destruct (is_str (type_of_slide slide)) eqn:S.
    + destruct slide as [| | | | | |sd]; try discriminate.
      cbn [type_of_slide] in S.
      destruct (dict_get (lit "type") sd) as [[| | | |t| |]|] eqn:E; try discriminate.
      rewrite (check_slide_dict i sd t E).
      destruct (fields_of_type t) as [fields|].
      * destruct (first_missing fields sd); [|discriminate].
        intros H. injection H as <-. now left.
      * intros H. injection H as <-. now left.
    + rewrite (check_slide_not_string i slide D S).
      destruct (hashable (type_of_slide slide)); intros H; injection H as <-; auto.
  - rewrite (check_slide_not_dict i slide D). intros H. injection H as <-. auto.
Qed.

Lemma check_slides_raises (i : nat) (slides : list json) (x : exn) :
  check_slides i slides = Raise x ->
  module_error x = true \/ x = AttributeError \/ x = TypeError.
Proof.
  revert i. induction slides as [|s slides IH]; intros i; [discriminate|].
  cbn [check_slides]. destruct (check_slide i s) as [[]|y] eqn:C; cbn [rbind].
  - apply IH.
  - intros H. injection H as <-. exact (check_slide_raises i s y C).
Qed.

Lemma validate_schema_dict_raises (d : dict) (x : exn) :
  outcome (_validate_schema (JDict d)) = Raise x ->
  module_error x = true \/ x = AttributeError \/ x = TypeError.
Proof.
  destruct (has_all required_top_level d) eqn:Hall.
  - destruct (has_all_get required_top_level d (lit "slides") Hall) as [v Hv].
    { unfold required_top_level. cbn [In]. auto 10. }
    destruct (is_list v) eqn:L.
    + destruct v as [| | | | |l|]; try discriminate.
      rewrite (validate_schema_list_outcome d l Hall Hv).
      destruct (check_slides 0 l) as [[]|y] eqn:C; cbn [rbind].
      * apply check_slides_ok in C. rewrite (slide_types_valid_map l C). discriminate.
      * intros H. injection H as <-. exact (check_slides_raises 0 l y C).
    + rewrite (validate_schema_not_list d v Hall Hv L).
      intros H. injection H as <-. now left.
  - destruct (has_all_false _ _ Hall) as [f Hf].
    unfold _validate_schema. rewrite check_top_level_dict, Hf.
    intros H. injection H as <-. now left.
Qed.

Lemma decoded_cleaned_dict (raw c : str) (v : json) :
  _clean_response raw = Ok c -> loads c = Decoded v -> exists d, v = JDict d.
Proof.
  intros Hc Hl.
  destruct (clean_response_shape raw c Hc) as [->|(pre & body & post & _ & ->)].
  - discriminate.
  - exact (loads_brace_dict _ v Hl).
Qed.

Lemma validate_raises_cases (raw : str) (x : exn) :
  outcome (validate raw) = Raise x ->
  module_error x = true \/ x = AttributeError \/ x = TypeError.
Proof.
  unfold validate.
  destruct (_clean_response raw) as [c|y] eqn:E1.
  - rewrite bind_lift_ok. unfold _parse_json.
    destruct (loads c) as [v|err] eqn:E2.
    + rewrite bind_lift_ok.
      destruct (decoded_cleaned_dict raw c v E1 E2) as [d ->].
      rewrite outcome_bind.
      destruct (outcome (_validate_schema (JDict d))) as [[]|y] eqn:V; cbn [rbind].
      * discriminate.
      * intros H. injection H as <-. exact (validate_schema_dict_raises d y V).
    + intros H. injection H as <-. now left.
  - unfold _clean_response in E1.
    destruct ((find LBRACE (fences_removed raw) =? -1)%Z
              || (rfind RBRACE (fences_removed raw) =? -1)%Z); [|discriminate].
    injection E1 as <-. intros H. injection H as <-. now left.
Qed.



(** ** Persistence *)

Lemma write_json_ok (e : env) (story : json) (team_key p : str) :
  outcome (_write_json e story team_key) = Ok p ->
  (makedirs_ok e = true /\ open_ok e = true /\ dump_ok e = true /\
   has_surrogate story = false) /\
  p = output_file e team_key /\
  events (_write_json e story team_key) =
    [Makedirs (output_dir e); OpenFile p; DumpJson p story].
Proof.
  unfold _write_json.
  destruct (makedirs_ok e); [|discriminate].
  destruct (open_ok e); [|discriminate].
  destruct (has_surrogate story); [discriminate|].
  destruct (dump_ok e); [|discriminate].
  cbn. intros H. injection H as <-. repeat split; reflexivity.
Qed.

Lemma output_dir_tail (e : env) : exists x, output_dir e = (x ++ lit "outpu") ++ [chr "t"].
Proof.
  unfold output_dir, path_join.
  change (startswith (lit "/") (lit "output")) with false. cbn match.
  destruct (module_dir e) as [|c r].
  - now exists [].
  - destruct (char_eqb (last (c :: r) 0%N) (chr "/")).
    + exists (c :: r). now rewrite <- app_assoc.
    + exists ((c :: r) ++ lit "/"). now rewrite <- !app_assoc.
Qed.

Lemma startswith_slash_app (k s : str) :
  startswith (lit "/") s = false ->
  startswith (lit "/") (k ++ s) = startswith (lit "/") k.
Proof.
  intros H. destruct k as [|c k]; [exact H|]. cbn [app].
  change (lit "/") with [chr "/"]. cbn [startswith]. reflexivity.
Qed.

Lemma output_file_location (e : env) (team_key : str) :
  output_file e team_key =
    if startswith (lit "/") team_key then team_key ++ lit "_story_" ++ timestamp e ++ lit ".json"
    else output_dir e ++ lit "/" ++ team_key ++ lit "_story_" ++ timestamp e ++ lit ".json".
Proof.
  unfold output_file. unfold path_join at 1.
  rewrite startswith_slash_app by reflexivity.
  destruct (startswith (lit "/") team_key); [reflexivity|].
  destruct (output_dir_tail e) as [x Hx]. rewrite Hx.
  rewrite last_last.
  destruct ((x ++ lit "outpu") ++ [chr "t"]) eqn:E.
  - destruct (x ++ lit "outpu"); discriminate.
  - reflexivity.
Qed.

(** X10.  When [_write_json] returns, it has asked for the output
    directory, opened the file whose path it returns and dumped the story
    into that file, in this order and nothing else.  The file lies
    directly in the output directory, under the name made of the team
    key, [_story_], the timestamp and [.json], unless the team key starts
    with a slash: then the output directory is dropped from the path. *)
Theorem json_file_location (e : env) (story : json) (team_key p : str) :
  outcome (_write_json e story team_key) = Ok p ->
  events (_write_json e story team_key) =
    [Makedirs (output_dir e); OpenFile p; DumpJson p story] /\
  p = if startswith (lit "/") team_key
      then team_key ++ lit "_story_" ++ timestamp e ++ lit ".json"
      else output_dir e ++ lit "/" ++ team_key ++
           lit "_story_" ++ timestamp e ++ lit ".json".
Proof.
  intros H. destruct (write_json_ok e story team_key p H) as (_ & Hp & Hev).
  split; [exact Hev|]. rewrite Hp. apply output_file_location.
Qed.

(** A plain team key, and one that starts with a slash. *)
Lemma json_file_location_witness :
  (events (_write_json sample_env (JDict lakers_story) (lit "lakers")) =
     [Makedirs (lit "/app/output");
      OpenFile (lit "/app/output/lakers_story_20260213_143022.json");
      DumpJson (lit "/app/output/lakers_story_20260213_143022.json")
        (JDict lakers_story)] /\
   lit "/app/output/lakers_story_20260213_143022.json" =
     lit "/app/output" ++ lit "/" ++ lit "lakers" ++
     lit "_story_" ++ lit "20260213_143022" ++ lit ".json") /\
  (events (_write_json sample_env (JDict lakers_story) (lit "/tmp/x")) =
     [Makedirs (lit "/app/output");
      OpenFile (lit "/tmp/x_story_20260213_143022.json");
      DumpJson (lit "/tmp/x_story_20260213_143022.json") (JDict lakers_story)] /\
   lit "/tmp/x_story_20260213_143022.json" =
     lit "/tmp/x" ++ lit "_story_" ++ lit "20260213_143022" ++ lit ".json").
Proof.
  split.
  - apply (json_file_location sample_env (JDict lakers_story) (lit "lakers")
             (lit "/app/output/lakers_story_20260213_143022.json")).
    vm_compute. reflexivity.
  - apply (json_file_location sample_env (JDict lakers_story) (lit "/tmp/x")
             (lit "/tmp/x_story_20260213_143022.json")).
    vm_compute. reflexivity.
Defined.

Lemma persist_ok_inv (e : env) (team_key : str) (story story' : json) :
  outcome (persist e team_key story) = Ok story' ->
  makedirs_ok e = true /\ open_ok e = true /\ dump_ok e = true /\
  has_surrogate story = false.
Proof.
  unfold persist. rewrite outcome_bind.
  destruct (outcome (_write_json e story team_key)) as [p|x] eqn:W; [|discriminate].
  intros _. now destruct (write_json_ok e story team_key p W) as (Hf & _).
Qed.

(** X11.  [parse_and_save] returns a story only after having written it:
    the story passed the validation and has the shape the schema check
    accepts, and after the prints of the validation the run asked for the
    output directory, opened one file, dumped the returned story into it
    and printed the path of that file, in this order and nothing else. *)
Theorem returned_story_is_written (e : env) (raw team_key : str) (story : json) :
  outcome (parse_and_save e raw team_key) = Ok story ->
  outcome (validate raw) = Ok story /\
  story_shaped story = true /\
  events (parse_and_save e raw team_key) =
    events (validate raw) ++
    [Makedirs (output_dir e); OpenFile (output_file e team_key);
     DumpJson (output_file e team_key) story;
     Print (StorySaved (output_file e team_key))].
Proof.
  rewrite parse_and_save_validate, outcome_bind, events_bind.
  destruct (outcome (validate raw)) as [s|x] eqn:V; cbn [rbind]; [|discriminate].
  intros H. pose proof (persist_returns e team_key s story H) as ->.
  destruct (persist_ok_inv e team_key s s H) as (H1 & H2 & H3 & H4).
  rewrite (persist_ok e team_key s H1 H2 H3 H4).
  split; [reflexivity|split; [|reflexivity]].
  destruct (validate_ok raw s V) as (c & _ & _ & Hs).
  now apply validate_schema_shaped.
Qed.

(** The story of the concrete scenario. *)
Lemma returned_story_is_written_witness :
  outcome (validate lakers_text) = Ok (JDict lakers_story) /\
  story_shaped (JDict lakers_story) = true /\
  events (parse_and_save sample_env lakers_text (lit "lakers")) =
    events (validate lakers_text) ++
    [Makedirs (output_dir sample_env);
     OpenFile (output_file sample_env (lit "lakers"));
     DumpJson (output_file sample_env (lit "lakers")) (JDict lakers_story);
     Print (StorySaved (output_file sample_env (lit "lakers")))].
Proof.
  apply (returned_story_is_written sample_env lakers_text (lit "lakers")
           (JDict lakers_story)).
  vm_compute. reflexivity.
Defined.

Lemma persist_surrogate (e : env) (team_key : str) (story : json) :
  has_surrogate story = true ->
  makedirs_ok e = true -> open_ok e = true ->
  persist e team_key story =
    ([Makedirs (output_dir e); OpenFile (output_file e team_key)],
     Raise UnicodeEncodeError).
Proof.
  intros Hs H1 H2. unfold persist, _write_json. rewrite H1, H2, Hs. reflexivity.
Qed.

(** X12.  A story that passed the validation but holds a lone surrogate
    in a string or a key is not saved: where the directory and the file
    can be made, [parse_and_save] prints what the validation prints,
    asks for the directory, opens the file and then raises
    [UnicodeEncodeError] from the dump, so that the file is left behind
    without the story and no path is printed. *)
Theorem surrogate_story_not_saved (e : env) (raw team_key : str) (story : json) :
  outcome (validate raw) = Ok story ->
  has_surrogate story = true ->
  makedirs_ok e = true -> open_ok e = true ->
  parse_and_save e raw team_key =
    (events (validate raw) ++
       [Makedirs (output_dir e); OpenFile (output_file e team_key)],
     Raise UnicodeEncodeError).
Proof.
  intros V Hs H1 H2. rewrite parse_and_save_validate.
  destruct (validate raw) as [evs [s|x]]; cbn in V; [|discriminate].
  injection V as V. subst s.
  cbn [bind]. rewrite (persist_surrogate e team_key story Hs H1 H2). reflexivity.
Qed.

(** A team name given as the escape of a lone surrogate. *)
Lemma surrogate_story_not_saved_witness :
  parse_and_save sample_env surrogate_text (lit "lakers") =
    (events (validate surrogate_text) ++
       [Makedirs (output_dir sample_env);
        OpenFile (output_file sample_env (lit "lakers"))],
     Raise UnicodeEncodeError).
Proof.
  apply (surrogate_story_not_saved sample_env surrogate_text (lit "lakers")
           (JDict surrogate_story)).
  - vm_compute. reflexivity.
  - vm_compute. reflexivity.
  - reflexivity.
  - reflexivity.
Defined.

Lemma validate_schema_events (story : json) :
  forallb validation_print (events (_validate_schema story)) = true.
Proof.
  unfold _validate_schema.
  repeat (rewrite events_bind, forallb_app; apply andb_true_iff; split;
          [|match goal with
            | |- context [match outcome ?m with _ => _ end] =>
                destruct (outcome m); [|reflexivity]
            end]);
    try reflexivity;
    match goal with
    | |- context [if ?b then _ else _] => destruct b; reflexivity
    end.
Qed.

Lemma validate_events (raw : str) :
  forallb validation_print (events (validate raw)) = true.
Proof.
  unfold validate.
  destruct (_clean_response raw) as [cleaned|x]; [|reflexivity].
  rewrite bind_lift_ok.
  destruct (_parse_json cleaned) as [story|x]; [|reflexivity].
  rewrite bind_lift_ok.
  pose proof (validate_schema_events story) as H.
  destruct (_validate_schema story) as [evs [[]|x]]; cbn in *; [|exact H].
  now rewrite app_nil_r.
Qed.

(** X13.  [parse_and_save] never announces a file it did not write: when
    the message with the path of the saved story was printed, the run
    returned a story and that story was dumped into the file at that
    path. *)
Theorem saved_message_means_saved (e : env) (raw team_key p : str) :
  In (Print (StorySaved p)) (events (parse_and_save e raw team_key)) ->
  exists story,
    outcome (parse_and_save e raw team_key) = Ok story /\
    In (DumpJson p story) (events (parse_and_save e raw team_key)).
Proof.
  rewrite parse_and_save_validate, outcome_bind, events_bind.
  intros H. apply in_app_or in H as [H|H].
  - pose proof (validate_events raw) as Hv. rewrite forallb_forall in Hv.
    apply Hv in H. discriminate.
  - destruct (outcome (validate raw)) as [s|x]; [|destruct H].
    exists s. cbn [rbind]. revert H. unfold persist, _write_json.
    destruct (makedirs_ok e), (open_ok e), (has_surrogate s), (dump_ok e); cbn;
      intros H; try tauto;
      repeat (destruct H as [H|H]; try discriminate; try tauto).
    injection H as <-. split; [reflexivity|]. apply in_or_app. right. cbn. tauto.
Qed.

(** The story of the concrete scenario. *)
Lemma saved_message_means_saved_witness :
  exists story,
    outcome (parse_and_save sample_env lakers_text (lit "lakers")) = Ok story /\
    In (DumpJson (lit "/app/output/lakers_story_20260213_143022.json") story)
       (events (parse_and_save sample_env lakers_text (lit "lakers"))).
Proof.
  apply (saved_message_means_saved sample_env lakers_text (lit "lakers")
           (lit "/app/output/lakers_story_20260213_143022.json")).
  vm_compute. do 5 right. left. reflexivity.
Defined.

(* ===================================================================== *)
(** * Properties of html_renderer.py *)
(* ===================================================================== *)

(** ** The theme *)

Lemma keys_get (k : str) (d : dict) :
  In k (keys d) -> exists v, dict_get k d = Some v.
Proof.
  induction d as [|[k' v'] d IH]; [easy|].
  cbn [keys map fst In dict_get]. intros H.
  destruct (str_eqb k' k) eqn:E; [now exists v'|].
  destruct H as [->|H]; [now rewrite str_eqb_refl in E|now apply IH].
Qed.

Lemma result_colour (res : json) :
  hashable res = true ->
  py_get_default result_colours res (JStr (lit "#888888")) =
    Ok (JStr (badge_colour res)).
Proof.
  destruct res as [| | | |r| |]; try discriminate; try reflexivity. intros _.
  unfold badge_colour, py_eq_str, py_get_default, result_colours.
  cbn [dict_get].
  rewrite (str_eqb_sym (lit "WIN") r), (str_eqb_sym (lit "LOSS") r),
    (str_eqb_sym (lit "DRAW") r).
  destruct (str_eqb r (lit "WIN")); [reflexivity|].
  destruct (str_eqb r (lit "LOSS")); [reflexivity|].
  destruct (str_eqb r (lit "DRAW")); reflexivity.
Qed.

Lemma base_palette (team_key : str) :
  exists p,
    py_get_default palettes (JStr team_key) fallback_palette = Ok (JDict p) /\
    keys p = removelast theme_keys /\
    forallb (fun kv => is_str (snd kv)) p = true.
Proof.
  unfold py_get_default, palettes. cbn [dict_get].
  destruct (str_eqb _ team_key); [eexists; repeat split; reflexivity|].
  destruct (str_eqb _ team_key); eexists; repeat split; reflexivity.
Qed.

Lemma dict_set_new (k : str) (v : json) (d : dict) :
  ~ In k (keys d) -> dict_set k v d = d ++ [(k, v)].
Proof.
  induction d as [|[k' v'] d IH]; [reflexivity|].
  cbn [keys map fst In dict_set app]. intros H.
  destruct (str_eqb k' k) eqn:E.
  - apply str_eqb_eq in E. tauto.
  - f_equal. apply IH. tauto.
Qed.

Lemma get_theme_dict (team_key : str) (res : json) :
  hashable res = true ->
  exists p,
    _get_theme team_key res = Ok (JDict (p ++ [(lit "result_tag", JStr (badge_colour res))])) /\
    keys p = removelast theme_keys /\
    forallb (fun kv => is_str (snd kv)) p = true.
Proof.
  intros Hh. destruct (base_palette team_key) as (p & Hp & Hk & Hs).
  exists p. split; [|now split].
  unfold _get_theme. rewrite Hp. cbn [rbind]. rewrite (result_colour res Hh).
  cbn [rbind py_setitem]. rewrite dict_set_new; [reflexivity|].
  rewrite Hk. vm_compute. intuition discriminate.
Qed.

(** X14.  For every team key and every result that is not a list or a
    dict, [_get_theme] returns a theme with the seven keys the templates
    read, in their order, each with a string value; an unknown team gets
    the fallback palette rather than an error.  The colour of the result
    badge is green, red or amber for WIN, LOSS, DRAW and grey for any
    other result. *)
Theorem theme_is_complete (team_key : str) (res : json) :
  hashable res = true ->
  exists d,
    _get_theme team_key res = Ok (JDict d) /\
    keys d = theme_keys /\
    forallb (fun kv => is_str (snd kv)) d = true /\
    dict_get (lit "result_tag") d = Some (JStr (badge_colour res)).
Proof.
  intros Hh. destruct (get_theme_dict team_key res Hh) as (p & Ht & Hk & Hs).
  exists (p ++ [(lit "result_tag", JStr (badge_colour res))]).
  split; [exact Ht|]. split; [|split].
  - unfold keys in *. rewrite map_app, Hk. reflexivity.
  - rewrite forallb_app, Hs. reflexivity.
  - clear Ht Hs. revert Hk.
    destruct p as [|[k1 v1] [|[k2 v2] [|[k3 v3] [|[k4 v4] [|[k5 v5]
      [|[k6 v6] [|? ?]]]]]]]; try discriminate.
    cbn [keys map fst removelast theme_keys]. intros Hk.
    injection Hk as -> -> -> -> -> ->. reflexivity.
Qed.

(** A team without a palette and a result that is none of the three. *)
Lemma theme_is_complete_witness :
  exists d,
    _get_theme (lit "celtics") (JStr (lit "MAYBE")) = Ok (JDict d) /\
    keys d = theme_keys /\
    forallb (fun kv => is_str (snd kv)) d = true /\
    dict_get (lit "result_tag") d = Some (JStr (lit "#888888")).
Proof.
  apply (theme_is_complete (lit "celtics") (JStr (lit "MAYBE"))).
  reflexivity.
Defined.

(** ** f-strings *)

Section RendererProperties.

Variable str_other : json -> str.

Lemma fstring_ok (pieces : list piece) :
  Forall piece_ok pieces -> exists s, fstring str_other pieces = Ok s.
Proof.
  induction 1 as [|p ps Hp _ [s IH]]; [now exists []|].
  destruct p as [t|v]; cbn [fstring]; rewrite IH.
  - now eexists.
  - destruct Hp as [x ->]. now eexists.
Qed.

Lemma fstring_hole (pieces : list piece) (k : nat) (v : result json) (html : str) :
  fstring str_other pieces = Ok html ->
  nth_error pieces k = Some (Hole v) ->
  exists x, v = Ok x /\ occurs_in (py_str str_other x) html.
Proof.
  revert k html. induction pieces as [|p ps IH]; intros k html H Hk.
  - destruct k; discriminate.
  - cbn [fstring] in H. destruct k as [|k].
    + injection Hk as ->.
      destruct v as [x|e]; [|discriminate]. cbn [rbind] in H.
      destruct (fstring str_other ps) as [r|e]; [|discriminate].
      injection H as <-. exists x. split; [reflexivity|]. now exists [], r.
    + cbn [nth_error] in Hk.
      destruct p as [t|w].
      * destruct (fstring str_other ps) as [r|e] eqn:F; [|discriminate].
        injection H as <-.
        destruct (IH k r eq_refl Hk) as (x & Hx & a & b & ->).
        exists x. split; [exact Hx|]. exists (t ++ a), b. now rewrite <- app_assoc.
      * destruct w as [y|e]; [|discriminate]. cbn [rbind] in H.
        destruct (fstring str_other ps) as [r|e] eqn:F; [|discriminate].
        injection H as <-.
        destruct (IH k r eq_refl Hk) as (x & Hx & a & b & ->).
        exists x. split; [exact Hx|].
        exists (py_str str_other y ++ a), b. now rewrite <- app_assoc.
Qed.

(** ** A validated story is rendered *)

Ltac solve_pieces lookup :=
  repeat (apply Forall_cons;
          [first [exact I | eexists; reflexivity | lookup]|]);
  apply Forall_nil.

Section Themed.

Variable theme : json.
Hypothesis Htheme :
  forall k, In k theme_keys -> exists v, py_getitem theme k = Ok v.

Lemma has_all_getitem (fields : list str) (sd : dict) (f : str) :
  has_all fields sd = true -> In f fields ->
  exists v, py_getitem (JDict sd) f = Ok v.
Proof.
  intros Hall Hin. destruct (has_all_get fields sd f Hall Hin) as [v Hv].
  exists v. cbn [py_getitem]. now rewrite Hv.
Qed.

Ltac lookup_theme := apply Htheme; unfold theme_keys; cbn [In]; auto 10.

Lemma render_headline_ok (sd : dict) (res : json) :
  has_all [lit "text"; lit "subtext"] sd = true ->
  exists html, _render_headline str_other (JDict sd) theme res = Ok html.
Proof.
  intros Hall. apply fstring_ok.
  solve_pieces ltac:(first [lookup_theme
                           | apply (has_all_getitem _ sd _ Hall); cbn [In]; auto]).
Qed.

Lemma render_stat_ok (sd : dict) :
  has_all [lit "stat_label"; lit "stat_value"; lit "narrative"] sd = true ->
  exists html, _render_stat str_other (JDict sd) theme = Ok html.
Proof.
  intros Hall. apply fstring_ok.
  solve_pieces ltac:(first [lookup_theme
                           | apply (has_all_getitem _ sd _ Hall); cbn [In]; auto]).
Qed.

Lemma render_cta_ok (sd : dict) :
  has_all [lit "text"; lit "subtext"] sd = true ->
  exists html, _render_cta str_other (JDict sd) theme = Ok html.
Proof.
  intros Hall. apply fstring_ok.
  solve_pieces ltac:(first [lookup_theme
                           | apply (has_all_getitem _ sd _ Hall); cbn [In]; auto]).
Qed.

Lemma render_slide_ok (slide res : json) :
  valid_slide slide = true ->
  exists html, _render_slide str_other slide theme res = Ok html.
Proof.
  destruct slide as [| | | | | |sd]; try discriminate. cbn [valid_slide].
  destruct (dict_get (lit "type") sd) as [[| | | |t| |]|] eqn:E; try discriminate.
  unfold _render_slide, py_get. rewrite E. cbn [rbind py_eq_str].
  unfold fields_of_type.
  destruct (str_eqb t (lit "headline")); [apply render_headline_ok|].
  destruct (str_eqb t (lit "stat")); [apply render_stat_ok|].
  destruct (str_eqb t (lit "cta")); [apply render_cta_ok|discriminate].
Qed.

Lemma render_slides_ok (story : json) (res : json) (slides : list json) :
  py_getitem story (lit "result") = Ok res ->
  forallb valid_slide slides = true ->
  exists htmls, render_slides str_other story theme slides = Ok htmls.
Proof.
  intros Hres. induction slides as [|s slides IH]; [now exists []|].
  cbn [forallb]. intros H. apply andb_true_iff in H as [Hs Hr].
  destruct (IH Hr) as [htmls Hh].
  destruct (render_slide_ok s res Hs) as [html Hhtml].
  cbn [render_slides]. rewrite Hres. cbn [rbind]. rewrite Hhtml. cbn [rbind].
  rewrite Hh. now eexists.
Qed.

Lemma build_document_ok (today : str) (d : dict) (slides_html : str) :
  has_all required_top_level d = true ->
  exists html, _build_document str_other today (JDict d) slides_html theme = Ok html.
Proof.
  intros Hall. apply fstring_ok.
  solve_pieces ltac:(first [lookup_theme
                           | apply (has_all_getitem _ d _ Hall);
                             unfold required_top_level; cbn [In]; auto 10]).
Qed.

End Themed.

Lemma theme_lookups (team_key : str) (res theme : json) :
  hashable res = true ->
  _get_theme team_key res = Ok theme ->
  forall k, In k theme_keys -> exists v, py_getitem theme k = Ok v.
Proof.
  intros Hh Ht k Hk.
  destruct (get_theme_dict team_key res Hh) as (p & Hp & Hkeys & _).
  rewrite Hp in Ht. injection Ht as <-.
  destruct (keys_get k (p ++ [(lit "result_tag", JStr (badge_colour res))]))
    as [v Hv].
  - unfold keys in *. rewrite map_app, Hkeys. exact Hk.
  - exists v. cbn [py_getitem]. now rewrite Hv.
Qed.

Lemma story_shaped_render (today : str) (story : json) (team_key : str) (res : json) :
  story_shaped story = true ->
  py_getitem story (lit "result") = Ok res ->
  hashable res = true ->
  exists html, render_page str_other today story team_key = Ok html.
Proof.
  destruct story as [| | | | | |d]; try discriminate. cbn [story_shaped].
  intros H Hres Hh. apply andb_true_iff in H as [Hall Hslides].
  destruct (dict_get (lit "slides") d) as [[| | | | |l|]|] eqn:Hv; try discriminate.
  destruct (get_theme_dict team_key res Hh) as (p & Hp & _).
  pose proof (theme_lookups team_key res _ Hh Hp) as Hlook.
  destruct (render_slides_ok _ Hlook (JDict d) res l Hres Hslides) as [htmls Hh'].
  unfold render_page. rewrite Hres. cbn [rbind]. rewrite Hp. cbn [rbind].
  cbn [py_getitem]. rewrite Hv. cbn [rbind py_iterate]. rewrite Hh'. cbn [rbind].
  now apply build_document_ok.
Qed.


Lemma get_theme_unhashable (team_key : str) (res : json) :
  hashable res = false -> _get_theme team_key res = Raise TypeError.
Proof.
  intros Hh. unfold _get_theme.
  destruct (base_palette team_key) as (p & -> & _). cbn [rbind].
  destruct res; try discriminate; reflexivity.
Qed.

(** X16.  A story whose [result] is a list or an object is not rendered:
    [render_html] raises [TypeError] when [_get_theme] looks the result
    up among the badge colours.  The schema check does not exclude such a
    story, since it asks only for the presence of the key. *)
Theorem unhashable_result_not_rendered (today team_key : str) (story res : json) :
  py_getitem story (lit "result") = Ok res ->
  hashable res = false ->
  render_page str_other today story team_key = Raise TypeError.
Proof.
  intros Hres Hh. unfold render_page. rewrite Hres. cbn [rbind].
  now rewrite (get_theme_unhashable team_key res Hh).
Qed.

(** ** No escaping *)

Lemma occurs_in_trans (a b c : str) : occurs_in a b -> occurs_in b c -> occurs_in a c.
Proof.
  intros (x & y & ->) (u & v & ->). exists (u ++ x), (y ++ v).
  now rewrite <- !app_assoc.
Qed.

Lemma occurs_in_join (sep html : str) (htmls : list str) :
  In html htmls -> occurs_in html (join sep htmls).
Proof.
  induction htmls as [|h hs IH]; [easy|]. intros [->|H].
  - destruct hs as [|h' hs]; cbn [join].
    + exists [], []. now rewrite app_nil_r.
    + now exists [], (sep ++ join sep (h' :: hs)).
  - destruct (IH H) as (a & b & Hj).
    destruct hs as [|h' hs]; [destruct H|].
    cbn [join] in *. rewrite Hj. exists (h ++ sep ++ a), b.
    now rewrite <- !app_assoc.
Qed.

Lemma render_slides_In (story theme slide : json) (slides : list json)
  (htmls : list str) :
  render_slides str_other story theme slides = Ok htmls ->
  In slide slides ->
  exists res html,
    _render_slide str_other slide theme res = Ok html /\ In html htmls.
Proof.
  revert htmls. induction slides as [|s slides IH]; intros htmls H Hin; [easy|].
  cbn [render_slides] in H.
  destruct (py_getitem story (lit "result")) as [res|e]; [|discriminate].
  cbn [rbind] in H.
  destruct (_render_slide str_other s theme res) as [html|e] eqn:R; [|discriminate].
  cbn [rbind] in H.
  destruct (render_slides str_other story theme slides) as [hs|e]; [|discriminate].
  injection H as <-. destruct Hin as [->|Hin].
  - exists res, html. split; [exact R|now left].
  - destruct (IH hs eq_refl Hin) as (res' & html' & Hr & Hi).
    exists res', html'. split; [exact Hr|now right].
Qed.

Lemma hole_text (pieces : list piece) (k : nat) (sd : dict) (f s html : str) :
  fstring str_other pieces = Ok html ->
  nth_error pieces k = Some (Hole (py_getitem (JDict sd) f)) ->
  dict_get f sd = Some (JStr s) ->
  occurs_in s html.
Proof.
  intros H Hk Hf. destruct (fstring_hole pieces k _ html H Hk) as (x & Hx & Ho).
  cbn [py_getitem] in Hx. rewrite Hf in Hx. injection Hx as <-. exact Ho.
Qed.

Lemma slide_field_verbatim (sd : dict) (theme res : json) (f s html : str) :
  field_of_slide f sd = true ->
  dict_get f sd = Some (JStr s) ->
  _render_slide str_other (JDict sd) theme res = Ok html ->
  occurs_in s html.
Proof.
  unfold field_of_slide, _render_slide, py_get.
  destruct (dict_get (lit "type") sd) as [[| | | |t| |]|]; try discriminate.
  cbn [rbind py_eq_str]. unfold fields_of_type.
  destruct (str_eqb t (lit "headline")).
  { cbn [existsb]. intros Hf Hs H.
    repeat (apply orb_true_iff in Hf as [Hf|Hf]); try discriminate;
      apply str_eqb_eq in Hf; subst f.
    - exact (hole_text _ 13 sd _ s html H eq_refl Hs).
    - exact (hole_text _ 17 sd _ s html H eq_refl Hs). }
  destruct (str_eqb t (lit "stat")).
  { cbn [existsb]. intros Hf Hs H.
    repeat (apply orb_true_iff in Hf as [Hf|Hf]); try discriminate;
      apply str_eqb_eq in Hf; subst f.
    - exact (hole_text _ 7 sd _ s html H eq_refl Hs).
    - exact (hole_text _ 11 sd _ s html H eq_refl Hs).
    - exact (hole_text _ 15 sd _ s html H eq_refl Hs). }
  destruct (str_eqb t (lit "cta")); [|discriminate].
  cbn [existsb]. intros Hf Hs H.
  repeat (apply orb_true_iff in Hf as [Hf|Hf]); try discriminate;
    apply str_eqb_eq in Hf; subst f.
  - exact (hole_text _ 9 sd _ s html H eq_refl Hs).
  - exact (hole_text _ 13 sd _ s html H eq_refl Hs).
Qed.

(** X17.  The renderer does not escape what it interpolates: in a page
    built by steps 1 to 3 of [render_html], every string held by a slide
    in a field of its type occurs character by character, so that markup
    in a slide text becomes markup of the page. *)
Theorem slide_text_not_escaped (today : str) (d : dict) (team_key : str)
  (l : list json) (sd : dict) (f s page : str) :
  render_page str_other today (JDict d) team_key = Ok page ->
  dict_get (lit "slides") d = Some (JList l) ->
  In (JDict sd) l ->
  field_of_slide f sd = true ->
  dict_get f sd = Some (JStr s) ->
  occurs_in s page.
Proof.
  intros H Hl Hin Hf Hs. unfold render_page in H.
  destruct (py_getitem (JDict d) (lit "result")) as [res|e]; [|discriminate].
  cbn [rbind] in H.
  destruct (_get_theme team_key res) as [theme|e]; [|discriminate].
  cbn [rbind py_getitem] in H. rewrite Hl in H. cbn [rbind py_iterate] in H.
  destruct (render_slides str_other (JDict d) theme l) as [htmls|e] eqn:R;
    [|discriminate].
  cbn [rbind] in H.
  destruct (render_slides_In _ _ _ _ _ R Hin) as (res' & html & Hr & Hi).
  apply (occurs_in_trans s html page).
  - exact (slide_field_verbatim sd theme res' f s html Hf Hs Hr).
  - apply (occurs_in_trans html (join [NL] htmls) page).
    + now apply occurs_in_join.
    + destruct (fstring_hole _ 17 _ page H eq_refl) as (x & Hx & Ho).
      injection Hx as <-. exact Ho.
Qed.

End RendererProperties.


(** A story with a list as its result passes the validation and is not
    rendered. *)
Lemma unhashable_result_not_rendered_witness :
  outcome (validate list_result_text) = Ok (JDict list_result_story) /\
  render_page sample_str (lit "13 Feb 2026") (JDict list_result_story) (lit "lakers")
  = Raise TypeError.
Proof.
  split.
  - vm_compute. reflexivity.
  - apply (unhashable_result_not_rendered sample_str (lit "13 Feb 2026")
             (lit "lakers") (JDict list_result_story) (JList [])).
    + vm_compute. reflexivity.
    + reflexivity.
Defined.

(** A headline whose text is a script element. *)
Lemma slide_text_not_escaped_witness :
  occurs_in (lit "<script>alert(1)</script>") markup_page.
Proof.
  apply (slide_text_not_escaped sample_str (lit "13 Feb 2026") markup_story
           (lit "lakers") [JDict markup_headline] markup_headline (lit "text")
           (lit "<script>alert(1)</script>") markup_page).
  - vm_compute. reflexivity.
  - vm_compute. reflexivity.
  - left. reflexivity.
  - vm_compute. reflexivity.
  - vm_compute. reflexivity.
Defined.

(* ===================================================================== *)
(** * Properties of main.py *)
(* ===================================================================== *)

(** ** The choice of the user *)

Lemma get_user_choice_valid (bad : list str) (good : str) (rest : list str) :
  forallb (fun line => negb (is_valid_choice (strip line))) bad = true ->
  is_valid_choice (strip good) = true ->
  get_user_choice (bad ++ good :: rest) = (asked_for bad, Returned (strip good), rest).
Proof.
  intros Hbad Hgood. induction bad as [|b bad IH].
  - cbn [app get_user_choice]. now rewrite Hgood.
  - cbn [forallb] in Hbad. apply andb_true_iff in Hbad as [Hb Hbad].
    apply negb_true_iff in Hb.
    cbn [app get_user_choice]. rewrite Hb, (IH Hbad). reflexivity.
Qed.

Lemma get_user_choice_eof (bad : list str) :
  forallb (fun line => negb (is_valid_choice (strip line))) bad = true ->
  get_user_choice bad = (asked_for bad, Failed EOFError, []).
Proof.
  intros Hbad. induction bad as [|b bad IH]; [reflexivity|].
  cbn [forallb] in Hbad. apply andb_true_iff in Hbad as [Hb Hbad].
  apply negb_true_iff in Hb.
  cbn [get_user_choice]. rewrite Hb, (IH Hbad). reflexivity.
Qed.

Lemma valid_choice_teams (choice : str) :
  is_valid_choice choice = true ->
  exists keys, teams_for choice = Some keys /\
    exists selected,
      team_of choice TEAMS = Ok selected /\
      (if str_eqb (key selected) (lit "both")
       then [lit "manutd"; lit "lakers"] else [key selected]) = keys.
Proof.
  unfold is_valid_choice, valid_choices, teams_for, TEAMS.
  cbn [map fst existsb team_of].
  rewrite (str_eqb_sym (lit "1") choice), (str_eqb_sym (lit "2") choice),
    (str_eqb_sym (lit "3") choice).
  destruct (str_eqb choice (lit "1")); [intros _; eexists; split; [reflexivity|];
    eexists; split; reflexivity|].
  destruct (str_eqb choice (lit "2")); [intros _; eexists; split; [reflexivity|];
    eexists; split; reflexivity|].
  destruct (str_eqb choice (lit "3")); [intros _; eexists; split; [reflexivity|];
    eexists; split; reflexivity|].
  discriminate.
Qed.

(** X18.  [get_user_choice] returns the first line of the input that is,
    once trimmed, one of the keys of [TEAMS]; it has then asked once for
    each line read and printed one complaint for each line before that
    one, and the lines after it are left unread.  Without such a line it
    ends with [EOFError] after the same questions.  The choice returned
    is one for which the menu names the teams to run. *)
Theorem first_valid_choice_is_taken (bad : list str) (good : str) (rest : list str) :
  forallb (fun line => negb (is_valid_choice (strip line))) bad = true ->
  is_valid_choice (strip good) = true ->
  get_user_choice (bad ++ good :: rest) = (asked_for bad, Returned (strip good), rest) /\
  get_user_choice bad = (asked_for bad, Failed EOFError, []) /\
  exists keys, teams_for (strip good) = Some keys.
Proof.
  intros Hbad Hgood. split; [now apply get_user_choice_valid|].
  split; [now apply get_user_choice_eof|].
  destruct (valid_choice_teams _ Hgood) as (keys & Hk & _). now exists keys.
Qed.

(** A wrong answer, then the third choice with blanks around it. *)
Lemma first_valid_choice_is_taken_witness :
  get_user_choice ([lit "7"] ++ lit " 3 " :: [lit "n"]) =
    (asked_for [lit "7"], Returned (strip (lit " 3 ")), [lit "n"]) /\
  get_user_choice [lit "7"] = (asked_for [lit "7"], Failed EOFError, []) /\
  exists keys, teams_for (strip (lit " 3 ")) = Some keys.
Proof.
  apply (first_valid_choice_is_taken [lit "7"] (lit " 3 ") [lit "n"]).
  - vm_compute. reflexivity.
  - vm_compute. reflexivity.
Defined.

(** ** The loop over the teams *)

Lemma attempt_actions_eq (w : world) (team_key : str) (results : list summary) :
  fst (attempt w team_key results) = attempt_actions w team_key.
Proof.
  unfold attempt_actions, attempt.
  destruct (run_pipeline w team_key) as [acts [r|f]]; [reflexivity|].
  destruct (is_ConnectionError f); [reflexivity|].
  destruct (is_ValueError f); [reflexivity|].
  destruct (is_Exception f); reflexivity.
Qed.

Lemma attempt_caught (w : world) (team_key : str) (results : list summary) :
  caught w team_key = true ->
  snd (attempt w team_key results) = Returned (results ++ succeeded w team_key).
Proof.
  unfold caught, succeeded, attempt.
  destruct (run_pipeline w team_key) as [acts [r|f]]; cbn [snd]; [reflexivity|].
  intros H. rewrite H, app_nil_r.
  destruct (is_ConnectionError f); [reflexivity|].
  destruct (is_ValueError f); reflexivity.
Qed.

Lemma run_teams_caught (w : world) (team_keys : list str) (results : list summary) :
  forallb (caught w) team_keys = true ->
  run_teams w team_keys results =
    (flat_map (attempt_actions w) team_keys,
     Returned (results ++ flat_map (succeeded w) team_keys)).
Proof.
  revert results. induction team_keys as [|k ks IH]; intros results H.
  - cbn. now rewrite app_nil_r.
  - cbn [forallb] in H. apply andb_true_iff in H as [Hk Hks].
    cbn [run_teams flat_map].
    pose proof (attempt_actions_eq w k results) as Ha.
    pose proof (attempt_caught w k results Hk) as Hr.
    destruct (attempt w k results) as [acts r]. cbn [fst snd] in Ha, Hr. subst.
    rewrite (IH _ Hks). now rewrite <- app_assoc.
Qed.

(** ** The run of [main] *)

Section MainRun.

Variable w : world.
Variables bad rest : list str.
Variable good : str.
Variable team_keys : list str.
Hypothesis Hbad :
  forallb (fun line => negb (is_valid_choice (strip line))) bad = true.
Hypothesis Hgood : is_valid_choice (strip good) = true.
Hypothesis Hkeys : teams_for (strip good) = Some team_keys.
Hypothesis Hcaught : forallb (caught w) team_keys = true.

Lemma main_closed_form :
  main w (bad ++ good :: rest) =
    let acts := Say Banner :: print_menu ++ asked_for bad
                ++ flat_map (attempt_actions w) team_keys in
    match flat_map (succeeded w) team_keys with
    | [] => (acts ++ [Say NoStories], Failed (SystemExit 1))
    | r :: rs =>
        let shown := acts ++ print_summary (r :: rs) ++ [Ask PreviewQuestion] in
        match rest with
        | [] => (shown, Failed EOFError)
        | line :: _ =>
            (shown ++ (if says_yes line then open_previews w (r :: rs) else []),
             Returned tt)
        end
    end.
Proof.
  unfold main. rewrite (get_user_choice_valid bad good rest Hbad Hgood).
  destruct (valid_choice_teams _ Hgood) as (keys & Hk & selected & Hsel & Hteams).
  rewrite Hkeys in Hk. injection Hk as <-.
  rewrite Hsel, Hteams. rewrite (run_teams_caught w team_keys [] Hcaught).
  cbn [app]. destruct (flat_map (succeeded w) team_keys) as [|r rs].
  - cbv zeta. f_equal. cbn [app]. f_equal. now rewrite <- !app_assoc.
  - cbv zeta. destruct rest as [|line rest'].
    + f_equal. cbn [app]. f_equal. now rewrite <- !app_assoc.
    + destruct (says_yes line).
      * f_equal. cbn [app]. f_equal. now rewrite <- !app_assoc.
      * rewrite app_nil_r. f_equal. cbn [app]. f_equal. now rewrite <- !app_assoc.
Qed.



End MainRun.



(** ** One team *)

Lemma parse_and_save_raises (e : env) (raw team_key : str) (x : exn) :
  outcome (validate raw) = Raise x ->
  parse_and_save e raw team_key = (events (validate raw), Raise x).
Proof.
  intros H. rewrite parse_and_save_validate.
  destruct (validate raw) as [evs [s|y]]; cbn in H; [discriminate|].
  now injection H as ->.
Qed.



Lemma write_html_raises (e : page_env) (html team_key : str) (x : exn) :
  snd (_write_html e html team_key) = Raise x -> x = OSError \/ x = UnicodeEncodeError.
Proof.
  unfold _write_html.
  destruct (page_makedirs_ok e); cbn [negb snd];
    [|intros H; injection H as <-; now left].
  destruct (page_open_ok e); cbn [negb snd];
    [|intros H; injection H as <-; now left].
  destruct (existsb is_surrogate html); cbn [snd];
    [intros H; injection H as <-; now right|].
  destruct (page_write_ok e); cbn [negb snd]; [discriminate|].
  intros H; injection H as <-; now left.
Qed.

(** X22.  For a story returned by the validation, [render_html] raises
    nothing but [TypeError], and that only when the result is a list or
    an object, or what the file operations of [_write_html] raise:
    [OSError], or [UnicodeEncodeError] for a page with a surrogate.  No
    [KeyError] and no [AttributeError] comes from the templates. *)
Theorem render_failures_after_validation (str_other : json -> str) (e : page_env)
  (raw team_key : str) (story : json) (x : exn) :
  outcome (validate raw) = Ok story ->
  snd (render_html str_other e story team_key) = Raise x ->
  (x = TypeError /\
   exists res, py_getitem story (lit "result") = Ok res /\ hashable res = false) \/
  x = OSError \/ x = UnicodeEncodeError.
Proof.
  intros V H. destruct (validate_ok raw story V) as (c & _ & _ & Hs).
  apply validate_schema_shaped in Hs.
  assert (Hres : exists res, py_getitem story (lit "result") = Ok res).
  { destruct story as [| | | | | |d]; try discriminate. cbn [story_shaped] in Hs.
    apply andb_true_iff in Hs as [Hall _].
    destruct (has_all_get required_top_level d (lit "result") Hall) as [v Hv].
    - unfold required_top_level. cbn [In]. auto 10.
    - exists v. cbn [py_getitem]. now rewrite Hv. }
  destruct Hres as [res Hres]. unfold render_html in H.
  destruct (hashable res) eqn:Hh.
  - destruct (story_shaped_render str_other (page_today e) story team_key res Hs Hres Hh)
      as [html Hhtml].
    rewrite Hhtml in H. right.
    pose proof (write_html_raises e html team_key) as Hw.
    destruct (_write_html e html team_key) as [evs [p|y]]; [discriminate|].
    cbn [snd] in *. injection H as <-. now apply Hw.
  - unfold render_page in H. rewrite Hres in H. cbn [rbind] in H.
    rewrite (get_theme_unhashable team_key res Hh) in H. cbn [rbind] in H.
    injection H as <-. left. split; [reflexivity|]. now exists res.
Qed.

(** The story whose result is a list. *)
Lemma render_failures_after_validation_witness :
  (TypeError = TypeError /\
   exists res, py_getitem (JDict list_result_story) (lit "result") = Ok res /\
               hashable res = false) \/
  TypeError = OSError \/ TypeError = UnicodeEncodeError.
Proof.
  apply (render_failures_after_validation sample_str sample_page_env
           list_result_text (lit "lakers") (JDict list_result_story) TypeError).
  - vm_compute. reflexivity.
  - vm_compute. reflexivity.
Defined.

Lemma render_html_ok (str_other : json -> str) (e : page_env) (story : json)
  (team_key : str) (evs : list page_event) (p : str) :
  render_html str_other e story team_key = (evs, Ok p) ->
  exists page,
    render_page str_other (page_today e) story team_key = Ok page /\
    evs = [PageMakedirs (path_join (page_dir e) (lit "output"));
           PageOpen p; PageWrite p page; PageSaved p].
Proof.
  unfold render_html.
  destruct (render_page str_other (page_today e) story team_key) as [page|x];
    [|discriminate].
  unfold _write_html.
  destruct (page_makedirs_ok e); cbn [negb]; [|discriminate].
  destruct (page_open_ok e); cbn [negb]; [|discriminate].
  destruct (existsb is_surrogate page); [discriminate|].
  destruct (page_write_ok e); cbn [negb]; [|discriminate].
  intros H. injection H as <- <-. now exists page.
Qed.

(** X23.  When [run_pipeline] returns its summary, stages 1 to 3
    returned a response, [parse_and_save] returned a story for it, and
    the page built from that story was written: after the header and
    the prints of stages 1 to 3 come the effects of [parse_and_save] and
    then the directory, the opening and the writing of the page file and
    the print of its path, in this order and nothing else.  The summary
    holds the display name of the team, the match and the result of the
    story, and the path of the page file. *)
Theorem pipeline_success_writes_both_files (w : world) (team_key : str)
  (acts : list action) (r : summary) :
  run_pipeline w team_key = (acts, Returned r) ->
  exists lines raw story page,
    stages_1_to_3 w team_key = (lines, Returned raw) /\
    outcome (parse_and_save (parser_env w team_key) raw team_key) = Ok story /\
    render_page (str_of w) (page_today (renderer_env w team_key)) story team_key
      = Ok page /\
    display_of team_key TEAMS = Returned (summary_team r) /\
    py_getitem story (lit "match") = Ok (summary_match r) /\
    py_getitem story (lit "result") = Ok (summary_result r) /\
    acts =
      Say (PipelineHeader (summary_team r)) :: map Fetching lines
      ++ map Parser (events (parse_and_save (parser_env w team_key) raw team_key))
      ++ map Renderer
           [PageMakedirs (path_join (page_dir (renderer_env w team_key)) (lit "output"));
            PageOpen (summary_html_path r);
            PageWrite (summary_html_path r) page;
            PageSaved (summary_html_path r)].
Proof.
  unfold run_pipeline.
  destruct (display_of team_key TEAMS) as [d|f]; [|discriminate].
  destruct (stages_1_to_3 w team_key) as [lines [raw|f]]; [|discriminate].
  destruct (parse_and_save (parser_env w team_key) raw team_key) as [evs [story|x]] eqn:P;
    [|discriminate].
  destruct (render_html (str_of w) (renderer_env w team_key) story team_key)
    as [pevs [p|x]] eqn:R; [|discriminate].
  destruct (render_html_ok _ _ _ _ _ _ R) as (page & Hpage & ->).
  destruct (py_getitem story (lit "match")) as [m|x] eqn:Hm; [|discriminate].
  destruct (py_getitem story (lit "result")) as [res|x] eqn:Hr; [|discriminate].
  cbn [rbind of_result]. intros H. injection H as <- <-.
  exists lines, raw, story, page.
  cbn [summary_team summary_match summary_result summary_html_path].
  rewrite P. cbn [events outcome fst snd].
  repeat (split; [reflexivity || assumption|]).
  cbn [app]. now rewrite <- app_assoc.
Qed.

(** The run for the Lakers. *)
Lemma pipeline_success_writes_both_files_witness :
  exists lines raw story page,
    stages_1_to_3 sample_world (lit "lakers") = (lines, Returned raw) /\
    outcome (parse_and_save (parser_env sample_world (lit "lakers")) raw (lit "lakers"))
      = Ok story /\
    render_page (str_of sample_world)
      (page_today (renderer_env sample_world (lit "lakers"))) story (lit "lakers")
      = Ok page /\
    display_of (lit "lakers") TEAMS = Returned (summary_team lakers_summary) /\
    py_getitem story (lit "match") = Ok (summary_match lakers_summary) /\
    py_getitem story (lit "result") = Ok (summary_result lakers_summary) /\
    fst (run_pipeline sample_world (lit "lakers")) =
      Say (PipelineHeader (summary_team lakers_summary)) :: map Fetching lines
      ++ map Parser
           (events (parse_and_save (parser_env sample_world (lit "lakers")) raw
                      (lit "lakers")))
      ++ map Renderer
           [PageMakedirs
              (path_join (page_dir (renderer_env sample_world (lit "lakers")))
                 (lit "output"));
            PageOpen (summary_html_path lakers_summary);
            PageWrite (summary_html_path lakers_summary) page;
            PageSaved (summary_html_path lakers_summary)].
Proof.
  apply (pipeline_success_writes_both_files sample_world (lit "lakers")
           (fst (run_pipeline sample_world (lit "lakers"))) lakers_summary).
  vm_compute. reflexivity.
Defined.

(* ===================================================================== *)
(** * Properties of prompt_builder.py and claude_client.py *)
(* ===================================================================== *)

Lemma fstring_text_head (str_other : json -> str) (t : str) (pieces : list piece)
  (s : str) :
  fstring str_other (Text t :: pieces) = Ok s ->
  exists r, fstring str_other pieces = Ok r /\ s = t ++ r.
Proof.
  cbn [fstring]. destruct (fstring str_other pieces) as [r|x]; [|discriminate].
  intros H. injection H as <-. now exists r.
Qed.

Lemma fstring_str_head (str_other : json -> str) (t : str) (pieces : list piece)
  (s : str) :
  fstring str_other (Hole (Ok (JStr t)) :: pieces) = Ok s ->
  exists r, fstring str_other pieces = Ok r /\ s = t ++ r.
Proof.
  cbn [fstring rbind]. destruct (fstring str_other pieces) as [r|x]; [|discriminate].
  intros H. injection H as <-. now exists r.
Qed.

Section Prompts.

Variable str_other : json -> str.
Variable float_nonzero : str -> bool.
Variable float_abs_diff : json -> json -> json.

Lemma build_prompt_opening (match_ : json) (prompt : str) :
  build_prompt str_other float_nonzero float_abs_diff match_ = Ok prompt ->
  exists rest, prompt = prompt_opening ++ rest.
Proof.
  unfold build_prompt.
  repeat match goal with
         | |- rbind ?m _ = Ok _ -> _ =>
             destruct m as [?v|?x] eqn:?E; [cbn [rbind]|discriminate]
         end.
  intros H.
  apply fstring_str_head in H as (r1 & H & ->).
  apply fstring_text_head in H as (r2 & H & ->).
  apply fstring_str_head in H as (r3 & _ & ->).
  match goal with
  | E : fstring _ (Text (join _ ([] :: _)) :: _) = Ok ?mc |- context [?mc] =>
      apply fstring_text_head in E as (r4 & _ & ->)
  end.
  exists ([NL; NL] ++ lit "- Team: " ++ r4 ++ r3).
  unfold prompt_opening. cbn [join app]. rewrite <- !app_assoc. cbn [app].
  reflexivity.
Qed.

End Prompts.

Lemma cut_cons (sep : str) (c : char) (r : str) :
  cut sep (c :: r) =
    if startswith sep (c :: r) then Some ([], skipn (length sep) (c :: r))
    else
      match cut sep r with
      | Some (before, after) => Some (c :: before, after)
      | None => None
      end.
Proof. reflexivity. Qed.

Lemma cut_split_marker (p t : str) :
  Forall (fun c => c <> NL) p ->
  cut split_marker (p ++ [NL; NL; NL] ++ lit "Here is the match data" ++ t) =
    Some (p ++ [NL], t).
Proof.
  induction 1 as [|c p Hc _ IH].
  - reflexivity.
  - change (cut split_marker
              (c :: (p ++ [NL; NL; NL] ++ lit "Here is the match data" ++ t)) =
            Some (c :: (p ++ [NL]), t)).
    rewrite cut_cons, IH.
    replace (startswith split_marker (c :: p ++ [NL; NL; NL] ++
               lit "Here is the match data" ++ t)) with false; [reflexivity|].
    symmetry. change split_marker with (NL :: NL :: lit "Here is the match data").
    cbn [startswith]. apply andb_false_iff. left.
    apply char_eqb_neq. congruence.
Qed.

Lemma persona_one_line : Forall (fun c => c <> NL) persona.
Proof.
  apply Forall_forall. intros c Hc.
  assert (H : forallb (fun c => negb (char_eqb c NL)) persona = true)
    by (vm_compute; reflexivity).
  rewrite forallb_forall in H. specialize (H c Hc).
  apply negb_true_iff in H. now apply char_eqb_neq.
Qed.

Lemma system_and_user_opening (rest : str) :
  system_and_user (prompt_opening ++ rest) =
    (persona,
     lit "Here is the match datayou will write about:" ++ rstrip rest).
Proof.
  unfold system_and_user, split_once, prompt_opening.
  replace ((persona ++ [NL; NL; NL] ++
            lit "Here is the match data you will write about:") ++ rest)
    with (persona ++ [NL; NL; NL] ++ lit "Here is the match data" ++
          (lit " you will write about:" ++ rest))
    by (rewrite <- !app_assoc; reflexivity).
  rewrite (cut_split_marker persona _ persona_one_line).
  assert (H1 : strip (persona ++ [NL]) = persona) by (vm_compute; reflexivity).
  assert (H2 : strip (lit " you will write about:" ++ rest) =
               lit "you will write about:" ++ rstrip rest).
  { unfold strip.
    change (lit " you will write about:" ++ rest)
      with ([32%N] ++ chr "y" :: (lit "ou will write about:" ++ rest)).
    rewrite lstrip_before by reflexivity.
    change (lstrip [32%N] ++ chr "y" :: lit "ou will write about:" ++ rest)
      with (lit "you will write about" ++ chr ":" :: rest).
    rewrite rstrip_after by reflexivity. reflexivity. }
  rewrite H1, H2.
  change (lit "Here is the match datayou will write about:")
    with (lit "Here is the match data" ++ lit "you will write about:").
  now rewrite <- app_assoc.
Qed.

Section Requests.

Variable str_other : json -> str.
Variable float_nonzero : str -> bool.
Variable float_abs_diff : json -> json -> json.

(** X24.  Whatever the match data, a prompt returned by [build_prompt]
    begins with the persona, followed by three newlines and the line
    that introduces the match data; the persona holds no newline. *)
Theorem prompt_opens_with_the_persona (match_ : json) (prompt : str) :
  build_prompt str_other float_nonzero float_abs_diff match_ = Ok prompt ->
  exists rest,
    prompt = persona ++ [NL; NL; NL]
             ++ lit "Here is the match data you will write about:" ++ rest.
Proof.
  intros H.
  destruct (build_prompt_opening str_other float_nonzero float_abs_diff _ _ H)
    as [rest ->].
  exists rest. unfold prompt_opening. now rewrite <- !app_assoc.
Qed.

(** X25.  With an API key set, [generate_story] splits every prompt of
    [build_prompt] at the persona: the request carries the persona as
    the system prompt, never the fallback, and a user message that
    begins with the marker of the split glued to the rest of the line,
    the blank between them being trimmed away ("datayou"). *)
Theorem persona_is_the_system_prompt (a : api) (api_key : str) (match_ : json)
  (prompt : str) :
  build_prompt str_other float_nonzero float_abs_diff match_ = Ok prompt ->
  ANTHROPIC_API_KEY a = Some api_key ->
  api_key <> [] ->
  exists rest tail,
    fst (generate_story a prompt) =
      Sending
      :: Request model_name 1024 api_key persona
           (lit "Here is the match datayou will write about:" ++ rest)
      :: tail.
Proof.
  intros H Hkey Hne.
  destruct (build_prompt_opening str_other float_nonzero float_abs_diff _ _ H)
    as [rest ->].
  unfold generate_story. rewrite Hkey.
  destruct api_key as [|k ks]; [congruence|].
  rewrite system_and_user_opening.
  exists (rstrip rest).
  destruct (create a (k :: ks) persona _) as [r|f].
  - now eexists.
  - now exists [].
Qed.

End Requests.

(** The prompt of a Lakers win. *)
Lemma prompt_opens_with_the_persona_witness :
  exists rest,
    sample_prompt = persona ++ [NL; NL; NL]
                    ++ lit "Here is the match data you will write about:" ++ rest.
Proof.
  apply (prompt_opens_with_the_persona sample_str (fun _ => true) (fun a _ => a)
           (JDict sample_match) sample_prompt).
  vm_compute. reflexivity.
Defined.

Lemma persona_is_the_system_prompt_witness :
  exists rest tail,
    fst (generate_story sample_api sample_prompt) =
      Sending
      :: Request model_name 1024 (lit "sk-test") persona
           (lit "Here is the match datayou will write about:" ++ rest)
      :: tail.
Proof.
  apply (persona_is_the_system_prompt sample_str (fun _ => true) (fun a _ => a)
           sample_api (lit "sk-test") (JDict sample_match) sample_prompt).
  - vm_compute. reflexivity.
  - reflexivity.
  - discriminate.
Defined.

(* ===================================================================== *)
(** * Properties of sports_fetcher.py *)
(* ===================================================================== *)

Ltac pieces_ok :=
  repeat (apply Forall_cons; [first [exact I | eexists; reflexivity]|]);
  apply Forall_nil.

Section FetcherProperties.

Variable str_other : json -> str.
Variable float_nonzero : str -> bool.
Variable float_abs_diff : json -> json -> json.

Lemma abs_diff_numbers (a b : json) :
  is_number a = true -> is_number b = true ->
  exists m, py_abs_diff float_abs_diff a b = Ok m.
Proof.
  intros Ha Hb. unfold py_abs_diff.
  destruct (int_value a), (int_value b); rewrite ?Ha, ?Hb; now eexists.
Qed.

Lemma extra_detail_ok (d : dict) (sport our_score opp_score : json) :
  has_all prompt_keys d = true ->
  is_number our_score = true -> is_number opp_score = true ->
  exists e,
    extra_detail_of str_other float_nonzero float_abs_diff (JDict d) sport
      our_score opp_score = Ok e.
Proof.
  intros Hall Ho Hp. unfold extra_detail_of.
  assert (Hget : forall k, exists g, py_get (JDict d) k = Ok g).
  { intros k. cbn [py_get]. destruct (dict_get k d); now eexists. }
  assert (Hrest :
    exists e,
      (if py_eq_str sport (lit "basketball")
       then rbind (py_abs_diff float_abs_diff our_score opp_score) (fun margin =>
              fstring str_other
                [Text (lit "Margin of victory/defeat: "); Hole (Ok margin);
                 Text (lit " points.")])
       else Ok []) = Ok e).
  { destruct (py_eq_str sport (lit "basketball")); [|now eexists].
    destruct (abs_diff_numbers _ _ Ho Hp) as [m ->]. cbn [rbind].
    apply fstring_ok. pieces_ok. }
  destruct (py_eq_str sport (lit "football")); cbn [rbind]; [|exact Hrest].
  destruct (Hget (lit "goal_details_home")) as [g ->]. cbn [rbind].
  destruct (py_truthy float_nonzero g); [|exact Hrest].
  destruct (has_all_getitem prompt_keys d (lit "goal_details_home") Hall) as [h ->].
  { unfold prompt_keys. cbn [In]. auto 20. }
  destruct (has_all_getitem prompt_keys d (lit "goal_details_away") Hall) as [a ->].
  { unfold prompt_keys. cbn [In]. auto 20. }
  cbn [rbind]. apply fstring_ok. pieces_ok.
Qed.

Lemma build_prompt_ok (d : dict) (our_score opp_score : json) :
  has_all prompt_keys d = true ->
  dict_get (lit "our_score") d = Some our_score ->
  dict_get (lit "opp_score") d = Some opp_score ->
  is_number our_score = true -> is_number opp_score = true ->
  exists prompt,
    build_prompt str_other float_nonzero float_abs_diff (JDict d) = Ok prompt.
Proof.
  intros Hall Hour Hopp Ho Hp. unfold build_prompt.
  assert (Hk : forall k, In k prompt_keys -> exists v, py_getitem (JDict d) k = Ok v).
  { intros k. apply (has_all_getitem prompt_keys d k Hall). }
  assert (Hin : forall k, existsb (str_eqb k) prompt_keys = true -> In k prompt_keys).
  { intros k H. apply existsb_exists in H as (x & Hx & E).
    apply str_eqb_eq in E. now subst. }
  destruct (Hk (lit "sport")) as [sport ->]; [now apply Hin|].
  destruct (Hk (lit "team_name")) as [team ->]; [now apply Hin|].
  destruct (Hk (lit "opponent")) as [opponent ->]; [now apply Hin|].
  destruct (Hk (lit "result")) as [res ->]; [now apply Hin|].
  assert (E1 : py_getitem (JDict d) (lit "our_score") = Ok our_score)
    by (cbn [py_getitem]; now rewrite Hour).
  assert (E2 : py_getitem (JDict d) (lit "opp_score") = Ok opp_score)
    by (cbn [py_getitem]; now rewrite Hopp).
  rewrite E1, E2.
  destruct (Hk (lit "date")) as [date ->]; [now apply Hin|].
  destruct (Hk (lit "venue")) as [venue ->]; [now apply Hin|].
  destruct (Hk (lit "league")) as [league ->]; [now apply Hin|].
  destruct (Hk (lit "is_home")) as [is_home ->]; [now apply Hin|].
  cbn [rbind].
  destruct (extra_detail_ok d sport our_score opp_score Hall Ho Hp) as [e ->].
  cbn [rbind].
  match goal with
  | |- exists _, rbind (fstring _ ?ps) _ = _ =>
      destruct (fstring_ok str_other ps) as [mc ->]; [pieces_ok|]
  end.
  cbn [rbind].
  match goal with
  | |- exists _, rbind (fstring _ ?ps) _ = _ =>
      destruct (fstring_ok str_other ps) as [task ->]; [pieces_ok|]
  end.
  cbn [rbind].
  match goal with
  | |- exists _, rbind (fstring _ ?ps) _ = _ =>
      destruct (fstring_ok str_other ps) as [fmt ->]; [pieces_ok|]
  end.
  cbn [rbind]. apply fstring_ok. pieces_ok.
Qed.

End FetcherProperties.

Section Extraction.

Variable lower : str -> str.
Variable int_of_text : str -> option Z.
Variable int_of_float : str -> float_int.
Variable float_nonzero : str -> bool.


(** X27.  The default of [raw.get("strHomeTeam", "")] covers a missing
    key only: an event whose home team is present but is not a string,
    [null] for one, makes [_extract_match_data] raise [AttributeError]
    at [home_team.lower()]. *)
Theorem home_team_must_be_text (d : dict) (team home_team : json) (name : str) :
  dict_get (lit "strHomeTeam") d = Some home_team ->
  is_str home_team = false ->
  py_getitem team (lit "api_name") = Ok (JStr name) ->
  _extract_match_data lower int_of_text int_of_float float_nonzero (JDict d) team
    = Failed (Raised AttributeError).
Proof.
  intros Hh Hs Hn. unfold _extract_match_data.
  cbn [py_get_default]. rewrite Hh. cbn [of_result abind].
  destruct (dict_get (lit "strAwayTeam") d); cbn [of_result abind];
    rewrite Hn; cbn [of_result abind py_lower];
    destruct home_team; try discriminate; reflexivity.
Qed.

End Extraction.


(** The event with [null] for the home team. *)
Lemma home_team_must_be_text_witness :
  _extract_match_data (fun s => s) (fun _ => None) (fun _ => NotANumber)
    (fun _ => true) (JDict null_home_event) (JDict lakers_config)
  = Failed (Raised AttributeError).
Proof.
  apply (home_team_must_be_text (fun s => s) (fun _ => None) (fun _ => NotANumber)
           (fun _ => true) null_home_event (JDict lakers_config) JNone
           (lit "Los Angeles Lakers")).
  - vm_compute. reflexivity.
  - reflexivity.
  - vm_compute. reflexivity.
Defined.
